(** * ig_media_downloader: retry policy, progress ledger, schedulers

    A shallow embedding of [src/ig_media_downloader/downloader.py] and
    [src/ig_media_downloader/models.py].  Methods of [IGDownloader] become
    computations in a state-and-exception monad over a [World] that holds
    the fields of [self], the progress files on disk, the state of the
    remote collaborator (instaloader, the media directories, the clock)
    and a trace of the calls made to [time.sleep] and to collaborators.
    The tasks handed to a [ThreadPoolExecutor] are threads of atomic
    steps, interleaved as the outside decides. *)

From stdpp Require Import gmap strings list sorting.
From Stdlib Require Import ZArith Lia.

Local Open Scope Z_scope.
Local Set Warnings "-register-all".

(** ** Exceptions *)

(** The exception classes the source dispatches on.  Every constructor is
    a subclass of Python's [Exception]; [JSONDecodeError] and
    [UnicodeDecodeError] are subclasses of [ValueError]. *)
Inductive exn : Type :=
| ConnectionException (msg : string)
| ProfileNotExistsException (msg : string)
| PrivateProfileNotFollowedException (msg : string)
| OSError (errno : option Z) (msg : string)
| ValueError (msg : string)
| JSONDecodeError (msg : string)
| UnicodeDecodeError (msg : string)
| TypeError (msg : string)
| OtherException (cls : string) (msg : string).

Definition EACCES : Z := 13.
Definition ENOSPC : Z := 28.
Definition ENOENT : Z := 2.
Definition EBADF : Z := 9.
Definition ENOTDIR : Z := 20.
Definition ELOOP : Z := 40.

Definition is_ConnectionException (e : exn) : bool :=
  match e with ConnectionException _ => true | _ => false end.

Definition is_OSError (e : exn) : bool :=
  match e with OSError _ _ => true | _ => false end.

Definition is_ProfileNotExistsException (e : exn) : bool :=
  match e with ProfileNotExistsException _ => true | _ => false end.

Definition is_PrivateProfileNotFollowedException (e : exn) : bool :=
  match e with PrivateProfileNotFollowedException _ => true | _ => false end.

(** [e.errno == code] for an [OSError]; [False] for [errno = None]. *)
Definition errno_is (e : exn) (code : Z) : bool :=
  match e with
  | OSError (Some n) _ => n =? code
  | _ => false
  end.

(** The severity tiers, read off [_handle_download_error]: the branches
    that re-raise and stop the run are [Fatal], the connection branch
    (re-raised so that the caller may retry) is [Retryable], the branches
    that only log are [RecoverableSkip]. *)
Inductive Severity : Type := Fatal | Retryable | RecoverableSkip.

Definition classify (error : exn) : Severity :=
  if is_ProfileNotExistsException error then Fatal
  else if is_ConnectionException error then Retryable
  else if is_PrivateProfileNotFollowedException error then Fatal
  else if is_OSError error then
    if errno_is error ENOSPC then Fatal
    else if errno_is error EACCES then Fatal
    else RecoverableSkip
  else RecoverableSkip.

Definition Severity_eqb (a b : Severity) : bool :=
  match a, b with
  | Fatal, Fatal | Retryable, Retryable | RecoverableSkip, RecoverableSkip => true
  | _, _ => false
  end.

(** ** Keys of the progress ledger *)

(** Elements of a Python [set] built from JSON data: strings, integers
    ([True] and [False] hash and compare as [1] and [0]) and [None].
    JSON numbers are modelled by integers. *)
Inductive pykey : Type :=
| KStr (s : string)
| KInt (n : Z)
| KNone.

Global Instance pykey_eq_dec : EqDecision pykey.
Proof. solve_decision. Defined.

Global Instance pykey_countable : Countable pykey.
Proof.
  refine (inj_countable'
    (fun k => match k with
              | KStr s => inl s
              | KInt n => inr (inl n)
              | KNone => inr (inr tt)
              end)
    (fun x => match x with
              | inl s => KStr s
              | inr (inl n) => KInt n
              | inr (inr _) => KNone
              end) _).
  intros []; reflexivity.
Defined.

(** ** JSON documents *)

Inductive json : Type :=
| JNull
| JBool (b : bool)
| JNum (n : Z)
| JStr (s : string)
| JArr (items : list json)
| JObj (fields : list (string * json)).

(** [isinstance(data, dict)] *)
Definition is_dict (data : json) : bool :=
  match data with JObj _ => true | _ => false end.

(** [dict.get(key, default)]; a key bound twice in the text keeps its
    last binding, as [json.load] does. *)
Fixpoint fields_get (fields : list (string * json)) (key : string) : option json :=
  match fields with
  | [] => None
  | (k, v) :: rest =>
      match fields_get rest key with
      | Some v' => Some v'
      | None => if String.eqb k key then Some v else None
      end
  end.

Definition dict_get (data : json) (key : string) (default : json) : json :=
  match data with
  | JObj fields =>
      match fields_get fields key with
      | Some v => v
      | None => default
      end
  | _ => default
  end.

(** ** Items and profiles handed out by instaloader *)

Record Post : Type := mkPost {
  shortcode : string;
  is_video : bool;
  typename : string;
  sidecar_nodes : list string;        (* post.get_sidecar_nodes() *)
  product_type : option string;       (* None: the attribute is absent *)
  owner_username : string
}.

Record Profile : Type := mkProfile {
  profile_username : string;
  userid : Z
}.

Record StoryItem : Type := mkStoryItem {
  item_id : string;
  item_is_video : bool
}.

(** A story is the iterator [story.get_items()]. *)
Definition Story : Type := list (exn + StoryItem).

(** ** models.DownloadStats *)

Record DownloadStats : Type := mkDownloadStats {
  username : string;
  total_posts : Z;
  downloaded_images : Z;
  downloaded_videos : Z;
  skipped_files : Z;
  errors : Z;
  output_directory : list string;
  start_time : Z;
  end_time : Z;
  stories_downloaded : Z;
  reels_downloaded : Z;
  resumed_from_previous : bool
}.

Definition duration (self : DownloadStats) : Z :=
  end_time self - start_time self.

Definition total_files (self : DownloadStats) : Z :=
  downloaded_images self + downloaded_videos self
  + stories_downloaded self + reels_downloaded self.

(** ** Trace of observable calls *)

Inductive event : Type :=
| EvSleep (seconds : Z)                  (* time.sleep(seconds) *)
| EvCall (api : string) (arg : string)   (* a call into instaloader *)
| EvLoad (username : string)             (* _load_progress(username) *)
| EvPersist (username : string)          (* _save_progress(username, ...) *)
| EvAttempt (url : string).              (* download_post_from_url(url) *)

(** The seconds slept, in order. *)
Fixpoint sleeps (tr : list event) : list Z :=
  match tr with
  | [] => []
  | EvSleep s :: rest => s :: sleeps rest
  | _ :: rest => sleeps rest
  end.

(** ** The progress file on disk *)

(** What a path of the file system holds, by what reading it gives:
    [open] fails, the bytes are not UTF-8, the text is not JSON (empty,
    truncated, garbage), or the text is the JSON document [v]; or the
    path cannot even be examined: [os.stat] fails with [errno], and so
    does [open]. *)
Inductive file : Type :=
| FUnreadable (errno : Z)
| FBadEncoding
| FNotJson
| FJson (v : json)
| FNoStat (errno : Z).

(** What writing the progress file of a user does: it goes through, or
    [mkdir]/[open] fails and the file is left as it was, or [open]
    truncates the file and the dump fails on the way. *)
Inductive write_mode : Type :=
| WriteOk
| WriteDenied (errno : Z)
| WriteTorn (errno : Z).

(** ** Results of running a method *)

(** A method returns or raises. *)
Inductive res (A : Type) : Type :=
| Ok (a : A)
| Raise (e : exn).

Arguments Ok {A} a.
Arguments Raise {A} e.

(** ** The outside and the downloader's world *)

(** A call to a collaborator over the outside state [R] (the remote
    service behind instaloader, the media directories, the wall clock,
    the scheduler of the operating system): it returns or raises, and
    moves the outside state. *)
Definition Oracle {R : Type} (A : Type) : Type := R -> (exn + A) * R.

(** The collaborators: instaloader, the directories and the clock.  An
    iterator is the list of its steps, each yielding a value or raising. *)
Record Provider {R : Type} : Type := mkProvider {
  (* instaloader.Profile.from_username(context, username) *)
  Profile_from_username : string -> @Oracle R Profile;
  (* instaloader.Post.from_shortcode(context, shortcode) *)
  Post_from_shortcode : string -> @Oracle R Post;
  (* loader.download_post(post, target=username), into the directory
     [dirname_pattern] *)
  loader_download_post : string -> Post -> string -> @Oracle R unit;
  (* the posts that iterating profile.get_posts() yields, each step
     yielding a post or raising *)
  Profile_get_posts : Profile -> R -> list (exn + Post);
  (* loader.get_stories(userids=[userid]) and story.get_items() *)
  loader_get_stories : Z -> @Oracle R (list (exn + Story));
  (* loader.download_storyitem(item, target=username) *)
  loader_download_storyitem : StoryItem -> string -> @Oracle R unit;
  (* <output_dir>/<username>/<subdir>.mkdir(parents=True, exist_ok=True) *)
  mkdir : string -> string -> @Oracle R unit;
  (* list(<output_dir>/<username>/<subdir>.glob("*<shortcode>*")) *)
  glob : string -> string -> string -> R -> list string;
  (* datetime.now(), in microseconds, and datetime.isoformat() *)
  now : R -> Z;
  isoformat : Z -> string;
  (* the order in which the threads of a pool made now will be given
     the processor: each number picks one of the threads that can run *)
  thread_schedule : R -> list nat
}.

Arguments mkProvider {R}.

(** An entry of failed_downloads.yaml. *)
Record FailureRecord : Type := mkFailureRecord {
  failed_url : string;
  failed_error : string;
  failed_timestamp : string
}.

Record World {R : Type} : Type := mkWorld {
  (* fields of self; a path is kept as its list of components *)
  output_dir : list string;
  max_workers : Z;
  resume : bool;
  downloaded_posts : gset pykey;
  (* the progress files, by path, and how writing each behaves *)
  progress_files : gmap (list string) file;
  write_modes : list string -> write_mode;
  (* <output_dir>/failed_downloads.yaml, and whether it can be written *)
  failed_file : option (list FailureRecord);
  failed_file_writable : bool;
  (* the outside *)
  remote : R;
  (* calls made so far, oldest first *)
  events : list event
}.

Arguments mkWorld {R}.

(** ** Sample collaborators and worlds *)

(** In the samples the outside is a counter of the calls made, which
    also serves as the clock. *)
Definition offline {A} : @Oracle nat A :=
  fun r => (inl (ConnectionException "offline"), S r).

Definition fine {A} (a : A) : @Oracle nat A := fun r => (inr a, S r).

(** Fails on the first call, succeeds afterwards. *)
Definition flaky {A} (a : A) : @Oracle nat A :=
  fun r => match r with O => offline r | S _ => fine a r end.

Definition a_post (code : string) (video : bool) : Post :=
  mkPost code video (if video then "GraphVideo" else "GraphImage") [] None
         "test_user".

(** A provider whose profile lists [posts], whose post lookup is
    [fetch], whose post download is [download], and whose posts
    directory holds [files code] for the pattern of [code]. *)
Definition stub (posts : list Post) (fetch : string -> @Oracle nat Post)
    (download : Post -> @Oracle nat unit) (files : string -> list string)
    : @Provider nat :=
  mkProvider
    (fun u => fine (mkProfile u 7))
    fetch
    (fun _ post _ => download post)
    (fun _ _ => inr <$> posts)
    (fun _ => fine [])
    (fun _ _ => fine tt)
    (fun _ _ r => (inr tt, r))
    (fun _ _ code _ => files code)
    Z.of_nat
    (fun _ => "2024-01-16T10:30:00")
    (fun _ => []).

Definition steady (posts : list Post) : @Provider nat :=
  stub posts (fun code => fine (a_post code false)) (fun _ => fine tt)
       (fun _ => []).

(** A post lookup that reports the account as gone. *)
Definition gone : @Provider nat :=
  stub [] (fun code r => (inl (ProfileNotExistsException code), S r))
       (fun _ => fine tt) (fun _ => []).

(** A posts directory that already holds a file of NEW001. *)
Definition already_on_disk : @Provider nat :=
  stub [] (fun code => fine (a_post code false)) (fun _ => fine tt)
       (fun code => if String.eqb code "NEW001"
                    then ["2024-01-14_10-00-00_UTC_NEW001.mp4"] else []).

(** A download that reports the account as gone for the post GONE01. *)
Definition account_gone : @Provider nat :=
  stub [] (fun code => fine (a_post code false))
       (fun post r => if String.eqb (shortcode post) "GONE01"
                      then (inl (ProfileNotExistsException "GONE01"), S r)
                      else fine tt r)
       (fun _ => []).

Definition gone_url : string := "https://www.instagram.com/p/GONE01/".

(** A downloader over the output directory "downloads" with the given
    fields, no progress file on disk, and nothing called yet. *)
Definition fresh (workers : Z) (resume_arg : bool) (ledger : gset pykey)
    : @World nat :=
  mkWorld ["downloads"] workers resume_arg ledger ∅ (fun _ => WriteOk)
          None true O [].

(** The same world with [f] as the progress file of "test_user" under
    "downloads". *)
Definition with_file (f : file) (w : @World nat) : @World nat :=
  mkWorld (output_dir w) (max_workers w) (resume w) (downloaded_posts w)
          (<[["downloads"; "test_user"; ".download_progress.json"] := f]>
             (progress_files w))
          (write_modes w)
          (failed_file w) (failed_file_writable w) (remote w) (events w).

(** The same collaborators under another schedule of the threads. *)
Definition scheduled (schedule : list nat) (p : @Provider nat) : @Provider nat :=
  mkProvider (Profile_from_username p) (Post_from_shortcode p)
    (loader_download_post p) (Profile_get_posts p) (loader_get_stories p)
    (loader_download_storyitem p) (mkdir p) (glob p) (now p) (isoformat p)
    (fun _ => schedule).

Definition two_keys : gset pykey := {[KStr "ABC123"; KStr "XYZ789"]}.

Definition three_posts : list Post :=
  [a_post "ABC123" false; a_post "NEW001" true; a_post "NEXT02" false].

(** A profile of three posts, and a schedule under which the pool
    starts the three tasks and then lets the second and the third
    alternate, step by step. *)
Definition busy : @Provider nat :=
  scheduled [0; 1; 2; 1; 2; 1; 2; 1; 2; 1; 2]%nat (steady three_posts).

(** The progress file of the test suite. *)
Definition sample_progress_data : json :=
  JObj [("username", JStr "test_user");
        ("last_updated", JStr "2024-01-16T10:30:00");
        ("downloaded_posts", JArr [JStr "ABC123"; JStr "XYZ789"]);
        ("downloaded_reels", JArr [JStr "REEL001"])].

(** The statistics of the resumed run of the test suite. *)
Definition resumed_stats : DownloadStats :=
  mkDownloadStats "test_user" 2 0 1 1 0 ["downloads"; "test_user"] 0 2 0 0 true.

(** The statistics of the resumed run of [busy] with four workers. *)
Definition busy_stats : DownloadStats :=
  mkDownloadStats "test_user" 3 1 1 1 0 ["downloads"; "test_user"] 0 3 0 0 true.

(** The outcome is a failure of the Retryable class. *)
Definition classify_outcome_retryable {A} (o : exn + A) : bool :=
  match o with
  | inl e => Severity_eqb (classify e) Retryable
  | inr _ => false
  end.

(** No network: every lookup and every download is offline. *)
Definition no_network : @Provider nat :=
  stub [] (fun _ => offline) (fun _ => offline) (fun _ => []).

(** A provider given by its profile lookup, its story listing, its
    story item download and its directory maker. *)
Definition stub_account (lookup : string -> @Oracle nat Profile)
    (stories : @Oracle nat (list (exn + Story)))
    (item_download : StoryItem -> @Oracle nat unit)
    (make_dir : string -> string -> @Oracle nat unit) : @Provider nat :=
  mkProvider lookup (fun code => fine (a_post code false))
    (fun _ _ _ => fine tt) (fun _ _ => []) (fun _ => stories)
    (fun item _ => item_download item) make_dir (fun _ _ _ _ => [])
    Z.of_nat (fun _ => "2024-01-16T10:30:00") (fun _ => []).

(** An account that does not exist. *)
Definition no_such_account : @Provider nat :=
  stub_account (fun u r => (inl (ProfileNotExistsException u), S r))
    (fine []) (fun _ => fine tt) (fun _ _ r => (inr tt, r)).

(** A disk on which no directory may be made. *)
Definition read_only_disk : @Provider nat :=
  stub_account (fun u => fine (mkProfile u 7)) (fine []) (fun _ => fine tt)
    (fun _ _ r => (inl (OSError (Some EACCES) "Permission denied"), r)).

(** Story items that cannot be downloaded. *)
Definition broken_stories : @Provider nat :=
  stub_account (fun u => fine (mkProfile u 7)) (fine []) (fun _ => offline)
    (fun _ _ r => (inr tt, r)).

Definition a_reel (code : string) : Post :=
  mkPost code true "GraphVideo" [] (Some "clips") "test_user".

(** A URL file in both formats, with one entry that is not an
    Instagram URL. *)
Definition sample_url_entries : list json :=
  [JStr "https://www.instagram.com/p/ABC123/";
   JStr "https://example.com/invalid";
   JObj [("url", JStr "https://www.instagram.com/reel/XYZ789/");
         ("description", JStr "a reel")]].

Definition sample_url_file : list (string * json) :=
  [("urls", JArr sample_url_entries)].

Section Downloader.

Context {R : Type}.
Variable provider : @Provider R.

Local Abbreviation Oracle := (@Oracle R) (only parsing).
Local Abbreviation World := (@World R) (only parsing).

(** ** Updating the world *)

Definition set_downloaded_posts (s : gset pykey) (w : World) : World :=
  mkWorld (output_dir w) (max_workers w) (resume w) s (progress_files w)
          (write_modes w) (failed_file w) (failed_file_writable w)
          (remote w) (events w).

Definition set_progress_files (fs : gmap (list string) file) (w : World) : World :=
  mkWorld (output_dir w) (max_workers w) (resume w) (downloaded_posts w) fs
          (write_modes w) (failed_file w) (failed_file_writable w)
          (remote w) (events w).

Definition set_failed_file (f : option (list FailureRecord)) (w : World) : World :=
  mkWorld (output_dir w) (max_workers w) (resume w) (downloaded_posts w)
          (progress_files w) (write_modes w) f (failed_file_writable w)
          (remote w) (events w).

Definition set_remote (r : R) (w : World) : World :=
  mkWorld (output_dir w) (max_workers w) (resume w) (downloaded_posts w)
          (progress_files w) (write_modes w) (failed_file w)
          (failed_file_writable w) r (events w).

Definition add_event (ev : event) (w : World) : World :=
  mkWorld (output_dir w) (max_workers w) (resume w) (downloaded_posts w)
          (progress_files w) (write_modes w) (failed_file w)
          (failed_file_writable w) (remote w) (events w ++ [ev]).

(** ** The monad of methods *)

Definition M (A : Type) : Type := World -> res A * World.

Definition ret {A} (a : A) : M A := fun w => (Ok a, w).

Definition raise {A} (e : exn) : M A := fun w => (Raise e, w).

Definition bind {A B} (m : M A) (k : A -> M B) : M B :=
  fun w =>
    match m w with
    | (Ok a, w') => k a w'
    | (Raise e, w') => (Raise e, w')
    end.

(** [try: m  except Exception as e: handler e].  The handler is written
    with the source's chain of [except] clauses, most specific first. *)
Definition try_except {A} (m : M A) (handler : exn -> M A) : M A :=
  fun w =>
    match m w with
    | (Raise e, w') => handler e w'
    | r => r
    end.

Definition get_world : M World := fun w => (Ok w, w).

Definition modify (f : World -> World) : M unit := fun w => (Ok tt, f w).

Definition log (ev : event) : M unit := modify (add_event ev).

(** [time.sleep(seconds)] *)
Definition sleep (seconds : Z) : M unit := log (EvSleep seconds).

(** A call into the collaborator, recorded in the trace. *)
Definition call {A} (api arg : string) (f : Oracle A) : M A :=
  fun w =>
    let w1 := add_event (EvCall api arg) w in
    match f (remote w1) with
    | (inl e, r) => (Raise e, set_remote r w1)
    | (inr a, r) => (Ok a, set_remote r w1)
    end.

(** A call that touches the outside without being an instaloader call
    (directories). *)
Definition outside {A} (f : Oracle A) : M A :=
  fun w =>
    match f (remote w) with
    | (inl e, r) => (Raise e, set_remote r w)
    | (inr a, r) => (Ok a, set_remote r w)
    end.

Notation "x <- m ;; k" := (bind m (fun x => k))
  (at level 100, m at next level, right associativity).
Notation "m ;;; k" := (bind m (fun _ => k))
  (at level 100, right associativity).

(** [range(n)] *)
Definition range (n : Z) : list Z := map Z.of_nat (seq 0 (Z.to_nat n)).

(** ** Worker threads *)

(** A method as a worker thread runs it: a succession of atomic steps.
    A step changes the world by [effect] and goes on as [next] says,
    both read off the world the step starts from; between two steps
    any other thread may run. *)
Inductive thread (A : Type) : Type :=
| Finished (r : res A)
| Step (next : World -> thread A) (effect : World -> World).

Arguments Finished {A} r.
Arguments Step {A} next effect.

Definition tret {A} (a : A) : thread A := Finished (Ok a).

Definition traise {A} (e : exn) : thread A := Finished (Raise e).

(** A piece of a method that no other thread can cut: one access to
    the shared state or to the outside. *)
Definition atomic {A} (m : M A) : thread A :=
  Step (fun w => Finished (fst (m w))) (fun w => snd (m w)).

Fixpoint tbind {A B} (t : thread A) (k : A -> thread B) : thread B :=
  match t with
  | Finished (Ok a) => k a
  | Finished (Raise e) => Finished (Raise e)
  | Step next effect => Step (fun w => tbind (next w) k) effect
  end.

Fixpoint ttry {A} (t : thread A) (handler : exn -> thread A) : thread A :=
  match t with
  | Finished (Ok a) => Finished (Ok a)
  | Finished (Raise e) => handler e
  | Step next effect => Step (fun w => ttry (next w) handler) effect
  end.

Notation "x <~ t ;; k" := (tbind t (fun x => k))
  (at level 100, t at next level, right associativity).
Notation "t ~;; k" := (tbind t (fun _ => k))
  (at level 100, right associativity).

(** The thread run to its end with no other thread in between. *)
Fixpoint run_thread {A} (t : thread A) (w : World) : res A * World :=
  match t with
  | Finished r => (r, w)
  | Step next effect => run_thread (next w) (effect w)
  end.

(** ** concurrent.futures.ThreadPoolExecutor *)

(** A pool and its caller: the tasks submitted and not started, in
    submission order; the tasks running; the futures completed and not
    yet taken by the caller's [as_completed] loop, in completion
    order; the caller's locals; and, once the caller has cancelled the
    waiting futures and is leaving the [with] block with an error,
    that error. *)
Record pool (T A S : Type) : Type := mkPool {
  pending : list (T * thread A);
  running : list (T * thread A);
  completed : list (T * res A);
  locals : S;
  stopped : option exn
}.

Arguments mkPool {T A S}.
Arguments pending {T A S}.
Arguments running {T A S}.
Arguments completed {T A S}.
Arguments locals {T A S}.
Arguments stopped {T A S}.

(** What can happen next: a running task makes a step, a free worker
    starts the next waiting task, the caller takes the next completed
    future. *)
Inductive action : Type :=
| Advance (i : nat)
| Start
| Take.

Definition enabled {T A S} (n : Z) (p : pool T A S) : list action :=
  (Advance <$> seq 0 (length (running p)))
  ++ (match pending p with
      | [] => []
      | _ :: _ => if Z.of_nat (length (running p)) <? n then [Start] else []
      end)
  ++ (match stopped p, completed p with
      | None, _ :: _ => [Take]
      | _, _ => []
      end).

(** The caller's loop body is [handle]: it gives the new locals, or the
    error with which the caller cancels what has not started and
    leaves. *)
Definition perform {T A S} (handle : S -> T -> res A -> World -> exn + S)
    (a : action) (p : pool T A S) (w : World) : pool T A S * World :=
  match a with
  | Advance i =>
      match running p !! i with
      | None => (p, w)
      | Some (task, Finished r) =>
          (mkPool (pending p) (delete i (running p))
                  (completed p ++ [(task, r)]) (locals p) (stopped p), w)
      | Some (task, Step next effect) =>
          (mkPool (pending p) (<[i := (task, next w)]> (running p))
                  (completed p) (locals p) (stopped p), effect w)
      end
  | Start =>
      match pending p with
      | [] => (p, w)
      | first :: rest =>
          (mkPool rest (running p ++ [first]) (completed p) (locals p)
                  (stopped p), w)
      end
  | Take =>
      match completed p with
      | [] => (p, w)
      | (task, r) :: rest =>
          match handle (locals p) task r w with
          | inr s => (mkPool (pending p) (running p) rest s (stopped p), w)
          | inl e => (mkPool [] (running p) rest (locals p) (Some e), w)
          end
      end
  end.

(** The pool run as the schedule says: each number picks one of the
    actions that are enabled.  Every interleaving of the threads is the
    run of some schedule. *)
Fixpoint run_pool {T A S} (handle : S -> T -> res A -> World -> exn + S)
    (n : Z) (schedule : list nat) (p : pool T A S) (w : World)
    : pool T A S * World :=
  match schedule with
  | [] => (p, w)
  | choice :: rest =>
      match enabled n p with
      | [] => (p, w)
      | a :: others =>
          let chosen :=
            nth (choice mod length (a :: others))%nat (a :: others) a in
          let '(p', w') := perform handle chosen p w in
          run_pool handle n rest p' w'
      end
  end.

(** When the schedule is used up the threads run on in turn: each
    running task to its end, then the caller through the completed
    futures, then the waiting tasks one after another, each taken by
    the caller as it completes. *)
Fixpoint finish_running {T A} (tasks : list (T * thread A)) (w : World)
    : list (T * res A) * World :=
  match tasks with
  | [] => ([], w)
  | (task, t) :: rest =>
      let '(r, w1) := run_thread t w in
      let '(done, w2) := finish_running rest w1 in
      ((task, r) :: done, w2)
  end.

Fixpoint take_all {T A S} (handle : S -> T -> res A -> World -> exn + S)
    (futures : list (T * res A)) (s : S) (w : World) : exn + S :=
  match futures with
  | [] => inr s
  | (task, r) :: rest =>
      match handle s task r w with
      | inl e => inl e
      | inr s' => take_all handle rest s' w
      end
  end.

Fixpoint run_pending {T A S} (handle : S -> T -> res A -> World -> exn + S)
    (tasks : list (T * thread A)) (s : S) (w : World) : res S * World :=
  match tasks with
  | [] => (Ok s, w)
  | (task, t) :: rest =>
      let '(r, w1) := run_thread t w in
      match handle s task r w1 with
      | inl e => (Raise e, w1)
      | inr s' => run_pending handle rest s' w1
      end
  end.

Definition drain {T A S} (handle : S -> T -> res A -> World -> exn + S)
    (p : pool T A S) (w : World) : res S * World :=
  let '(done, w1) := finish_running (running p) w in
  match stopped p with
  | Some e => (Raise e, w1)
  | None =>
      match take_all handle (completed p ++ done) (locals p) w1 with
      | inl e => (Raise e, w1)
      | inr s => run_pending handle (pending p) s w1
      end
  end.

(** [with ThreadPoolExecutor(max_workers=n) as executor:] with every
    task submitted and the [as_completed] loop whose body is [handle];
    the constructor refuses [n <= 0].  Leaving the block waits for the
    tasks that are running. *)
Definition thread_pool {T A S} (n : Z) (tasks : list (T * thread A))
    (handle : S -> T -> res A -> World -> exn + S) (s : S) : M S :=
  if n <=? 0 then raise (ValueError "max_workers must be greater than 0")
  else
    fun w =>
      let '(p, w1) :=
        run_pool handle n (thread_schedule provider (remote w))
                 (mkPool tasks [] [] s None) w in
      drain handle p w1.

(** ** IGDownloader.__init__ *)

(** The fields [__init__] sets from its arguments; the ledger starts
    empty and nothing is read or written. *)
Definition __init__ (output_dir_arg : list string) (max_workers_arg : Z)
    (resume_arg : bool) (w : World) : World :=
  mkWorld output_dir_arg (Z.min max_workers_arg 8) resume_arg ∅
          (progress_files w) (write_modes w) (failed_file w)
          (failed_file_writable w) (remote w) (events w).

(** ** IGDownloader._retry_on_connection_error *)

(** The [for attempt in range(max_retries)] loop; [last_error] is the
    local of that name.  The method returns [None] when the loop body
    never runs. *)
Fixpoint retry_loop {A} (func : M A) (max_retries : Z) (attempts : list Z)
    (last_error : option exn) : M (option A) :=
  match attempts with
  | [] =>
      match last_error with
      | Some e => raise e
      | None => ret None
      end
  | attempt :: rest =>
      try_except (a <- func ;; ret (Some a))
        (fun e =>
           if is_ConnectionException e then
             if attempt <? max_retries - 1 then
               sleep (attempt + 1) ;;;
               retry_loop func max_retries rest (Some e)
             else raise e
           else raise e)
  end.

Definition _retry_on_connection_error {A} (func : M A) (max_retries : Z)
    : M (option A) :=
  retry_loop func max_retries (range max_retries) None.

(** A call site passes a collaborator call and uses its value. *)
Definition retrying {A} (api arg : string) (f : Oracle A) : M A :=
  r <- _retry_on_connection_error (call api arg f) 3 ;;
  match r with
  | Some a => ret a
  | None => raise (OtherException "AttributeError" "NoneType")
  end.

(** The wrapper and a call site on a worker thread: every invocation
    and every sleep is a step. *)
Fixpoint retry_loop_task {A} (func : thread A) (max_retries : Z)
    (attempts : list Z) (last_error : option exn) : thread (option A) :=
  match attempts with
  | [] =>
      match last_error with
      | Some e => traise e
      | None => tret None
      end
  | attempt :: rest =>
      ttry (a <~ func ;; tret (Some a))
        (fun e =>
           if is_ConnectionException e then
             if attempt <? max_retries - 1 then
               atomic (sleep (attempt + 1)) ~;;
               retry_loop_task func max_retries rest (Some e)
             else traise e
           else traise e)
  end.

Definition retrying_task {A} (api arg : string) (f : Oracle A) : thread A :=
  r <~ retry_loop_task (atomic (call api arg f)) 3 (range 3) None ;;
  match r with
  | Some a => tret a
  | None => traise (OtherException "AttributeError" "NoneType")
  end.

(** ** The progress ledger *)

(** The key a JSON value becomes inside a [set]; lists and dicts are
    unhashable. *)
Definition hashable (v : json) : option pykey :=
  match v with
  | JNull => Some KNone
  | JBool b => Some (KInt (if b then 1 else 0))
  | JNum n => Some (KInt n)
  | JStr s => Some (KStr s)
  | JArr _ | JObj _ => None
  end.

Fixpoint set_of_items (items : list json) : exn + gset pykey :=
  match items with
  | [] => inr ∅
  | v :: rest =>
      match hashable v with
      | None => inl (TypeError "unhashable type")
      | Some k =>
          match set_of_items rest with
          | inl e => inl e
          | inr s => inr ({[k]} ∪ s)
          end
      end
  end.

(** The characters of a string, each as a string of length one. *)
Fixpoint chars (s : string) : list string :=
  match s with
  | EmptyString => []
  | String c rest => String c EmptyString :: chars rest
  end.

(** [set(v)]: the items of a list, the characters of a string, the keys
    of a dict; anything else is not iterable. *)
Definition py_set (v : json) : exn + gset pykey :=
  match v with
  | JArr items => set_of_items items
  | JStr s => inr (list_to_set (map KStr (chars s)))
  | JObj fields => inr (list_to_set (map (fun kv => KStr (fst kv)) fields))
  | JNull | JBool _ | JNum _ => inl (TypeError "object is not iterable")
  end.

Definition lift_sum {A} (x : exn + A) : M A :=
  match x with
  | inl e => raise e
  | inr a => ret a
  end.

(** [self.output_dir / username / ".download_progress.json"] *)
Definition progress_path (w : World) (username : string) : list string :=
  output_dir w ++ [username; ".download_progress.json"].

(** [os.stat] failing with one of these means that the path does not
    exist. *)
Definition ignored_errno (n : Z) : bool :=
  (n =? ENOENT) || (n =? ENOTDIR) || (n =? EBADF) || (n =? ELOOP).

(** [Path.exists()]: [False] for a missing path, the [OSError] of
    [os.stat] raised again when it is not one of the ignored ones. *)
Definition Path_exists (f : option file) : exn + bool :=
  match f with
  | None => inr false
  | Some (FNoStat n) =>
      if ignored_errno n then inr false else inl (OSError (Some n) "stat")
  | Some _ => inr true
  end.

(** [with open(progress_file) as f: data = json.load(f)] *)
Definition read_json (f : file) : M json :=
  match f with
  | FUnreadable n | FNoStat n => raise (OSError (Some n) "open")
  | FBadEncoding => raise (UnicodeDecodeError "utf-8")
  | FNotJson => raise (JSONDecodeError "Expecting value")
  | FJson v => ret v
  end.

Definition is_JSONDecodeError (e : exn) : bool :=
  match e with JSONDecodeError _ => true | _ => false end.

(** [progress_file.exists()] is called before the [try]; the three
    [except] clauses all return the empty set. *)
Definition _load_progress (username : string) : M (gset pykey) :=
  log (EvLoad username) ;;;
  w <- get_world ;;
  let progress_file := progress_files w !! progress_path w username in
  present <- lift_sum (Path_exists progress_file) ;;
  match present, progress_file with
  | false, _ | _, None => ret ∅
  | true, Some f =>
      try_except
        (data <- read_json f ;;
         if negb (is_dict data) then ret ∅
         else
           let posts := dict_get data "downloaded_posts" (JArr []) in
           let reels := dict_get data "downloaded_reels" (JArr []) in
           set_posts <- lift_sum (py_set posts) ;;
           set_reels <- lift_sum (py_set reels) ;;
           ret (set_posts ∪ set_reels))
        (fun e =>
           if is_JSONDecodeError e then ret ∅
           else if is_OSError e then ret ∅
           else ret ∅)
  end.

Definition key_str (k : pykey) : option string :=
  match k with KStr s => Some s | _ => None end.

Definition key_int (k : pykey) : option Z :=
  match k with KInt n => Some n | _ => None end.

(** [sorted(l)]: strings sort among themselves, integers among
    themselves; comparing across these raises [TypeError]. *)
Definition py_sorted (l : list pykey) : exn + list pykey :=
  match l with
  | [] | [_] => inr l
  | _ =>
      match mapM key_str l with
      | Some ss => inr (map KStr (merge_sort String.le ss))
      | None =>
          match mapM key_int l with
          | Some ns => inr (map KInt (merge_sort Z.le ns))
          | None => inl (TypeError "'<' not supported between instances")
          end
      end
  end.

Definition key_json (k : pykey) : json :=
  match k with
  | KStr s => JStr s
  | KInt n => JNum n
  | KNone => JNull
  end.

(** The dict [_save_progress] dumps. *)
Definition progress_data (username timestamp : string) (posts : list pykey) : json :=
  JObj [("username", JStr username);
        ("last_updated", JStr timestamp);
        ("downloaded_posts", JArr (map key_json posts));
        ("downloaded_reels", JArr [])].

Definition is_IOError (e : exn) : bool := is_OSError e.

(** Both [except] clauses log and return. *)
Definition _save_progress (username : string) (posts : gset pykey) : M unit :=
  log (EvPersist username) ;;;
  try_except
    (w <- get_world ;;
     (* progress_file.parent.mkdir(parents=True, exist_ok=True) *)
     match write_modes w (progress_path w username) with
     | WriteDenied n => raise (OSError (Some n) "mkdir")
     | _ => ret tt
     end ;;;
     sorted_posts <- lift_sum (py_sorted (elements posts)) ;;
     let data :=
       progress_data username (isoformat provider (now provider (remote w)))
                     sorted_posts in
     (* open(progress_file, "w") truncates, json.dump writes *)
     match write_modes w (progress_path w username) with
     | WriteTorn n =>
         modify (set_progress_files
                   (<[progress_path w username := FNotJson]> (progress_files w))) ;;;
         raise (OSError (Some n) "write")
     | _ =>
         modify (set_progress_files
                   (<[progress_path w username := FJson data]> (progress_files w)))
     end)
    (fun e =>
       if is_IOError e then ret tt
       else ret tt).

Definition _is_already_downloaded (w : World) (post_shortcode : string) : bool :=
  bool_decide (KStr post_shortcode ∈ downloaded_posts w).

(** ** IGDownloader._download_post *)

(** (images, videos, skipped) *)
Definition counts : Type := (Z * Z * Z)%type.

Definition len {A} (l : list A) : Z := Z.of_nat (length l).

Definition is_empty {A} (l : list A) : bool :=
  match l with [] => true | _ => false end.

(** Adding a key to the in-memory ledger and saving it, under the lock. *)
Definition record_downloaded (post : Post) (user : string) : M unit :=
  w <- get_world ;;
  modify (set_downloaded_posts ({[KStr (shortcode post)]} ∪ downloaded_posts w)) ;;;
  w' <- get_world ;;
  _save_progress user (downloaded_posts w').

(** The files a downloaded post counts for: one video, or the images of
    a carousel, or one image. *)
Definition media_counts (post : Post) : Z * Z :=
  if is_video post then (0, 1)
  else if String.eqb (typename post) "GraphSidecar"
       then (len (sidecar_nodes post), 0)
       else (1, 0).

Definition _download_post (post : Post) (user : string) : M counts :=
  try_except
    (w <- get_world ;;
     if resume w && _is_already_downloaded w (shortcode post) then
       ret (0, 0, 1)
     else
       let existing_files := glob provider user "posts" (shortcode post) (remote w) in
       if negb (is_empty existing_files) then
         ret (0, 0, len existing_files)
       else
         call "download_post" (shortcode post)
              (loader_download_post provider "posts" post user) ;;;
         let '(images_count, videos_count) := media_counts post in
         w1 <- get_world ;;
         (if resume w1 then record_downloaded post user else ret tt) ;;;
         ret (images_count, videos_count, 0))
    (fun e =>
       if is_ConnectionException e then raise e
       else if is_OSError e then
         if errno_is e ENOSPC then raise e
         else if errno_is e EACCES then raise e
         else ret (0, 0, 0)
       else ret (0, 0, 0)).

(** The method on a worker thread.  The steps are the test of the
    ledger, the listing of the directory, the call of the loader (the
    assignment to [loader.dirname_pattern] is taken with the call that
    uses it), and the section under [self.stats_lock]. *)
Definition _download_post_task (post : Post) (user : string) : thread counts :=
  ttry
    (hit <~ atomic (w <- get_world ;;
                    ret (resume w && _is_already_downloaded w (shortcode post))) ;;
     if hit : bool then tret (0, 0, 1)
     else
       existing_files <~
         atomic (w <- get_world ;;
                 ret (glob provider user "posts" (shortcode post) (remote w))) ;;
       if negb (is_empty existing_files) then
         tret (0, 0, len existing_files)
       else
         atomic (call "download_post" (shortcode post)
                      (loader_download_post provider "posts" post user)) ~;;
         let '(images_count, videos_count) := media_counts post in
         atomic (w1 <- get_world ;;
                 if resume w1 then record_downloaded post user else ret tt) ~;;
         tret (images_count, videos_count, 0))
    (fun e =>
       if is_ConnectionException e then traise e
       else if is_OSError e then
         if errno_is e ENOSPC then traise e
         else if errno_is e EACCES then traise e
         else tret (0, 0, 0)
       else tret (0, 0, 0)).

(** ** IGDownloader._download_posts_parallel *)

(** The [for post in posts] loop of the single-worker branch, over the
    method [download] bound to [self._download_post]. *)
Fixpoint sequential_loop (download : Post -> string -> M counts)
    (posts : list Post) (user : string) (results : list counts)
    : M (list counts) :=
  match posts with
  | [] => ret results
  | post :: rest =>
      result <- try_except (download post user)
        (fun e =>
           if is_ConnectionException e || is_OSError e
              || is_ProfileNotExistsException e
              || is_PrivateProfileNotFollowedException e
           then raise e
           else ret (0, 0, 0)) ;;
      sequential_loop download rest user (results ++ [result])
  end.

(** The body of [for future in as_completed(future_to_post)]: the
    result is appended, or the error of the task is raised again after
    the waiting futures were cancelled, or it counts as (0, 0, 0). *)
Definition collect_result (results : list counts) (post : Post)
    (r : res counts) (w : World) : exn + list counts :=
  match r with
  | Ok result => inr (results ++ [result])
  | Raise e =>
      if is_ConnectionException e then inl e
      else if is_OSError e then
        if errno_is e ENOSPC || errno_is e EACCES then inl e
        else inr (results ++ [(0, 0, 0)])
      else if is_ProfileNotExistsException e
              || is_PrivateProfileNotFollowedException e then inl e
      else inr (results ++ [(0, 0, 0)])
  end.

Definition _download_posts_parallel (posts : list Post) (user : string)
    : M (list counts) :=
  w <- get_world ;;
  if max_workers w =? 1 then
    sequential_loop _download_post posts user []
  else
    thread_pool (max_workers w)
      ((fun post => (post, _download_post_task post user)) <$> posts)
      collect_result [].

(** ** IGDownloader.download_stories *)

(** The chain of [except] clauses shared by [download_stories] and
    [download_reels]: account, connection and disk errors are re-raised,
    anything else gives [(0, 0)]. *)
Definition phase_handler (e : exn) : M (Z * Z) :=
  if is_ProfileNotExistsException e then raise e
  else if is_ConnectionException e then raise e
  else if is_PrivateProfileNotFollowedException e then raise e
  else if is_OSError e then
    if errno_is e ENOSPC then raise e
    else if errno_is e EACCES then raise e
    else ret (0, 0)
  else ret (0, 0).

Fixpoint story_items_loop (items : Story) (user : string) (acc : Z * Z)
    : M (Z * Z) :=
  match items with
  | [] => ret acc
  | inl e :: _ => raise e
  | inr item :: rest =>
      acc' <- try_except
        (call "download_storyitem" (item_id item)
              (loader_download_storyitem provider item user) ;;;
         if item_is_video item then ret (fst acc, snd acc + 1)
         else ret (fst acc + 1, snd acc))
        (fun _ => ret acc) ;;
      story_items_loop rest user acc'
  end.

Fixpoint stories_loop (stories : list (exn + Story)) (user : string)
    (acc : Z * Z) : M (Z * Z) :=
  match stories with
  | [] => ret acc
  | inl e :: _ => raise e
  | inr story :: rest =>
      acc' <- story_items_loop story user acc ;;
      stories_loop rest user acc'
  end.

Definition download_stories (user : string) : M (Z * Z) :=
  try_except
    (outside (mkdir provider user "stories") ;;;
     profile <- retrying "Profile.from_username" user
                  (Profile_from_username provider user) ;;
     stories_iterator <- retrying "get_stories" user
                  (loader_get_stories provider (userid profile)) ;;
     stories_loop stories_iterator user (0, 0))
    phase_handler.

(** ** IGDownloader._is_reel and download_reels *)

Definition _is_reel (post : Post) : bool :=
  match product_type post with
  | Some t => String.eqb t "clips"
  | None => false
  end.

Fixpoint reels_loop (posts : list (exn + Post)) (user : string)
    (videos_count : Z) : M Z :=
  match posts with
  | [] => ret videos_count
  | inl e :: _ => raise e
  | inr post :: rest =>
      videos_count' <- try_except
        (if negb (_is_reel post) then ret videos_count
         else
           w <- get_world ;;
           if resume w && _is_already_downloaded w (shortcode post) then
             ret videos_count
           else
             let existing_files :=
               glob provider user "reels" (shortcode post) (remote w) in
             if negb (is_empty existing_files) then ret videos_count
             else
               call "download_post" (shortcode post)
                    (loader_download_post provider "reels" post user) ;;;
               w1 <- get_world ;;
               (if resume w1 then record_downloaded post user else ret tt) ;;;
               ret (videos_count + 1))
        (fun e =>
           if is_ConnectionException e then raise e
           else if is_OSError e then
             if errno_is e ENOSPC then raise e
             else if errno_is e EACCES then raise e
             else ret videos_count
           else ret videos_count) ;;
      reels_loop rest user videos_count'
  end.

Definition download_reels (user : string) : M (Z * Z) :=
  try_except
    (outside (mkdir provider user "reels") ;;;
     profile <- retrying "Profile.from_username" user
                  (Profile_from_username provider user) ;;
     w <- get_world ;;
     videos_count <- reels_loop (Profile_get_posts provider profile (remote w)) user 0 ;;
     ret (0, videos_count))
    phase_handler.

(** ** IGDownloader._create_output_directory *)

(** [PermissionError(msg)] and [OSError(msg)] built from a message alone
    carry no [errno]. *)
Definition _create_output_directory (user : string) : M (list string) :=
  try_except
    (outside (mkdir provider user "posts") ;;;
     w <- get_world ;;
     ret (output_dir w ++ [user]))
    (fun e =>
       if is_OSError e then
         if errno_is e EACCES then raise (OSError None "PermissionError")
         else if errno_is e ENOSPC then raise (OSError None "ENOSPC")
         else raise e
       else raise e).

(** ** IGDownloader._extract_shortcode_from_url *)

Fixpoint strip_prefix (prefix s : string) : option string :=
  match prefix, s with
  | EmptyString, _ => Some s
  | String a prefix', String b s' =>
      if Ascii.eqb a b then strip_prefix prefix' s' else None
  | String _ _, EmptyString => None
  end.

(** The class [[A-Za-z0-9_-]]. *)
Definition is_shortcode_char (c : Ascii.ascii) : bool :=
  let n := Z.of_nat (Ascii.nat_of_ascii c) in
  ((65 <=? n) && (n <=? 90)) || ((97 <=? n) && (n <=? 122))
  || ((48 <=? n) && (n <=? 57)) || (n =? 95) || (n =? 45).

Fixpoint take_shortcode (s : string) : string :=
  match s with
  | EmptyString => EmptyString
  | String c rest =>
      if is_shortcode_char c then String c (take_shortcode rest)
      else EmptyString
  end.

(** A match of [instagram\.com/(?:p|reel)/([A-Za-z0-9_-]+)] at the start
    of [s]: its group 1. *)
Definition match_here (s : string) : option string :=
  match strip_prefix "instagram.com/" s with
  | None => None
  | Some rest =>
      let after :=
        match strip_prefix "p/" rest with
        | Some r => Some r
        | None => strip_prefix "reel/" rest
        end in
      match after with
      | None => None
      | Some r =>
          match take_shortcode r with
          | EmptyString => None
          | code => Some code
          end
      end
  end.

(** [re.search]: the leftmost match. *)
Fixpoint re_search (s : string) : option string :=
  match match_here s with
  | Some code => Some code
  | None =>
      match s with
      | EmptyString => None
      | String _ rest => re_search rest
      end
  end.

Definition _extract_shortcode_from_url (url : string) : M string :=
  match re_search url with
  | None => raise (ValueError url)
  | Some code => ret code
  end.

(** ** IGDownloader.download_post_from_shortcode and download_post_from_url *)

(** Both methods wrap their body in [except] clauses that log and
    re-raise; those clauses change nothing and are left out. *)
Definition download_post_from_shortcode (code : string) : M DownloadStats :=
  w0 <- get_world ;;
  let start := now provider (remote w0) in
  post <- retrying "Post.from_shortcode" code (Post_from_shortcode provider code) ;;
  let user := owner_username post in
  user_dir <- _create_output_directory user ;;
  r <- _download_post post user ;;
  let '(images, videos, skipped) := r in
  w1 <- get_world ;;
  ret (mkDownloadStats user 1 images videos skipped 0 user_dir
         start (now provider (remote w1)) 0 0 false).

Definition download_post_from_url (url : string) : M DownloadStats :=
  log (EvAttempt url) ;;;
  code <- _extract_shortcode_from_url url ;;
  download_post_from_shortcode code.

(** Both methods on a worker thread; reading the clock is a step. *)
Definition download_post_from_shortcode_task (code : string)
    : thread DownloadStats :=
  w0 <~ atomic get_world ;;
  let start := now provider (remote w0) in
  post <~ retrying_task "Post.from_shortcode" code
            (Post_from_shortcode provider code) ;;
  let user := owner_username post in
  user_dir <~ atomic (_create_output_directory user) ;;
  r <~ _download_post_task post user ;;
  let '(images, videos, skipped) := r in
  w1 <~ atomic get_world ;;
  tret (mkDownloadStats user 1 images videos skipped 0 user_dir
          start (now provider (remote w1)) 0 0 false).

Definition download_post_from_url_task (url : string) : thread DownloadStats :=
  atomic (log (EvAttempt url)) ~;;
  code <~ atomic (_extract_shortcode_from_url url) ;;
  download_post_from_shortcode_task code.

(** ** IGDownloader._save_failed_urls and download_posts_from_urls *)

Definition _save_failed_urls (failed_urls : list FailureRecord) : M unit :=
  w <- get_world ;;
  if failed_file_writable w then modify (set_failed_file (Some failed_urls))
  else ret tt.

(** [str(e)] *)
Definition exn_str (e : exn) : string :=
  match e with
  | ConnectionException msg | ProfileNotExistsException msg
  | PrivateProfileNotFollowedException msg | OSError _ msg | ValueError msg
  | JSONDecodeError msg | UnicodeDecodeError msg | TypeError msg
  | OtherException _ msg => msg
  end.

(** The [for attempt in range(max_retries)] loop around one URL, over
    the method [download] bound to [self.download_post_from_url].  It
    gives the statistics of the attempt that broke out of the loop, if
    any, and the local [last_error]. *)
Fixpoint url_attempts (download : string -> M DownloadStats) (url : string)
    (max_retries : Z) (attempts : list Z) (last_error : option exn)
    : M (option DownloadStats * option exn) :=
  match attempts with
  | [] => ret (None, last_error)
  | attempt :: rest =>
      r <- try_except (stats <- download url ;; ret (inr stats))
                      (fun e => ret (inl e)) ;;
      match r with
      | inr stats => ret (Some stats, last_error)
      | inl e =>
          (if attempt <? max_retries - 1 then sleep ((attempt + 1) * 2)
           else ret tt) ;;;
          url_attempts download url max_retries rest (Some e)
      end
  end.

(** The locals of [download_posts_from_urls]. *)
Record Batch : Type := mkBatch {
  batch_images : Z;
  batch_videos : Z;
  batch_skipped : Z;
  batch_errors : Z;
  batch_failed_urls : list FailureRecord
}.

Fixpoint urls_loop (download : string -> M DownloadStats) (urls : list string)
    (max_retries : Z) (b : Batch) : M Batch :=
  match urls with
  | [] => ret b
  | url :: rest =>
      r <- url_attempts download url max_retries (range max_retries) None ;;
      match fst r with
      | Some stats =>
          urls_loop download rest max_retries
            (mkBatch (batch_images b + downloaded_images stats)
                     (batch_videos b + downloaded_videos stats)
                     (batch_skipped b + skipped_files stats)
                     (batch_errors b) (batch_failed_urls b))
      | None =>
          w <- get_world ;;
          let record :=
            mkFailureRecord url
              (match snd r with Some e => exn_str e | None => "None" end)
              (isoformat provider (now provider (remote w))) in
          urls_loop download rest max_retries
            (mkBatch (batch_images b) (batch_videos b) (batch_skipped b)
                     (batch_errors b + 1) (batch_failed_urls b ++ [record]))
      end
  end.

(** The local function [download_with_retry] of the multi-thread
    branch: the statistics of the attempt that returned, or the error of
    the last attempt. *)
Fixpoint download_with_retry (url : string) (max_retries : Z)
    (attempts : list Z) : thread (option DownloadStats * option exn) :=
  match attempts with
  | [] => tret (None, Some (OtherException "Exception" "Unknown error"))
  | attempt :: rest =>
      r <~ ttry (stats <~ download_post_from_url_task url ;; tret (inr stats))
                (fun e => tret (inl e)) ;;
      match r with
      | inr stats => tret (Some stats, None)
      | inl e =>
          if attempt <? max_retries - 1 then
            atomic (sleep ((attempt + 1) * 2)) ~;;
            download_with_retry url max_retries rest
          else tret (None, Some e)
      end
  end.

(** The body of [for future in as_completed(future_to_url)]; it never
    raises. *)
Definition collect_url (b : Batch) (url : string)
    (r : res (option DownloadStats * option exn)) (w : World) : exn + Batch :=
  let failed (error : string) :=
    mkBatch (batch_images b) (batch_videos b) (batch_skipped b)
            (batch_errors b + 1)
            (batch_failed_urls b ++
             [mkFailureRecord url error
                (isoformat provider (now provider (remote w)))]) in
  match r with
  | Ok (Some stats, _) =>
      inr (mkBatch (batch_images b + downloaded_images stats)
                   (batch_videos b + downloaded_videos stats)
                   (batch_skipped b + skipped_files stats)
                   (batch_errors b) (batch_failed_urls b))
  | Ok (None, Some e) => inr (failed (exn_str e))
  | Ok (None, None) => inr (failed "None")
  | Raise e => inr (failed (exn_str e))
  end.

Definition download_posts_from_urls (urls : list string) (max_retries : Z)
    : M DownloadStats :=
  w0 <- get_world ;;
  let start := now provider (remote w0) in
  let b0 := mkBatch 0 0 0 0 [] in
  b <- (if max_workers w0 =? 1 then
          urls_loop download_post_from_url urls max_retries b0
        else
          thread_pool (max_workers w0)
            ((fun url =>
                (url, download_with_retry url max_retries (range max_retries)))
               <$> urls)
            collect_url b0) ;;
  (if negb (is_empty (batch_failed_urls b))
   then _save_failed_urls (batch_failed_urls b) else ret tt) ;;;
  w1 <- get_world ;;
  ret (mkDownloadStats "batch_download" (len urls) (batch_images b)
         (batch_videos b) (batch_skipped b) (batch_errors b) (output_dir w1)
         start (now provider (remote w1)) 0 0 false).

(** ** IGDownloader.download_user_media *)

(** The loop that collects [posts_to_download] from
    [profile.get_posts()]. *)
Fixpoint collect_posts (it : list (exn + Post)) (max_posts : option Z)
    (include_reels : bool) (posts_to_download : list Post) : M (list Post) :=
  match it with
  | [] => ret posts_to_download
  | inl e :: _ => raise e
  | inr post :: rest =>
      if match max_posts with
         | Some m => m <=? len posts_to_download
         | None => false
         end
      then ret posts_to_download
      else if include_reels && _is_reel post then
        collect_posts rest max_posts include_reels posts_to_download
      else
        collect_posts rest max_posts include_reels (posts_to_download ++ [post])
  end.

(** The accumulation of the per-post results. *)
Fixpoint sum_results (results : list counts) (acc : counts) : counts :=
  match results with
  | [] => acc
  | (images, videos, skipped) :: rest =>
      let '(i, v, s) := acc in
      sum_results rest (i + images, v + videos, s + skipped)
  end.

(** The first block of [download_user_media]: with resume on, the ledger
    is loaded into [self.downloaded_posts]; the value is
    [resumed_from_previous]. *)
Definition load_block (user : string) : M bool :=
  w <- get_world ;;
  if resume w then
    loaded <- _load_progress user ;;
    modify (set_downloaded_posts loaded) ;;;
    ret (0 <? Z.of_nat (size loaded))
  else ret false.

(** The [except] clauses around the body log and re-raise in every
    branch; they are left out. *)
Definition download_user_media (user : string) (max_posts : option Z)
    (include_stories include_reels : bool) : M DownloadStats :=
  w0 <- get_world ;;
  let start := now provider (remote w0) in
  user_dir <- _create_output_directory user ;;
  resumed <- load_block user ;;
  profile <- retrying "Profile.from_username" user
               (Profile_from_username provider user) ;;
  stories <- (if include_stories then
                try_except (r <- download_stories user ;; ret (r, 0))
                           (fun _ => ret ((0, 0), 1))
              else ret ((0, 0), 0)) ;;
  let '((stories_images, stories_videos), errors1) := stories in
  reels <- (if include_reels then
              try_except (r <- download_reels user ;; ret (snd r, errors1))
                         (fun _ => ret (0, errors1 + 1))
            else ret (0, errors1)) ;;
  let '(reels_videos, errors2) := reels in
  w2 <- get_world ;;
  posts_to_download <-
    collect_posts (Profile_get_posts provider profile (remote w2))
                  max_posts include_reels [] ;;
  let total := len posts_to_download in
  results <- (if 0 <? total then _download_posts_parallel posts_to_download user
              else ret []) ;;
  let '(images, videos, skipped) := sum_results results (0, 0, 0) in
  w3 <- get_world ;;
  ret (mkDownloadStats user total images videos skipped errors2 user_dir
         start (now provider (remote w3))
         (stories_images + stories_videos) reels_videos resumed).

(** ** IGDownloader._handle_download_error *)

Definition _handle_download_error (error : exn) : M unit :=
  if is_ProfileNotExistsException error then raise error
  else if is_ConnectionException error then raise error
  else if is_PrivateProfileNotFollowedException error then raise error
  else if is_OSError error then
    if errno_is error ENOSPC then raise error
    else if errno_is error EACCES then raise error
    else ret tt
  else ret tt.

(** ** IGDownloader._read_urls_from_file *)

(** [needle in hay] on strings. *)
Fixpoint contains (needle hay : string) : bool :=
  match strip_prefix needle hay with
  | Some _ => true
  | None =>
      match hay with
      | EmptyString => false
      | String _ rest => contains needle rest
      end
  end.

(** [bool(v)] *)
Definition truthy (v : json) : bool :=
  match v with
  | JNull => false
  | JBool b => b
  | JNum n => negb (n =? 0)
  | JStr s => negb (String.eqb s EmptyString)
  | JArr items => negb (is_empty items)
  | JObj fields => negb (is_empty fields)
  end.

Definition is_the_string (key : string) (v : json) : bool :=
  match v with
  | JStr s => String.eqb s key
  | _ => false
  end.

(** [key in v] for a string [key]: a key of a dict, an item of a list, a
    substring of a string; other values are not iterable. *)
Definition py_in (key : string) (v : json) : exn + bool :=
  match v with
  | JObj fields => inr (bool_decide (is_Some (fields_get fields key)))
  | JArr items => inr (existsb (is_the_string key) items)
  | JStr s => inr (contains key s)
  | JNull | JBool _ | JNum _ => inl (TypeError "argument is not iterable")
  end.

(** [v[key]] for a string [key]. *)
Definition py_getitem (v : json) (key : string) : exn + json :=
  match v with
  | JObj fields =>
      match fields_get fields key with
      | Some x => inr x
      | None => inl (OtherException "KeyError" key)
      end
  | _ => inl (TypeError "indices must be integers")
  end.

(** The keys of a dict in insertion order, each once. *)
Fixpoint dict_keys (fields : list (string * json)) (seen : list string)
    : list string :=
  match fields with
  | [] => []
  | (k, _) :: rest =>
      if existsb (String.eqb k) seen then dict_keys rest seen
      else k :: dict_keys rest (k :: seen)
  end.

(** The items [for item in v] goes through. *)
Definition py_iter (v : json) : exn + list json :=
  match v with
  | JArr items => inr items
  | JStr s => inr (JStr <$> chars s)
  | JObj fields => inr (JStr <$> dict_keys fields [])
  | JNull | JBool _ | JNum _ => inl (TypeError "object is not iterable")
  end.

(** The URL an entry of the list stands for: the entry itself when it
    is a string, its "url" field when it is a dict that has one. *)
Definition url_of_item (item : json) : option json :=
  match item with
  | JStr _ => Some item
  | JObj fields => fields_get fields "url"
  | _ => None
  end.

(** The [for item in url_list] loop. *)
Fixpoint urls_of_items (items : list json) (urls : list json)
    : exn + list json :=
  match items with
  | [] => inr urls
  | item :: rest =>
      match url_of_item item with
      | None => urls_of_items rest urls
      | Some url =>
          match py_in "instagram.com" url with
          | inl e => inl e
          | inr true => urls_of_items rest (urls ++ [url])
          | inr false => urls_of_items rest urls
          end
      end
  end.

(** The file at [file_path] is given by what reading it yields, as for
    the progress file, with [FNotJson] for a text that is not YAML and
    [FJson v] for a YAML document whose value is [v]; [None] is a
    missing file.  Only [yaml.YAMLError] and [FileNotFoundError] are
    caught, and both are raised again under another class. *)
Definition _read_urls_from_file (f : option file) : exn + list json :=
  match f with
  | None => inl (OSError None "FileNotFoundError")
  | Some (FUnreadable n) => inl (OSError (Some n) "open")
  | Some (FNoStat n) =>
      if n =? ENOENT then inl (OSError None "FileNotFoundError")
      else inl (OSError (Some n) "open")
  | Some FBadEncoding => inl (UnicodeDecodeError "utf-8")
  | Some FNotJson => inl (ValueError "YAMLError")
  | Some (FJson data) =>
      if negb (truthy data) then inl (ValueError "urls")
      else
        match py_in "urls" data with
        | inl e => inl e
        | inr false => inl (ValueError "urls")
        | inr true =>
            match py_getitem data "urls" with
            | inl e => inl e
            | inr url_list =>
                match py_iter url_list with
                | inl e => inl e
                | inr items => urls_of_items items []
                end
            end
        end
  end.

(** ** Vocabulary of the statements *)

(** An operation that is offline on every attempt and does nothing
    else. *)
Definition always_offline : string -> M DownloadStats :=
  fun _ => raise (ConnectionException "offline").


(** The world after the outside moved to [r] and the calls [tr] were
    made; the downloader's own fields and the files are as before. *)
Definition advance (r : R) (tr : list event) (w : World) : World :=
  mkWorld (output_dir w) (max_workers w) (resume w) (downloaded_posts w)
          (progress_files w) (write_modes w) (failed_file w)
          (failed_file_writable w) r (events w ++ tr).

(** What [n] successive invocations of a collaborator call give, and
    where they leave the outside. *)
Fixpoint outcomes {A} (f : Oracle A) (n : nat) (r : R) : list (exn + A) :=
  match n with
  | O => []
  | S n' => fst (f r) :: outcomes f n' (snd (f r))
  end.

Fixpoint after {A} (f : Oracle A) (n : nat) (r : R) : R :=
  match n with
  | O => r
  | S n' => after f n' (snd (f r))
  end.

Definition connection_failure {A} (o : exn + A) : bool :=
  match o with
  | inl e => is_ConnectionException e
  | inr _ => false
  end.

(** The trace of [k] attempts that each failed and were followed by the
    wrapper's sleep, the first of them with loop index [attempt]. *)
Fixpoint retried (api arg : string) (attempt : Z) (k : nat) : list event :=
  match k with
  | O => []
  | S k' =>
      EvCall api arg :: EvSleep (attempt + 1) :: retried api arg (attempt + 1) k'
  end.

(** The number of calls into instaloader in a trace. *)
Fixpoint count_calls (tr : list event) : nat :=
  match tr with
  | [] => O
  | EvCall _ _ :: rest => S (count_calls rest)
  | _ :: rest => count_calls rest
  end.

(** How the wrapper ends on the outcome that settles it. *)
Definition settled {A} (o : exn + A) : res (option A) :=
  match o with
  | inl e => Raise e
  | inr a => Ok (Some a)
  end.

(** The progress file of a user, as the downloader finds it. *)
Definition progress_file (w : World) (user : string) : option file :=
  progress_files w !! progress_path w user.

(** The error with which the existence test of a path fails. *)
Definition stat_error (f : option file) : option exn :=
  match Path_exists f with
  | inl e => Some e
  | inr _ => None
  end.

(** The completed-key set a progress file stands for: the union of its
    two arrays when it is a JSON object whose arrays can be made sets,
    and nothing otherwise. *)
Definition ledger_of_file (f : option file) : gset pykey :=
  match f with
  | Some (FJson (JObj fields)) =>
      match py_set (dict_get (JObj fields) "downloaded_posts" (JArr [])),
            py_set (dict_get (JObj fields) "downloaded_reels" (JArr [])) with
      | inr set_posts, inr set_reels => set_posts ∪ set_reels
      | _, _ => ∅
      end
  | _ => ∅
  end.

(** What a save puts in the progress file of [user]: the dumped
    document, a torn file, or nothing ([None]: the file is untouched). *)
Definition file_after_save (user : string) (posts : gset pykey) (w : World)
    : option file :=
  match write_modes w (progress_path w user), py_sorted (elements posts) with
  | WriteOk, inr l =>
      Some (FJson (progress_data user
                     (isoformat provider (now provider (remote w))) l))
  | WriteTorn _, inr _ => Some FNotJson
  | _, _ => None
  end.

Definition world_after_save (user : string) (posts : gset pykey) (w : World)
    : World :=
  match file_after_save user posts w with
  | Some f =>
      set_progress_files (<[progress_path w user := f]> (progress_files w))
                         (add_event (EvPersist user) w)
  | None => add_event (EvPersist user) w
  end.

(** The world after a post was fetched: the call is in the trace and,
    with resume on, the key is in the ledger and the ledger was saved. *)
Definition world_after_download (post : Post) (user : string) (r' : R)
    (w : World) : World :=
  let w1 := advance r' [EvCall "download_post" (shortcode post)] w in
  if resume w then
    world_after_save user ({[KStr (shortcode post)]} ∪ downloaded_posts w)
      (set_downloaded_posts ({[KStr (shortcode post)]} ∪ downloaded_posts w) w1)
  else w1.

(** The events of a trace that touch the ledger file. *)
Fixpoint ledger_events (tr : list event) : list event :=
  match tr with
  | [] => []
  | EvLoad u :: rest => EvLoad u :: ledger_events rest
  | EvPersist u :: rest => EvPersist u :: ledger_events rest
  | _ :: rest => ledger_events rest
  end.

(** The ledger is as it was: in memory, on disk and in the trace. *)
Definition ledger_untouched (w w' : World) : Prop :=
  downloaded_posts w' = downloaded_posts w /\
  progress_files w' = progress_files w /\
  ledger_events (events w') = ledger_events (events w).

(** What every method leaves alone: the configuration always, and the
    ledger (in memory, on disk, in the trace) when resume is off. *)
Definition frame (w w' : World) : Prop :=
  max_workers w' = max_workers w /\
  resume w' = resume w /\
  output_dir w' = output_dir w /\
  (resume w = false ->
   downloaded_posts w' = downloaded_posts w /\
   progress_files w' = progress_files w /\
   ledger_events (events w') = ledger_events (events w)).

(** Every character is of the class [[A-Za-z0-9_-]]. *)
Fixpoint all_shortcode_chars (s : string) : bool :=
  match s with
  | EmptyString => true
  | String c rest => is_shortcode_char c && all_shortcode_chars rest
  end.

(** The string begins with a character of that class. *)
Definition starts_with_shortcode_char (s : string) : bool :=
  match s with
  | EmptyString => false
  | String c _ => is_shortcode_char c
  end.

(** A string entry, or a dict entry whose "url" is a string, or an
    entry that stands for no URL. *)
Definition plain_entry (item : json) : bool :=
  match url_of_item item with
  | Some (JStr _) | None => true
  | Some _ => false
  end.

Definition is_instagram_url (u : json) : bool :=
  match u with
  | JStr s => contains "instagram.com" s
  | _ => false
  end.

(** The posts an iterator yields, its failures left out. *)
Definition yielded (it : list (exn + Post)) : list Post :=
  omap (fun step => match step with inl _ => None | inr post => Some post end) it.

(** The componentwise total of per-post results. *)
Definition totals (results : list counts) : counts :=
  (foldr Z.add 0 ((fun c => fst (fst c)) <$> results),
   foldr Z.add 0 ((fun c => snd (fst c)) <$> results),
   foldr Z.add 0 (snd <$> results)).

(** The errors the item method lets through: connection failures and
    the two disk errors. *)
Definition fatal_for_item (e : exn) : bool :=
  is_ConnectionException e || errno_is e ENOSPC || errno_is e EACCES.

(** The entry of failed_downloads.yaml for a URL that was never
    attempted. *)
Definition never_attempted (timestamp url : string) : FailureRecord :=
  mkFailureRecord url "None" timestamp.

(** Two keys that [sorted] can compare: two strings, or two numbers. *)
Definition same_kind (k1 k2 : pykey) : bool :=
  match k1, k2 with
  | KStr _, KStr _ | KInt _, KInt _ | KNone, KNone => true
  | _, _ => false
  end.

(** The ledger keys of a list of posts. *)
Definition keys_of (posts : list Post) : gset pykey :=
  list_to_set ((fun post => KStr (shortcode post)) <$> posts).

(** The error [_create_output_directory] raises when making the
    directory failed with [e]. *)
Definition directory_error (e : exn) : exn :=
  if errno_is e EACCES then OSError None "PermissionError"
  else if errno_is e ENOSPC then OSError None "ENOSPC"
  else e.

(** No count of a result is negative. *)
Definition counted (c : counts) : Prop :=
  0 <= fst (fst c) /\ 0 <= snd (fst c) /\ 0 <= snd c.

(** [keeps m w]: running [m] from [w] respects [frame]. *)
Definition keeps {A} (m : M A) (w : World) : Prop := frame w (snd (m w)).

(** Every step of the thread respects [frame], from whichever world it
    is made. *)
Fixpoint thread_keeps {A} (t : thread A) : Prop :=
  match t with
  | Finished _ => True
  | Step next effect =>
      (forall w, frame w (effect w)) /\ (forall w, thread_keeps (next w))
  end.

(** The tasks of the pool that have not completed all respect
    [frame]. *)
Definition pool_keeps {T A S} (p : pool T A S) : Prop :=
  Forall (fun task => thread_keeps (snd task)) (pending p) /\
  Forall (fun task => thread_keeps (snd task)) (running p).

(** A result that, when it is a value, satisfies [P]. *)
Definition returns_ok {A} (P : A -> Prop) (r : res A) : Prop :=
  match r with
  | Ok a => P a
  | Raise _ => True
  end.

(** Whenever the thread returns, what it returns satisfies [P]. *)
Fixpoint thread_returns {A} (P : A -> Prop) (t : thread A) : Prop :=
  match t with
  | Finished r => returns_ok P r
  | Step next _ => forall w, thread_returns P (next w)
  end.

(** The tasks of the pool return values that satisfy [P], the futures
    completed hold such values, and the caller's locals satisfy [Q]. *)
Definition pool_returns {T A S} (P : A -> Prop) (Q : S -> Prop)
    (p : pool T A S) : Prop :=
  Forall (fun task => thread_returns P (snd task)) (pending p) /\
  Forall (fun task => thread_returns P (snd task)) (running p) /\
  Forall (fun future => returns_ok P (snd future)) (completed p) /\
  Q (locals p).

(** * Proofs *)

(** ** The monad *)

Lemma call_advance {A} (api arg : string) (f : Oracle A) (w : World) :
  call api arg f w =
  (match fst (f (remote w)) with inl e => Raise e | inr a => Ok a end,
   advance (snd (f (remote w))) [EvCall api arg] w).
Proof.
  unfold call, advance, add_event, set_remote; simpl.
  destruct (f (remote w)) as [[e | a] r]; reflexivity.
Qed.

Lemma advance_advance (r1 r2 : R) (t1 t2 : list event) (w : World) :
  advance r2 t2 (advance r1 t1 w) = advance r2 (t1 ++ t2) w.
Proof. unfold advance; simpl. by rewrite <- app_assoc. Qed.

Lemma add_event_advance (ev : event) (r : R) (t : list event) (w : World) :
  add_event ev (advance r t w) = advance r (t ++ [ev]) w.
Proof. unfold advance, add_event; simpl. by rewrite <- app_assoc. Qed.

Lemma advance_nil (w : World) : advance (remote w) [] w = w.
Proof. destruct w; unfold advance; simpl. by rewrite app_nil_r. Qed.

Lemma outcomes_snoc {A} (f : Oracle A) (n : nat) (r : R) :
  outcomes f (S n) r = outcomes f n r ++ [fst (f (after f n r))].
Proof.
  revert r; induction n as [| n IH]; intros r; [reflexivity |].
  change (outcomes f (S (S n)) r) with (fst (f r) :: outcomes f (S n) (snd (f r))).
  rewrite IH. reflexivity.
Qed.

Lemma after_snoc {A} (f : Oracle A) (n : nat) (r : R) :
  after f (S n) r = snd (f (after f n r)).
Proof.
  revert r; induction n as [| n IH]; intros r; [reflexivity |].
  change (after f (S (S n)) r) with (after f (S n) (snd (f r))).
  rewrite IH. reflexivity.
Qed.

(** ** _retry_on_connection_error *)

(** [k] connection failures in a row, none of them on the last permitted
    attempt, leave the loop where it would start [k] attempts later. *)
Lemma retry_loop_failures {A} (api arg : string) (f : Oracle A) (max_retries : Z) :
  forall (k i n : nat) (last_error : option exn) (w : World),
    Z.of_nat i + Z.of_nat k <= max_retries - 1 ->
    (k <= n)%nat ->
    Forall (fun o => connection_failure o = true) (outcomes f k (remote w)) ->
    exists last_error',
      retry_loop (call api arg f) max_retries (map Z.of_nat (seq i n)) last_error w =
      retry_loop (call api arg f) max_retries
        (map Z.of_nat (seq (i + k) (n - k))) last_error'
        (advance (after f k (remote w)) (retried api arg (Z.of_nat i) k) w).
Proof.
  induction k as [| k IH]; intros i n last_error w Hi Hn Hall.
  - exists last_error. simpl. rewrite advance_nil.
    replace (i + 0)%nat with i by lia. replace (n - 0)%nat with n by lia.
    reflexivity.
  - destruct n as [| n]; [lia |].
    simpl in Hall. apply Forall_cons in Hall as [Ho Hall].
    destruct (IH (S i) n (match fst (f (remote w)) with
                          | inl e => Some e | inr _ => None end)
                 (advance (snd (f (remote w)))
                          [EvCall api arg; EvSleep (Z.of_nat i + 1)] w))
      as [last' Heq]; [lia | lia | exact Hall |].
    exists last'.
    simpl seq. simpl map. simpl retry_loop.
    unfold try_except at 1, bind at 1. rewrite call_advance.
    destruct (fst (f (remote w))) as [e | a] eqn:Hf; simpl in Ho; [| discriminate].
    rewrite Ho.
    assert (Hlt : (Z.of_nat i <? max_retries - 1) = true) by (apply Z.ltb_lt; lia).
    rewrite Hlt. unfold bind at 1, sleep, log, modify.
    rewrite add_event_advance. simpl app.
    rewrite Heq. simpl remote. rewrite advance_advance.
    replace (S i + k)%nat with (i + S k)%nat by lia.
    replace (Z.of_nat (S i)) with (Z.of_nat i + 1) by lia.
    reflexivity.
Qed.

(** The attempt that settles the wrapper: the first outcome that is not
    a connection failure, or the outcome of the last permitted attempt. *)
Lemma retry_settles {A} (api arg : string) (f : Oracle A) (max_retries : Z)
    (k : nat) (w : World) :
  (k < Z.to_nat max_retries)%nat ->
  Forall (fun o => connection_failure o = true) (outcomes f k (remote w)) ->
  connection_failure (fst (f (after f k (remote w)))) = false
  \/ S k = Z.to_nat max_retries ->
  _retry_on_connection_error (call api arg f) max_retries w =
  (settled (fst (f (after f k (remote w)))),
   advance (after f (S k) (remote w))
           (retried api arg 0 k ++ [EvCall api arg]) w).
Proof.
  intros Hk Hall Hsettle. unfold _retry_on_connection_error, range.
  destruct (retry_loop_failures api arg f max_retries k 0 (Z.to_nat max_retries)
              None w) as [last' Heq]; [lia | lia | exact Hall |].
  rewrite Heq. simpl Z.of_nat. simpl (0 + k)%nat.
  destruct (Z.to_nat max_retries - k)%nat as [| m] eqn:Hm; [lia |].
  simpl seq. simpl map. simpl retry_loop.
  unfold try_except at 1, bind at 1. rewrite call_advance. simpl remote.
  rewrite advance_advance, after_snoc.
  destruct (fst (f (after f k (remote w)))) as [e | a] eqn:Hf; simpl.
  - destruct (is_ConnectionException e) eqn:He.
    + destruct Hsettle as [Hne | Hlast];
        [simpl in Hne; congruence |].
      assert (Hge : (Z.of_nat k <? max_retries - 1) = false)
        by (apply Z.ltb_ge; lia).
      rewrite Hge. reflexivity.
    + reflexivity.
  - reflexivity.
Qed.

Lemma sleeps_app (t1 t2 : list event) : sleeps (t1 ++ t2) = sleeps t1 ++ sleeps t2.
Proof.
  induction t1 as [| ev t1 IH]; [reflexivity |].
  destruct ev; simpl; rewrite ?IH; reflexivity.
Qed.

Lemma count_calls_app (t1 t2 : list event) :
  count_calls (t1 ++ t2) = (count_calls t1 + count_calls t2)%nat.
Proof.
  induction t1 as [| ev t1 IH]; [reflexivity |].
  destruct ev; simpl; rewrite ?IH; reflexivity.
Qed.

Lemma sleeps_retried (api arg : string) (k : nat) :
  forall attempt : Z,
    sleeps (retried api arg attempt k) =
    map (fun i => attempt + Z.of_nat i + 1) (seq 0 k).
Proof.
  induction k as [| k IH]; intros attempt; [reflexivity |].
  simpl. rewrite IH. f_equal; [lia |].
  rewrite <- seq_shift, map_map. apply map_ext. intros i. lia.
Qed.

Lemma count_calls_retried (api arg : string) (k : nat) :
  forall attempt : Z, count_calls (retried api arg attempt k) = k.
Proof.
  induction k as [| k IH]; intros attempt; [reflexivity |].
  simpl. by rewrite IH.
Qed.

Lemma classify_retryable (e : exn) :
  classify e = Retryable <-> is_ConnectionException e = true.
Proof.
  destruct e as [m | m | m | [n |] m | m | m | m | m | c m]; unfold classify; simpl;
    try (split; congruence).
  destruct (n =? ENOSPC); [split; congruence |].
  destruct (n =? EACCES); split; congruence.
Qed.

(** C3. For every [max_retries >= 1]: when every attempt of the wrapped
    call fails with a connection error, [_retry_on_connection_error]
    invokes it exactly [max_retries] times and then raises the error of
    the last attempt; and when attempt [k] (counted from 0, within the
    limit) is the first to succeed, the wrapper returns its result after
    exactly [k + 1] invocations. *)
Theorem retry_attempts_exactly_max_retries {A} (api arg : string)
    (f : Oracle A) (max_retries : Z) (w : World) :
  1 <= max_retries ->
  let n := Z.to_nat max_retries in
  let run := _retry_on_connection_error (call api arg f) max_retries w in
  (Forall (fun o => connection_failure o = true) (outcomes f n (remote w)) ->
   exists e,
     last (outcomes f n (remote w)) = Some (inl e) /\
     run = (Raise e,
            advance (after f n (remote w))
                    (retried api arg 0 (n - 1) ++ [EvCall api arg]) w) /\
     count_calls (events (snd run)) = (count_calls (events w) + n)%nat) /\
  (forall (k : nat) (a : A),
     (k < n)%nat ->
     Forall (fun o => connection_failure o = true) (outcomes f k (remote w)) ->
     fst (f (after f k (remote w))) = inr a ->
     run = (Ok (Some a),
            advance (after f (S k) (remote w))
                    (retried api arg 0 k ++ [EvCall api arg]) w) /\
     count_calls (events (snd run)) = (count_calls (events w) + S k)%nat).
Proof.
  intros Hmax n run. split.
  - intros Hall.
    destruct n as [| m] eqn:Hn; [lia |].
    rewrite outcomes_snoc in Hall. apply Forall_app in Hall as [Hinit Hlast].
    apply Forall_cons in Hlast as [Hlast _].
    destruct (fst (f (after f m (remote w)))) as [e | a] eqn:Hf;
      [| discriminate].
    exists e. rewrite outcomes_snoc, Hf, last_snoc.
    assert (Hrun : run = (Raise e,
              advance (after f (S m) (remote w))
                      (retried api arg 0 m ++ [EvCall api arg]) w)).
    { unfold run.
      rewrite (retry_settles api arg f max_retries m w); [| lia | exact Hinit | right; lia].
      by rewrite Hf. }
    replace (S m - 1)%nat with m by lia.
    split; [reflexivity |]. split; [exact Hrun |].
    rewrite Hrun. simpl. rewrite !count_calls_app, count_calls_retried.
    simpl. lia.
  - intros k a Hk Hall Hf.
    assert (Hrun : run = (Ok (Some a),
              advance (after f (S k) (remote w))
                      (retried api arg 0 k ++ [EvCall api arg]) w)).
    { unfold run.
      rewrite (retry_settles api arg f max_retries k w);
        [| exact Hk | exact Hall | left; by rewrite Hf].
      by rewrite Hf. }
    split; [exact Hrun |].
    rewrite Hrun. simpl. rewrite !count_calls_app, count_calls_retried.
    simpl. lia.
Qed.

(** ** The whole-item retry loop of download_posts_from_urls *)

Lemma url_attempts_failure (download : string -> M DownloadStats) (url : string)
    (max_retries attempt : Z) (rest : list Z) (last_error : option exn)
    (w w' : World) (e : exn) :
  download url w = (Raise e, w') ->
  url_attempts download url max_retries (attempt :: rest) last_error w =
  url_attempts download url max_retries rest (Some e)
    (if attempt <? max_retries - 1
     then add_event (EvSleep ((attempt + 1) * 2)) w' else w').
Proof.
  intros Hd. simpl. unfold bind at 1, try_except at 1, bind at 1.
  rewrite Hd. unfold ret at 1. unfold bind at 1.
  destruct (attempt <? max_retries - 1); reflexivity.
Qed.

Lemma url_attempts_success (download : string -> M DownloadStats) (url : string)
    (max_retries attempt : Z) (rest : list Z) (last_error : option exn)
    (w w' : World) (stats : DownloadStats) :
  download url w = (Ok stats, w') ->
  url_attempts download url max_retries (attempt :: rest) last_error w =
  (Ok (Some stats, last_error), w').
Proof.
  intros Hd. simpl. unfold bind at 1, try_except at 1, bind at 1.
  rewrite Hd. reflexivity.
Qed.

Lemma url_attempts_never_raises (download : string -> M DownloadStats)
    (url : string) (max_retries : Z) (attempts : list Z) :
  forall (last_error : option exn) (w : World) (e : exn),
    fst (url_attempts download url max_retries attempts last_error w) <> Raise e.
Proof.
  induction attempts as [| attempt rest IH]; intros last_error w e; [discriminate |].
  destruct (download url w) as [[stats | e'] w'] eqn:Hd.
  - by rewrite (url_attempts_success _ _ _ _ _ _ _ _ _ Hd).
  - rewrite (url_attempts_failure _ _ _ _ _ _ _ _ _ Hd). apply IH.
Qed.

(** C1, as amended.  The connection retry wrapper retries connection
    failures only: a failure of any other class, on whichever attempt it
    occurs, is raised to the caller at once, with no sleep and no further
    invocation after it.  The whole-item loop of batch-URL mode retries
    after a failure of every class, sleeping while attempts remain, and
    never raises to its caller: a URL whose attempts are exhausted is
    counted as an error and appended to the failure list, and the loop
    goes on with the next URL. *)
Theorem retry_classes_per_profile :
  (forall (A : Type) (api arg : string) (f : Oracle A) (max_retries : Z)
          (k : nat) (w : World) (e : exn),
     (k < Z.to_nat max_retries)%nat ->
     Forall (fun o => connection_failure o = true) (outcomes f k (remote w)) ->
     fst (f (after f k (remote w))) = inl e ->
     classify e <> Retryable ->
     _retry_on_connection_error (call api arg f) max_retries w =
     (Raise e,
      advance (after f (S k) (remote w))
              (retried api arg 0 k ++ [EvCall api arg]) w)) /\
  (forall (download : string -> M DownloadStats) (url : string)
          (max_retries attempt : Z) (rest : list Z) (last_error : option exn)
          (w w' : World) (e : exn),
     download url w = (Raise e, w') ->
     url_attempts download url max_retries (attempt :: rest) last_error w =
     url_attempts download url max_retries rest (Some e)
       (if attempt <? max_retries - 1
        then add_event (EvSleep ((attempt + 1) * 2)) w' else w')) /\
  (forall (download : string -> M DownloadStats) (url : string)
          (max_retries : Z) (attempts : list Z) (last_error : option exn)
          (w : World) (e : exn),
     fst (url_attempts download url max_retries attempts last_error w) <> Raise e) /\
  (forall (download : string -> M DownloadStats) (url : string)
          (rest : list string) (max_retries : Z) (b : Batch)
          (last_error : option exn) (w w' : World),
     url_attempts download url max_retries (range max_retries) None w
       = (Ok (None, last_error), w') ->
     urls_loop download (url :: rest) max_retries b w =
     urls_loop download rest max_retries
       (mkBatch (batch_images b) (batch_videos b) (batch_skipped b)
          (batch_errors b + 1)
          (batch_failed_urls b ++
             [mkFailureRecord url
                (match last_error with Some e => exn_str e | None => "None" end)
                (isoformat provider (now provider (remote w')))])) w').
Proof.
  split; [| split; [| split]].
  - intros A api arg f max_retries k w e Hk Hall Hf Hclass.
    rewrite (retry_settles api arg f max_retries k w); [| exact Hk | exact Hall |].
    + by rewrite Hf.
    + left. rewrite Hf. simpl.
      destruct (is_ConnectionException e) eqn:He; [| reflexivity].
      by apply classify_retryable in He.
  - intros. by apply url_attempts_failure.
  - intros. apply url_attempts_never_raises.
  - intros download url rest max_retries b last_error w w' Hexhausted.
    simpl. unfold bind at 1. rewrite Hexhausted. reflexivity.
Qed.

(** C2, as amended.  With [max_retries = 3] and every attempt failing,
    the connection retry wrapper makes 3 invocations and sleeps 1s then
    2s, and the whole-item loop makes 3 attempts and sleeps 2s then 4s:
    the sleep after attempt [i] (from 0) lasts [i + 1], respectively
    [2 * (i + 1)], seconds, and none follows the last attempt. *)
Theorem backoff_schedules :
  (forall (A : Type) (api arg : string) (f : Oracle A) (w : World),
     Forall (fun o => connection_failure o = true) (outcomes f 3 (remote w)) ->
     let run := _retry_on_connection_error (call api arg f) 3 w in
     events (snd run) =
       events w ++ [EvCall api arg; EvSleep 1; EvCall api arg; EvSleep 2;
                    EvCall api arg] /\
     sleeps (events (snd run)) = sleeps (events w) ++ [1; 2]) /\
  (forall (download : string -> M DownloadStats) (url : string)
          (w w1 w2 w3 : World) (e1 e2 e3 : exn),
     download url w = (Raise e1, w1) ->
     download url (add_event (EvSleep 2) w1) = (Raise e2, w2) ->
     download url (add_event (EvSleep 4) w2) = (Raise e3, w3) ->
     url_attempts download url 3 (range 3) None w = (Ok (None, Some e3), w3)).
Proof.
  split.
  - intros A api arg f w Hall run.
    assert (Hrun : events (snd run) =
              events w ++ [EvCall api arg; EvSleep 1; EvCall api arg; EvSleep 2;
                           EvCall api arg]).
    { unfold run.
      change 3%nat with (S 2) in Hall. rewrite outcomes_snoc in Hall.
      apply Forall_app in Hall as [Hinit _].
      rewrite (retry_settles api arg f 3 2 w);
        [reflexivity | simpl; lia | exact Hinit | right; reflexivity]. }
    split; [exact Hrun |]. rewrite Hrun, sleeps_app. reflexivity.
  - intros download url w w1 w2 w3 e1 e2 e3 H1 H2 H3.
    change (range 3) with [0; 1; 2].
    rewrite (url_attempts_failure _ _ _ _ _ _ _ _ _ H1). simpl Z.ltb. cbv iota.
    rewrite (url_attempts_failure _ _ _ _ _ _ _ _ _ H2). simpl Z.ltb. cbv iota.
    rewrite (url_attempts_failure _ _ _ _ _ _ _ _ _ H3). reflexivity.
Qed.

(** ** The progress ledger *)

Lemma set_of_items_strings (ss : list string) :
  set_of_items (JStr <$> ss) = inr (list_to_set (KStr <$> ss)).
Proof.
  induction ss as [| x ss IH]; [reflexivity |].
  rewrite !fmap_cons. cbn [set_of_items hashable]. rewrite IH. reflexivity.
Qed.

(** Loading raises the error of the existence test, if there is one;
    otherwise it returns, with the set the file stands for.  It only
    adds its own event to the trace. *)
Lemma load_progress_run (user : string) (w : World) :
  _load_progress user w =
  (match stat_error (progress_file w user) with
   | Some e => Raise e
   | None => Ok (ledger_of_file (progress_file w user))
   end, add_event (EvLoad user) w).
Proof.
  unfold _load_progress, progress_file, stat_error, bind, log, modify, get_world.
  simpl.
  change (progress_path (add_event (EvLoad user) w) user)
    with (progress_path w user).
  destruct (progress_files w !! progress_path w user) as [[n | | | v | n] |];
    try reflexivity.
  2:{ simpl. by destruct (ignored_errno n). }
  unfold try_except, bind, read_json, ret. simpl.
  destruct v as [| b | n | x | items | fields]; try reflexivity.
  unfold ledger_of_file, dict_get. simpl.
  destruct (py_set match fields_get fields "downloaded_posts" with
                   | Some v => v
                   | None => JArr []
                   end) as [e1 | s1]; simpl.
  - destruct (is_JSONDecodeError e1), (is_OSError e1); reflexivity.
  - destruct (py_set match fields_get fields "downloaded_reels" with
                     | Some v => v
                     | None => JArr []
                     end) as [e2 | s2]; simpl; [| reflexivity].
    destruct (is_JSONDecodeError e2), (is_OSError e2); reflexivity.
Qed.

(** Once the existence test has returned, [_load_progress] returns.  It
    returns the empty set when the progress file is absent, when
    reading it fails, when its content is not JSON (empty, truncated,
    invalid) or not UTF-8, and when the JSON value is not an object;
    for a ledger whose two arrays hold strings it returns the keys
    recorded there. *)
Lemma load_progress_falls_back (user : string) (w : World) :
  stat_error (progress_file w user) = None ->
  exists s : gset pykey,
    _load_progress user w = (Ok s, add_event (EvLoad user) w) /\
    (progress_file w user = None -> s = ∅) /\
    (forall n, progress_file w user = Some (FUnreadable n) -> s = ∅) /\
    (forall n, progress_file w user = Some (FNoStat n) -> s = ∅) /\
    (progress_file w user = Some FNotJson -> s = ∅) /\
    (progress_file w user = Some FBadEncoding -> s = ∅) /\
    (forall v, progress_file w user = Some (FJson v) ->
               is_dict v = false -> s = ∅) /\
    (forall fields ps rs,
       progress_file w user = Some (FJson (JObj fields)) ->
       fields_get fields "downloaded_posts" = Some (JArr (JStr <$> ps)) ->
       fields_get fields "downloaded_reels" = Some (JArr (JStr <$> rs)) ->
       s = list_to_set (KStr <$> ps) ∪ list_to_set (KStr <$> rs)).
Proof.
  intros Hstat. exists (ledger_of_file (progress_file w user)).
  split; [by rewrite load_progress_run, Hstat |].
  repeat split.
  - by intros ->.
  - by intros n ->.
  - by intros n ->.
  - by intros ->.
  - by intros ->.
  - intros v -> Hv. by destruct v.
  - intros fields ps rs -> Hp Hr. unfold ledger_of_file, dict_get.
    rewrite Hp, Hr. simpl. by rewrite !set_of_items_strings.
Qed.

(** The error of the existence test leaves [_load_progress]: the test
    is made before the [try]. *)
Lemma load_progress_stat_error (user : string) (w : World) (n : Z) :
  progress_file w user = Some (FNoStat n) ->
  ignored_errno n = false ->
  _load_progress user w
  = (Raise (OSError (Some n) "stat"), add_event (EvLoad user) w).
Proof.
  intros Hfile Hn. rewrite load_progress_run, Hfile.
  unfold stat_error, Path_exists. by rewrite Hn.
Qed.

(** Saving always returns: every failure inside is swallowed. *)
Lemma save_progress_run (user : string) (posts : gset pykey) (w : World) :
  _save_progress user posts w = (Ok tt, world_after_save user posts w).
Proof.
  unfold _save_progress, world_after_save, file_after_save.
  unfold bind, log, modify, get_world, try_except. simpl.
  change (progress_path (add_event (EvPersist user) w) user)
    with (progress_path w user).
  destruct (write_modes w (progress_path w user)) as [| n | n]; simpl.
  - destruct (py_sorted (elements posts)) as [e | l]; simpl; [| reflexivity].
    destruct (is_IOError e); reflexivity.
  - reflexivity.
  - destruct (py_sorted (elements posts)) as [e | l]; simpl; [| reflexivity].
    destruct (is_IOError e); reflexivity.
Qed.

Lemma mapM_key_str (l : list pykey) (ss : list string) :
  mapM key_str l = Some ss -> l = KStr <$> ss.
Proof.
  rewrite mapM_Some. induction 1 as [| k x l ss Hk _ IH]; [reflexivity |].
  destruct k; simplify_eq/=; done.
Qed.

Lemma mapM_key_int (l : list pykey) (ns : list Z) :
  mapM key_int l = Some ns -> l = KInt <$> ns.
Proof.
  rewrite mapM_Some. induction 1 as [| k x l ns Hk _ IH]; [reflexivity |].
  destruct k; simplify_eq/=; done.
Qed.

Lemma py_sorted_Permutation (l l' : list pykey) :
  py_sorted l = inr l' -> l' ≡ₚ l.
Proof.
  unfold py_sorted. destruct l as [| k1 [| k2 l]]; [by intros [= <-] .. |].
  destruct (mapM key_str (k1 :: k2 :: l)) as [ss |] eqn:Hs.
  - intros [= <-]. rewrite (mapM_key_str _ _ Hs).
    apply fmap_Permutation, merge_sort_Permutation.
  - destruct (mapM key_int (k1 :: k2 :: l)) as [ns |] eqn:Hn; [| discriminate].
    intros [= <-]. rewrite (mapM_key_int _ _ Hn).
    apply fmap_Permutation, merge_sort_Permutation.
Qed.

Lemma py_sorted_strings (l : list pykey) :
  Forall (fun k => exists s, k = KStr s) l -> exists l', py_sorted l = inr l'.
Proof.
  intros Hall. unfold py_sorted. destruct l as [| k1 [| k2 l]]; [by eexists .. |].
  assert (Hs : exists ss, mapM key_str (k1 :: k2 :: l) = Some ss).
  { induction Hall as [| k l' [x ->] _ [ss IH]]; [by exists [] |].
    exists (x :: ss). rewrite mapM_Some in *. by constructor. }
  destruct Hs as [ss ->]. by eexists.
Qed.

Lemma set_of_items_keys (l : list pykey) :
  set_of_items (key_json <$> l) = inr (list_to_set l).
Proof.
  induction l as [| k l IH]; [reflexivity |].
  rewrite fmap_cons. cbn [set_of_items]. rewrite IH. by destruct k.
Qed.

Lemma ledger_of_progress_data (user ts : string) (l : list pykey) :
  ledger_of_file (Some (FJson (progress_data user ts l))) = list_to_set l.
Proof.
  unfold ledger_of_file, progress_data, dict_get. cbn [fields_get String.eqb].
  simpl. rewrite set_of_items_keys. apply union_empty_r_L.
Qed.

(** C8. The loader's completed-key set is the union of the array
    "downloaded_posts" and the array "downloaded_reels" of the file, an
    absent array counting as empty.  The writer never raises; whatever
    document it writes has "downloaded_reels" empty and lists in
    "downloaded_posts" exactly the keys of the current set; it writes
    that document whenever the file is writable and the keys are
    strings, and loading it gives the set back. *)
Theorem ledger_file_union_and_writer :
  (forall (user : string) (w : World) (fields : list (string * json))
          (ps rs : list string),
     progress_file w user = Some (FJson (JObj fields)) ->
     dict_get (JObj fields) "downloaded_posts" (JArr []) = JArr (JStr <$> ps) ->
     dict_get (JObj fields) "downloaded_reels" (JArr []) = JArr (JStr <$> rs) ->
     fst (_load_progress user w) =
     Ok (list_to_set (KStr <$> ps) ∪ list_to_set (KStr <$> rs))) /\
  (forall (user : string) (posts : gset pykey) (w : World),
     let run := _save_progress user posts w in
     fst run = Ok tt /\
     (progress_files (snd run) = progress_files w \/
      progress_files (snd run)
        = <[progress_path w user := FNotJson]> (progress_files w) \/
      exists (ts : string) (l : list pykey),
        progress_files (snd run) =
          <[progress_path w user := FJson (progress_data user ts l)]>
            (progress_files w) /\
        list_to_set l = posts /\
        dict_get (progress_data user ts l) "downloaded_posts" JNull
          = JArr (key_json <$> l) /\
        dict_get (progress_data user ts l) "downloaded_reels" JNull = JArr [])) /\
  (forall (user : string) (posts : gset pykey) (w : World),
     write_modes w (progress_path w user) = WriteOk ->
     (forall k, k ∈ posts -> exists s, k = KStr s) ->
     let run := _save_progress user posts w in
     (exists (ts : string) (l : list pykey),
        progress_file (snd run) user = Some (FJson (progress_data user ts l)) /\
        list_to_set l = posts) /\
     fst (_load_progress user (snd run)) = Ok posts).
Proof.
  split; [| split].
  - intros user w fields ps rs Hfile Hp Hr.
    rewrite load_progress_run. simpl. rewrite Hfile. unfold ledger_of_file.
    rewrite Hp, Hr. simpl. by rewrite !set_of_items_strings.
  - intros user posts w run. unfold run. rewrite save_progress_run.
    split; [reflexivity |]. simpl.
    unfold world_after_save, file_after_save.
    destruct (write_modes w (progress_path w user)) as [| n | n];
      destruct (py_sorted (elements posts)) as [e | l] eqn:Hsort; simpl; auto.
    right; right. eexists _, l. split; [reflexivity |].
    split; [| split; reflexivity].
    apply py_sorted_Permutation in Hsort.
    apply set_eq. intros k. rewrite elem_of_list_to_set, Hsort. apply elem_of_elements.
  - intros user posts w Hmode Hstr run.
    destruct (py_sorted_strings (elements posts)) as [l Hsort].
    { apply Forall_forall. intros k Hk. apply Hstr. by apply elem_of_elements. }
    assert (Hl : list_to_set l = posts).
    { apply py_sorted_Permutation in Hsort.
      apply set_eq. intros k. rewrite elem_of_list_to_set, Hsort. apply elem_of_elements. }
    assert (Hfile : progress_file (snd run) user =
              Some (FJson (progress_data user
                             (isoformat provider (now provider (remote w))) l))).
    { unfold run. rewrite save_progress_run. simpl.
      unfold progress_file, world_after_save, file_after_save.
      rewrite Hmode, Hsort. simpl. apply lookup_insert_eq. }
    split; [by eexists _, l |].
    rewrite load_progress_run. simpl. rewrite Hfile.
    by rewrite ledger_of_progress_data, Hl.
Qed.

(** ** What the methods leave alone *)

Lemma frame_refl (w : World) : frame w w.
Proof. unfold frame. repeat split; reflexivity. Qed.

Lemma frame_trans (w1 w2 w3 : World) : frame w1 w2 -> frame w2 w3 -> frame w1 w3.
Proof.
  unfold frame. intros (Hm & Hr & Ho & H12) (Hm' & Hr' & Ho' & H23).
  repeat split; try congruence;
    destruct (H12 H) as (? & ? & ?);
    destruct H23 as (? & ? & ?); congruence.
Qed.

Lemma ledger_events_app (t1 t2 : list event) :
  ledger_events (t1 ++ t2) = ledger_events t1 ++ ledger_events t2.
Proof.
  induction t1 as [| ev t1 IH]; [reflexivity |].
  destruct ev; simpl; rewrite ?IH; reflexivity.
Qed.

Lemma frame_advance (r : R) (tr : list event) (w : World) :
  ledger_events tr = [] -> frame w (advance r tr w).
Proof.
  intros Htr. unfold frame, advance; simpl. repeat split.
  by rewrite ledger_events_app, Htr, app_nil_r.
Qed.

Lemma frame_resume_on (w w' : World) :
  resume w = true ->
  max_workers w' = max_workers w -> resume w' = resume w ->
  output_dir w' = output_dir w -> frame w w'.
Proof. intros Hon ? ? ?. unfold frame. repeat split; auto; congruence. Qed.

Lemma keeps_ret {A} (a : A) (w : World) : keeps (ret a) w.
Proof. apply frame_refl. Qed.

Lemma keeps_raise {A} (e : exn) (w : World) : keeps (@raise A e) w.
Proof. apply frame_refl. Qed.

Lemma keeps_bind {A B} (m : M A) (k : A -> M B) (w : World) :
  keeps m w ->
  (forall a, fst (m w) = Ok a -> keeps (k a) (snd (m w))) ->
  keeps (bind m k) w.
Proof.
  unfold keeps, bind. intros Hm Hk.
  destruct (m w) as [[a | e] w1]; simpl in *; auto.
  eapply frame_trans; [exact Hm | by apply Hk].
Qed.

Lemma keeps_get {B} (k : World -> M B) (w : World) :
  keeps (k w) w -> keeps (bind get_world k) w.
Proof. intros Hk. apply keeps_bind; [apply frame_refl |]. by intros a [= <-]. Qed.

Lemma keeps_try_except {A} (m : M A) (h : exn -> M A) (w : World) :
  keeps m w ->
  (forall e, fst (m w) = Raise e -> keeps (h e) (snd (m w))) ->
  keeps (try_except m h) w.
Proof.
  unfold keeps, try_except. intros Hm Hh.
  destruct (m w) as [[a | e] w1]; simpl in *; auto.
  eapply frame_trans; [exact Hm | by apply Hh].
Qed.

Lemma keeps_sleep (seconds : Z) (w : World) : keeps (sleep seconds) w.
Proof.
  unfold keeps, sleep, log, modify; simpl.
  rewrite <- (advance_nil w) at 2. rewrite add_event_advance.
  by apply frame_advance.
Qed.

Lemma keeps_attempt (url : string) (w : World) : keeps (log (EvAttempt url)) w.
Proof.
  unfold keeps, log, modify; simpl.
  rewrite <- (advance_nil w) at 2. rewrite add_event_advance.
  by apply frame_advance.
Qed.

Lemma keeps_call {A} (api arg : string) (f : Oracle A) (w : World) :
  keeps (call api arg f) w.
Proof. unfold keeps. rewrite call_advance. by apply frame_advance. Qed.

Lemma keeps_outside {A} (f : Oracle A) (w : World) : keeps (outside f) w.
Proof.
  unfold keeps, outside.
  destruct (f (remote w)) as [[e | a] r]; simpl;
    (replace (set_remote r w) with (advance r [] w)
       by (unfold advance, set_remote; by rewrite app_nil_r));
    by apply frame_advance.
Qed.

Lemma keeps_load_progress (user : string) (w : World) :
  resume w = true -> keeps (_load_progress user) w.
Proof.
  intros Hon. unfold keeps. rewrite load_progress_run.
  by apply frame_resume_on.
Qed.

Lemma keeps_save_progress (user : string) (posts : gset pykey) (w : World) :
  resume w = true -> keeps (_save_progress user posts) w.
Proof.
  intros Hon. unfold keeps. rewrite save_progress_run.
  unfold world_after_save. apply frame_resume_on; [exact Hon | ..];
    by destruct (file_after_save user posts w).
Qed.

Lemma keeps_record_downloaded (post : Post) (user : string) (w : World) :
  resume w = true -> keeps (record_downloaded post user) w.
Proof.
  intros Hon. unfold record_downloaded.
  apply keeps_get. apply keeps_bind.
  - by apply frame_resume_on.
  - intros [] _. apply keeps_get. by apply keeps_save_progress.
Qed.

Create HintDb keeps.

#[local] Hint Resolve keeps_ret keeps_raise keeps_sleep
  keeps_attempt keeps_call keeps_outside keeps_record_downloaded : keeps.

Ltac keeps_step :=
  match goal with
  | |- keeps (bind get_world _) _ => apply keeps_get
  | |- keeps (bind _ _) _ => apply keeps_bind; [| intros ? ?]
  | |- keeps (try_except _ _) _ => apply keeps_try_except; [| intros ? ?]
  | |- keeps (if ?b then _ else _) _ => destruct b eqn:?
  | |- keeps (match ?x with _ => _ end) _ => destruct x eqn:?
  | |- keeps _ _ => solve [auto with keeps]
  end.

Ltac keeps_auto := repeat keeps_step.

Lemma keeps_retry_loop {A} (func : M A) (max_retries : Z) (attempts : list Z) :
  (forall w, keeps func w) ->
  forall (last_error : option exn) (w : World),
    keeps (retry_loop func max_retries attempts last_error) w.
Proof.
  intros Hf. induction attempts as [| attempt rest IH]; intros last_error w;
    simpl; keeps_auto.
Qed.

Lemma keeps_retrying {A} (api arg : string) (f : Oracle A) (w : World) :
  keeps (retrying api arg f) w.
Proof.
  unfold retrying, _retry_on_connection_error. keeps_auto.
  apply keeps_retry_loop. intros w'. apply keeps_call.
Qed.

#[local] Hint Resolve keeps_retrying : keeps.

Lemma keeps_download_post (post : Post) (user : string) (w : World) :
  keeps (_download_post post user) w.
Proof. unfold _download_post. keeps_auto. Qed.

#[local] Hint Resolve keeps_download_post : keeps.

Lemma keeps_sequential_loop (download : Post -> string -> M counts)
    (user : string) (posts : list Post) :
  (forall post w, keeps (download post user) w) ->
  forall (results : list counts) (w : World),
    keeps (sequential_loop download posts user results) w.
Proof.
  intros Hd. induction posts as [| post rest IH]; intros results w;
    simpl; keeps_auto.
Qed.

(** *** Threads and pools *)

Lemma thread_keeps_atomic {A} (m : M A) :
  (forall w, keeps m w) -> thread_keeps (atomic m).
Proof. intros Hm. split; [exact Hm | done]. Qed.

Lemma thread_keeps_tbind {A B} (t : thread A) (k : A -> thread B) :
  thread_keeps t -> (forall a, thread_keeps (k a)) -> thread_keeps (tbind t k).
Proof.
  intros Ht Hk. induction t as [[a | e] | next IH effect]; simpl; auto.
  destruct Ht as [Heffect Hnext]. split; auto.
Qed.

Lemma thread_keeps_ttry {A} (t : thread A) (handler : exn -> thread A) :
  thread_keeps t -> (forall e, thread_keeps (handler e)) ->
  thread_keeps (ttry t handler).
Proof.
  intros Ht Hh. induction t as [[a | e] | next IH effect]; simpl; auto.
  destruct Ht as [Heffect Hnext]. split; auto.
Qed.

Lemma run_thread_keeps {A} (t : thread A) :
  thread_keeps t -> forall w, frame w (snd (run_thread t w)).
Proof.
  induction t as [r | next IH effect]; simpl; intros Ht w; [apply frame_refl |].
  destruct Ht as [Heffect Hnext].
  eapply frame_trans; [apply Heffect | by apply IH].
Qed.

(** A task run with no other thread in between is the method. *)
Lemma run_thread_atomic {A} (m : M A) (w : World) :
  run_thread (atomic m) w = m w.
Proof. simpl. by destruct (m w). Qed.

Lemma run_thread_tbind {A B} (t : thread A) (k : A -> thread B) :
  forall w,
    run_thread (tbind t k) w
    = bind (run_thread t) (fun a => run_thread (k a)) w.
Proof.
  induction t as [[a | e] | next IH effect]; intros w; try reflexivity.
  simpl. rewrite IH. reflexivity.
Qed.

Lemma run_thread_ttry {A} (t : thread A) (handler : exn -> thread A) :
  forall w,
    run_thread (ttry t handler) w
    = try_except (run_thread t) (fun e => run_thread (handler e)) w.
Proof.
  induction t as [[a | e] | next IH effect]; intros w; try reflexivity.
  simpl. rewrite IH. reflexivity.
Qed.

Lemma run_download_post_task (post : Post) (user : string) (w : World) :
  run_thread (_download_post_task post user) w = _download_post post user w.
Proof.
  unfold _download_post_task, _download_post.
  rewrite run_thread_ttry. unfold try_except.
  rewrite run_thread_tbind.
  unfold bind at 1. rewrite run_thread_atomic.
  unfold bind at 1 2 4, get_world, ret.
  destruct (resume w && _is_already_downloaded w (shortcode post));
    [reflexivity |].
  rewrite run_thread_tbind. unfold bind at 1. rewrite run_thread_atomic.
  unfold bind at 1.
  destruct (glob provider user "posts" (shortcode post) (remote w))
    as [| file files]; cbn [is_empty negb]; [| reflexivity].
  rewrite run_thread_tbind. unfold bind at 1 2. rewrite run_thread_atomic.
  destruct (call "download_post" (shortcode post)
              (loader_download_post provider "posts" post user) w)
    as [[[] | e] w1].
  - destruct (media_counts post) as [images_count videos_count].
    rewrite run_thread_tbind. unfold bind. rewrite run_thread_atomic.
    destruct (resume w1); [| reflexivity].
    destruct (record_downloaded post user w1) as [[[] | e] w2];
      [reflexivity |].
    by repeat match goal with
              | |- context [if ?b then _ else _] => destruct b
              end.
  - by repeat match goal with
              | |- context [if ?b then _ else _] => destruct b
              end.
Qed.

Lemma retry_loop_ext {A} (f g : M A) (max_retries : Z) (attempts : list Z) :
  (forall w, f w = g w) ->
  forall (last_error : option exn) (w : World),
    retry_loop f max_retries attempts last_error w
    = retry_loop g max_retries attempts last_error w.
Proof.
  intros Hfg. induction attempts as [| attempt rest IH]; intros last_error w;
    [reflexivity |].
  cbn [retry_loop]. unfold try_except, bind. rewrite Hfg.
  destruct (g w) as [[a | e] w1]; [reflexivity |].
  destruct (is_ConnectionException e); [| reflexivity].
  destruct (attempt <? max_retries - 1); [| reflexivity].
  unfold bind. destruct (sleep (attempt + 1) w1) as [[[] | e'] w2];
    [apply IH | reflexivity].
Qed.

Lemma run_retry_loop_task {A} (func : thread A) (max_retries : Z)
    (attempts : list Z) :
  forall (last_error : option exn) (w : World),
    run_thread (retry_loop_task func max_retries attempts last_error) w
    = retry_loop (run_thread func) max_retries attempts last_error w.
Proof.
  induction attempts as [| attempt rest IH]; intros last_error w.
  - by destruct last_error.
  - cbn [retry_loop_task retry_loop]. rewrite run_thread_ttry.
    unfold try_except. rewrite run_thread_tbind. unfold bind.
    destruct (run_thread func w) as [[a | e] w1]; [reflexivity |].
    destruct (is_ConnectionException e); [| reflexivity].
    destruct (attempt <? max_retries - 1); [| reflexivity].
    rewrite run_thread_tbind. unfold bind. rewrite run_thread_atomic.
    destruct (sleep (attempt + 1) w1) as [[[] | e'] w2];
      [apply IH | reflexivity].
Qed.

Lemma run_retrying_task {A} (api arg : string) (f : Oracle A) (w : World) :
  run_thread (retrying_task api arg f) w = retrying api arg f w.
Proof.
  unfold retrying_task, retrying, _retry_on_connection_error.
  rewrite run_thread_tbind. unfold bind. rewrite run_retry_loop_task.
  rewrite (retry_loop_ext _ (call api arg f));
    [| intros w0; apply run_thread_atomic].
  destruct (retry_loop (call api arg f) 3 (range 3) None w) as [[[a |] | e] w1];
    reflexivity.
Qed.

Lemma bind_ext {A B} (m1 m2 : M A) (k1 k2 : A -> M B) (w : World) :
  m1 w = m2 w -> (forall a w', k1 a w' = k2 a w') ->
  bind m1 k1 w = bind m2 k2 w.
Proof.
  intros Hm Hk. unfold bind. rewrite Hm.
  destruct (m2 w) as [[a | e] w']; [apply Hk | reflexivity].
Qed.

Lemma run_download_post_from_url_task (url : string) (w : World) :
  run_thread (download_post_from_url_task url) w = download_post_from_url url w.
Proof.
  unfold download_post_from_url_task, download_post_from_url.
  rewrite run_thread_tbind.
  apply bind_ext; [apply run_thread_atomic | intros [] w1].
  rewrite run_thread_tbind.
  apply bind_ext; [apply run_thread_atomic | intros code w2].
  unfold download_post_from_shortcode_task, download_post_from_shortcode.
  rewrite run_thread_tbind.
  apply bind_ext; [apply run_thread_atomic | intros w0 w3].
  rewrite run_thread_tbind.
  apply bind_ext; [apply run_retrying_task | intros post w4].
  rewrite run_thread_tbind.
  apply bind_ext; [apply run_thread_atomic | intros user_dir w5].
  rewrite run_thread_tbind.
  apply bind_ext; [apply run_download_post_task | intros [[images videos] skipped] w6].
  rewrite run_thread_tbind.
  apply bind_ext; [apply run_thread_atomic | reflexivity].
Qed.

Ltac thread_keeps_step :=
  match goal with
  | |- thread_keeps (tbind _ _) => apply thread_keeps_tbind; [| intros ?]
  | |- thread_keeps (ttry _ _) => apply thread_keeps_ttry; [| intros ?]
  | |- thread_keeps (atomic _) => apply thread_keeps_atomic; intros ?; keeps_auto
  | |- thread_keeps (tret _) => exact I
  | |- thread_keeps (traise _) => exact I
  | |- thread_keeps (if ?b then _ else _) => destruct b eqn:?
  | |- thread_keeps (match ?x with _ => _ end) => destruct x eqn:?
  end.

Ltac thread_keeps_auto := repeat thread_keeps_step.

Section Pools.

Context {T A S : Type}.
Variable handle : S -> T -> res A -> World -> exn + S.

Lemma perform_keeps (a : action) (p : pool T A S) (w : World) :
  pool_keeps p ->
  pool_keeps (fst (perform handle a p w)) /\
  frame w (snd (perform handle a p w)).
Proof.
  intros [Hpending Hrunning]. destruct a as [i | |]; simpl.
  - destruct (running p !! i) as [[task [r | next effect]] |] eqn:Hi; simpl.
    + split; [| apply frame_refl]. split; [exact Hpending |].
      by apply Forall_delete.
    + pose proof (Forall_lookup_1 _ _ _ _ Hrunning Hi) as [Heffect Hnext].
      split; [| apply Heffect]. split; [exact Hpending |].
      apply Forall_insert; [exact Hrunning | apply Hnext].
    + split; [by split | apply frame_refl].
  - destruct (pending p) as [| first rest] eqn:Hp; simpl.
    + split; [split; [by rewrite Hp | done] | apply frame_refl].
    + apply Forall_cons in Hpending as [Hfirst Hrest].
      split; [| apply frame_refl]. split; [exact Hrest |].
      apply Forall_app. split; [exact Hrunning | by constructor].
  - destruct (completed p) as [| [task r] rest]; simpl.
    + split; [by split | apply frame_refl].
    + destruct (handle (locals p) task r w) as [e | s]; simpl;
        (split; [by split | apply frame_refl]).
Qed.

Lemma run_pool_keeps (n : Z) (schedule : list nat) :
  forall (p : pool T A S) (w : World),
    pool_keeps p ->
    pool_keeps (fst (run_pool handle n schedule p w)) /\
    frame w (snd (run_pool handle n schedule p w)).
Proof.
  induction schedule as [| choice rest IH]; intros p w Hp; simpl.
  - split; [exact Hp | apply frame_refl].
  - destruct (enabled n p) as [| a others]; simpl.
    + split; [exact Hp | apply frame_refl].
    + match goal with
      | |- context [perform handle ?chosen p w] =>
          destruct (perform_keeps chosen p w Hp) as [Hp' Hw'];
          destruct (perform handle chosen p w) as [p' w']
      end.
      simpl in Hp', Hw'. destruct (IH p' w' Hp') as [Hp'' Hw''].
      split; [exact Hp'' | by eapply frame_trans].
Qed.

Lemma finish_running_keeps (tasks : list (T * thread A)) :
  Forall (fun task => thread_keeps (snd task)) tasks ->
  forall w, frame w (snd (finish_running tasks w)).
Proof.
  induction 1 as [| [task t] rest Ht _ IH]; intros w; simpl;
    [apply frame_refl |].
  pose proof (run_thread_keeps t Ht w) as Hw1.
  destruct (run_thread t w) as [r w1]. specialize (IH w1).
  destruct (finish_running rest w1) as [done w2]. simpl in *.
  by eapply frame_trans.
Qed.

Lemma run_pending_keeps (tasks : list (T * thread A)) :
  Forall (fun task => thread_keeps (snd task)) tasks ->
  forall s w, frame w (snd (run_pending handle tasks s w)).
Proof.
  induction 1 as [| [task t] rest Ht _ IH]; intros s w; simpl;
    [apply frame_refl |].
  pose proof (run_thread_keeps t Ht w) as Hw1.
  destruct (run_thread t w) as [r w1]. simpl in Hw1.
  destruct (handle s task r w1) as [e | s']; simpl; [exact Hw1 |].
  eapply frame_trans; [exact Hw1 | apply IH].
Qed.

Lemma drain_keeps (p : pool T A S) (w : World) :
  pool_keeps p -> frame w (snd (drain handle p w)).
Proof.
  intros [Hpending Hrunning]. unfold drain.
  pose proof (finish_running_keeps _ Hrunning w) as Hw1.
  destruct (finish_running (running p) w) as [done w1]. simpl in Hw1.
  destruct (stopped p); [exact Hw1 |].
  destruct (take_all handle (completed p ++ done) (locals p) w1);
    [exact Hw1 |].
  eapply frame_trans; [exact Hw1 | by apply run_pending_keeps].
Qed.

Lemma keeps_thread_pool (n : Z) (tasks : list (T * thread A)) (s : S)
    (w : World) :
  Forall (fun task => thread_keeps (snd task)) tasks ->
  keeps (thread_pool n tasks handle s) w.
Proof.
  intros Htasks. unfold keeps, thread_pool.
  destruct (n <=? 0); [apply frame_refl |].
  destruct (run_pool_keeps n (thread_schedule provider (remote w))
              (mkPool tasks [] [] s None) w) as [Hp Hw1]; [by split |].
  destruct (run_pool handle n (thread_schedule provider (remote w))
              (mkPool tasks [] [] s None) w) as [p w1].
  simpl in Hp, Hw1. eapply frame_trans; [exact Hw1 | by apply drain_keeps].
Qed.

End Pools.

Lemma thread_keeps_download_post_task (post : Post) (user : string) :
  thread_keeps (_download_post_task post user).
Proof. unfold _download_post_task. thread_keeps_auto. Qed.

Lemma keeps_download_posts_parallel (posts : list Post) (user : string) (w : World) :
  keeps (_download_posts_parallel posts user) w.
Proof.
  unfold _download_posts_parallel. keeps_auto.
  - apply keeps_sequential_loop. auto with keeps.
  - apply keeps_thread_pool. apply Forall_fmap, Forall_forall.
    intros post _. apply thread_keeps_download_post_task.
Qed.

#[local] Hint Resolve keeps_download_posts_parallel : keeps.

Lemma keeps_phase_handler (e : exn) (w : World) : keeps (phase_handler e) w.
Proof. unfold phase_handler. keeps_auto. Qed.

#[local] Hint Resolve keeps_phase_handler : keeps.

Lemma keeps_story_items_loop (user : string) (items : Story) :
  forall (acc : Z * Z) (w : World), keeps (story_items_loop items user acc) w.
Proof.
  induction items as [| [e | item] rest IH]; intros acc w; simpl; keeps_auto.
Qed.

#[local] Hint Resolve keeps_story_items_loop : keeps.

Lemma keeps_stories_loop (user : string) (stories : list (exn + Story)) :
  forall (acc : Z * Z) (w : World), keeps (stories_loop stories user acc) w.
Proof.
  induction stories as [| [e | story] rest IH]; intros acc w; simpl; keeps_auto.
Qed.

#[local] Hint Resolve keeps_stories_loop : keeps.

Lemma keeps_download_stories (user : string) (w : World) :
  keeps (download_stories user) w.
Proof. unfold download_stories. keeps_auto. Qed.

Lemma keeps_reels_loop (user : string) (posts : list (exn + Post)) :
  forall (videos_count : Z) (w : World), keeps (reels_loop posts user videos_count) w.
Proof.
  induction posts as [| [e | post] rest IH]; intros videos_count w;
    simpl; keeps_auto.
Qed.

#[local] Hint Resolve keeps_reels_loop : keeps.

Lemma keeps_download_reels (user : string) (w : World) :
  keeps (download_reels user) w.
Proof. unfold download_reels. keeps_auto. Qed.

#[local] Hint Resolve keeps_download_stories keeps_download_reels : keeps.

Lemma keeps_create_output_directory (user : string) (w : World) :
  keeps (_create_output_directory user) w.
Proof. unfold _create_output_directory. keeps_auto. Qed.

#[local] Hint Resolve keeps_create_output_directory : keeps.

Lemma keeps_download_post_from_shortcode (code : string) (w : World) :
  keeps (download_post_from_shortcode code) w.
Proof. unfold download_post_from_shortcode. keeps_auto. Qed.

#[local] Hint Resolve keeps_download_post_from_shortcode : keeps.

Lemma keeps_download_post_from_url (url : string) (w : World) :
  keeps (download_post_from_url url) w.
Proof.
  unfold download_post_from_url, _extract_shortcode_from_url. keeps_auto.
Qed.

#[local] Hint Resolve keeps_download_post_from_url : keeps.

Lemma keeps_save_failed_urls (failed_urls : list FailureRecord) (w : World) :
  keeps (_save_failed_urls failed_urls) w.
Proof.
  unfold _save_failed_urls. keeps_auto.
  unfold keeps, modify, frame; simpl. repeat split.
Qed.

#[local] Hint Resolve keeps_save_failed_urls : keeps.

Lemma keeps_url_attempts (download : string -> M DownloadStats) (url : string)
    (max_retries : Z) (attempts : list Z) :
  (forall w, keeps (download url) w) ->
  forall (last_error : option exn) (w : World),
    keeps (url_attempts download url max_retries attempts last_error) w.
Proof.
  intros Hd. induction attempts as [| attempt rest IH]; intros last_error w;
    simpl; keeps_auto.
Qed.

Lemma keeps_urls_loop (download : string -> M DownloadStats) (max_retries : Z)
    (urls : list string) :
  (forall url w, keeps (download url) w) ->
  forall (b : Batch) (w : World), keeps (urls_loop download urls max_retries b) w.
Proof.
  intros Hd. induction urls as [| url rest IH]; intros b w; simpl; keeps_auto.
  apply keeps_url_attempts. auto.
Qed.

Lemma thread_keeps_retry_loop_task {A} (func : thread A) (max_retries : Z)
    (attempts : list Z) :
  thread_keeps func ->
  forall last_error : option exn,
    thread_keeps (retry_loop_task func max_retries attempts last_error).
Proof.
  intros Hf. induction attempts as [| attempt rest IH]; intros last_error;
    cbn [retry_loop_task]; thread_keeps_auto; auto.
Qed.

Lemma thread_keeps_retrying_task {A} (api arg : string) (f : Oracle A) :
  thread_keeps (retrying_task api arg f).
Proof.
  unfold retrying_task. thread_keeps_auto.
  apply thread_keeps_retry_loop_task. thread_keeps_auto.
Qed.

Lemma thread_keeps_download_post_from_url_task (url : string) :
  thread_keeps (download_post_from_url_task url).
Proof.
  unfold download_post_from_url_task, download_post_from_shortcode_task,
    _extract_shortcode_from_url.
  thread_keeps_auto;
    first [apply thread_keeps_retrying_task
          | apply thread_keeps_download_post_task
          | apply frame_refl].
Qed.

Lemma thread_keeps_download_with_retry (url : string) (max_retries : Z)
    (attempts : list Z) :
  thread_keeps (download_with_retry url max_retries attempts).
Proof.
  induction attempts as [| attempt rest IH]; cbn [download_with_retry];
    thread_keeps_auto;
    first [apply thread_keeps_download_post_from_url_task | exact IH].
Qed.

Lemma keeps_download_posts_from_urls (urls : list string) (max_retries : Z)
    (w : World) :
  keeps (download_posts_from_urls urls max_retries) w.
Proof.
  unfold download_posts_from_urls. keeps_auto.
  - apply keeps_urls_loop. auto with keeps.
  - apply keeps_thread_pool. apply Forall_fmap, Forall_forall.
    intros url _. apply thread_keeps_download_with_retry.
Qed.

Lemma keeps_collect_posts (max_posts : option Z) (include_reels : bool)
    (it : list (exn + Post)) :
  forall (posts_to_download : list Post) (w : World),
    keeps (collect_posts it max_posts include_reels posts_to_download) w.
Proof.
  induction it as [| [e | post] rest IH]; intros posts_to_download w;
    simpl; keeps_auto.
Qed.

#[local] Hint Resolve keeps_collect_posts : keeps.

Lemma keeps_load_block (user : string) (w : World) : keeps (load_block user) w.
Proof.
  unfold load_block. apply keeps_get. destruct (resume w) eqn:Hon; [| apply keeps_ret].
  apply keeps_bind; [by apply keeps_load_progress |].
  intros loaded _. rewrite load_progress_run. simpl.
  apply keeps_bind; [| intros [] _; apply keeps_ret].
  by apply frame_resume_on.
Qed.

#[local] Hint Resolve keeps_load_block : keeps.

Lemma keeps_download_user_media (user : string) (max_posts : option Z)
    (include_stories include_reels : bool) (w : World) :
  keeps (download_user_media user max_posts include_stories include_reels) w.
Proof.
  unfold download_user_media. keeps_auto.
Qed.

(** ** _download_post, path by path *)

Lemma download_post_ledger_hit (post : Post) (user : string) (w : World) :
  resume w = true ->
  KStr (shortcode post) ∈ downloaded_posts w ->
  _download_post post user w = (Ok (0, 0, 1), w).
Proof.
  intros Hon Hin. unfold _download_post, try_except, bind, get_world.
  unfold _is_already_downloaded. rewrite Hon, bool_decide_eq_true_2 by done.
  reflexivity.
Qed.

Lemma download_post_not_hit (post : Post) (w : World) :
  resume w = false \/ KStr (shortcode post) ∉ downloaded_posts w ->
  resume w && _is_already_downloaded w (shortcode post) = false.
Proof.
  intros [-> | Hnot]; [reflexivity |].
  unfold _is_already_downloaded. rewrite bool_decide_eq_false_2 by done.
  apply andb_false_r.
Qed.

Lemma download_post_existing_files (post : Post) (user : string) (w : World) :
  resume w = false \/ KStr (shortcode post) ∉ downloaded_posts w ->
  glob provider user "posts" (shortcode post) (remote w) <> [] ->
  _download_post post user w =
  (Ok (0, 0, len (glob provider user "posts" (shortcode post) (remote w))), w).
Proof.
  intros Hmiss Hfiles. unfold _download_post, try_except, bind, get_world.
  rewrite (download_post_not_hit _ _ Hmiss).
  destruct (glob provider user "posts" (shortcode post) (remote w));
    [congruence | reflexivity].
Qed.

Lemma download_post_success (post : Post) (user : string) (w : World) (r' : R) :
  resume w = false \/ KStr (shortcode post) ∉ downloaded_posts w ->
  glob provider user "posts" (shortcode post) (remote w) = [] ->
  loader_download_post provider "posts" post user (remote w) = (inr tt, r') ->
  _download_post post user w =
  (Ok (fst (media_counts post), snd (media_counts post), 0),
   world_after_download post user r' w).
Proof.
  intros Hmiss Hfiles Hdl.
  unfold _download_post, world_after_download, try_except.
  unfold bind at 1, get_world at 1.
  rewrite (download_post_not_hit _ _ Hmiss), Hfiles. simpl (negb _). cbv iota.
  unfold bind at 1. rewrite call_advance, Hdl. simpl fst. simpl snd. cbv iota.
  destruct (media_counts post) as [images videos].
  unfold bind at 1, get_world at 1. simpl resume.
  destruct (resume w) eqn:Hon.
  - unfold bind at 1, record_downloaded, bind at 1, get_world at 1.
    unfold bind at 1, modify at 1. unfold bind at 1, get_world at 1.
    rewrite save_progress_run. reflexivity.
  - reflexivity.
Qed.

Lemma download_post_failure (post : Post) (user : string) (w : World) (r' : R)
    (e : exn) :
  resume w = false \/ KStr (shortcode post) ∉ downloaded_posts w ->
  glob provider user "posts" (shortcode post) (remote w) = [] ->
  loader_download_post provider "posts" post user (remote w) = (inl e, r') ->
  _download_post post user w =
  (if is_ConnectionException e || errno_is e ENOSPC || errno_is e EACCES
   then Raise e else Ok (0, 0, 0),
   advance r' [EvCall "download_post" (shortcode post)] w).
Proof.
  intros Hmiss Hfiles Hdl.
  unfold _download_post, try_except.
  unfold bind at 1, get_world at 1.
  rewrite (download_post_not_hit _ _ Hmiss), Hfiles. simpl (negb _). cbv iota.
  unfold bind at 1. rewrite call_advance, Hdl. simpl fst. simpl snd. cbv iota.
  destruct e as [m | m | m | [n |] m | m | m | m | m | c m]; simpl; try reflexivity.
  destruct (n =? ENOSPC); [reflexivity |].
  destruct (n =? EACCES); reflexivity.
Qed.

(** ** The single-worker loop, step by step *)

Lemma sequential_loop_ok (download : Post -> string -> M counts) (post : Post)
    (rest : list Post) (user : string) (results : list counts) (w w' : World)
    (c : counts) :
  download post user w = (Ok c, w') ->
  sequential_loop download (post :: rest) user results w =
  sequential_loop download rest user (results ++ [c]) w'.
Proof.
  intros Hd. simpl. unfold bind at 1, try_except at 1. by rewrite Hd.
Qed.

Lemma sequential_loop_raise (download : Post -> string -> M counts) (post : Post)
    (rest : list Post) (user : string) (results : list counts) (w w' : World)
    (e : exn) :
  download post user w = (Raise e, w') ->
  sequential_loop download (post :: rest) user results w =
  if is_ConnectionException e || is_OSError e
     || is_ProfileNotExistsException e
     || is_PrivateProfileNotFollowedException e
  then (Raise e, w')
  else sequential_loop download rest user (results ++ [(0, 0, 0)]) w'.
Proof.
  intros Hd. simpl. unfold bind at 1, try_except at 1. rewrite Hd.
  destruct (is_ConnectionException e || is_OSError e
            || is_ProfileNotExistsException e
            || is_PrivateProfileNotFollowedException e); reflexivity.
Qed.

(** A save that goes through leaves a document listing the whole set. *)
Lemma save_writes_full_set (user : string) (posts : gset pykey) (w : World) :
  write_modes w (progress_path w user) = WriteOk ->
  (forall k, k ∈ posts -> exists s, k = KStr s) ->
  exists (ts : string) (l : list pykey),
    progress_file (world_after_save user posts w) user
      = Some (FJson (progress_data user ts l)) /\
    list_to_set l = posts.
Proof.
  intros Hmode Hstr.
  destruct (py_sorted_strings (elements posts)) as [l Hsort].
  { apply Forall_forall. intros k Hk. apply Hstr. by apply elem_of_elements. }
  exists (isoformat provider (now provider (remote w))), l. split.
  - unfold progress_file, world_after_save, file_after_save.
    rewrite Hmode, Hsort. simpl. apply lookup_insert_eq.
  - apply py_sorted_Permutation in Hsort.
    apply set_eq. intros k. rewrite elem_of_list_to_set, Hsort. apply elem_of_elements.
Qed.

(** C7, as amended.  With resume enabled: an item whose key is in the
    ledger gives (0, 0, 1) and changes nothing, so the provider is not
    invoked and the ledger is not touched; an item whose key is not in
    the ledger, of which no file is found in the posts directory and
    whose download succeeds, is downloaded, its key is added to the
    in-memory ledger and the ledger is saved at once (the file then lists
    the whole set when it is writable and the keys are strings); an
    item whose key is not in the ledger but of which files are found in
    the posts directory is skipped, counted by the number of files, and
    not recorded.  In the scenario with ledger {ABC123, XYZ789} and items [ABC123, NEW001]
    the single-worker run skips one file and ends with the ledger
    {ABC123, XYZ789, NEW001}. *)
Theorem resume_skips_recorded_and_records_new :
  (forall (post : Post) (user : string) (w : World),
     resume w = true ->
     KStr (shortcode post) ∈ downloaded_posts w ->
     _download_post post user w = (Ok (0, 0, 1), w)) /\
  (forall (post : Post) (user : string) (w : World) (r' : R),
     resume w = true ->
     KStr (shortcode post) ∉ downloaded_posts w ->
     glob provider user "posts" (shortcode post) (remote w) = [] ->
     loader_download_post provider "posts" post user (remote w) = (inr tt, r') ->
     let run := _download_post post user w in
     fst run = Ok (fst (media_counts post), snd (media_counts post), 0) /\
     downloaded_posts (snd run) = {[KStr (shortcode post)]} ∪ downloaded_posts w /\
     events (snd run) =
       events w ++ [EvCall "download_post" (shortcode post); EvPersist user] /\
     (write_modes w (progress_path w user) = WriteOk ->
      (forall k, k ∈ downloaded_posts w -> exists s, k = KStr s) ->
      exists (ts : string) (l : list pykey),
        progress_file (snd run) user = Some (FJson (progress_data user ts l)) /\
        list_to_set l = {[KStr (shortcode post)]} ∪ downloaded_posts w)) /\
  (forall (post : Post) (user : string) (w : World),
     resume w = true ->
     KStr (shortcode post) ∉ downloaded_posts w ->
     glob provider user "posts" (shortcode post) (remote w) <> [] ->
     _download_post post user w =
     (Ok (0, 0, len (glob provider user "posts" (shortcode post) (remote w))), w)) /\
  (forall (p1 p2 : Post) (user : string) (w : World) (r' : R),
     resume w = true ->
     max_workers w = 1 ->
     downloaded_posts w = {[KStr "ABC123"; KStr "XYZ789"]} ->
     shortcode p1 = "ABC123" ->
     shortcode p2 = "NEW001" ->
     glob provider user "posts" "NEW001" (remote w) = [] ->
     loader_download_post provider "posts" p2 user (remote w) = (inr tt, r') ->
     let run := _download_posts_parallel [p1; p2] user w in
     fst run = Ok [(0, 0, 1); (fst (media_counts p2), snd (media_counts p2), 0)] /\
     (forall results, fst run = Ok results ->
                      snd (sum_results results (0, 0, 0)) = 1) /\
     downloaded_posts (snd run) = {[KStr "ABC123"; KStr "XYZ789"; KStr "NEW001"]}).
Proof.
  split; [| split; [| split]].
  - apply download_post_ledger_hit.
  - intros post user w r' Hon Hmiss Hfiles Hdl run. unfold run.
    rewrite (download_post_success post user w r'); [| by right | done | done].
    unfold world_after_download. rewrite Hon. simpl fst. simpl snd.
    split; [reflexivity |].
    split; [unfold world_after_save;
            by destruct (file_after_save _ _ _) |].
    split; [unfold world_after_save;
            destruct (file_after_save _ _ _); simpl;
            by rewrite <- app_assoc |].
    intros Hmode Hstr. apply save_writes_full_set; [exact Hmode |].
    intros k. simpl. rewrite elem_of_union, elem_of_singleton.
    intros [-> | Hk]; [by eexists | by apply Hstr].
  - intros post user w _ Hmiss Hfiles.
    apply download_post_existing_files; [by right | exact Hfiles].
  - intros p1 p2 user w r' Hon Hone Hledger Hp1 Hp2 Hfiles Hdl run.
    assert (Hrun : run =
              (Ok [(0, 0, 1); ((media_counts p2).1, (media_counts p2).2, 0)],
               world_after_download p2 user r' w)).
    { unfold run, _download_posts_parallel, bind at 1, get_world at 1.
      rewrite Hone. simpl (1 =? 1). cbv iota.
      rewrite (sequential_loop_ok _ p1 [p2] user [] w w (0, 0, 1)).
      2:{ apply download_post_ledger_hit; [exact Hon |].
          rewrite Hp1, Hledger. apply elem_of_union_l. by apply elem_of_singleton. }
      rewrite (sequential_loop_ok _ p2 [] user _ w
                 (world_after_download p2 user r' w)
                 ((media_counts p2).1, (media_counts p2).2, 0)).
      2:{ apply download_post_success; [right | by rewrite Hp2 | done].
          rewrite Hp2, Hledger.
          intros [Hk%elem_of_singleton | Hk%elem_of_singleton]%elem_of_union;
            discriminate. }
      reflexivity. }
    rewrite Hrun. simpl fst. simpl snd. split; [reflexivity |].
    split.
    + intros results [= <-]. simpl. destruct (media_counts p2); reflexivity.
    + unfold world_after_download. rewrite Hon.
      unfold world_after_save. destruct (file_after_save _ _ _); simpl;
        rewrite Hp2, Hledger; set_solver.
Qed.

(** ** Configuration and the resume switch *)

Lemma frame_max_workers {A} (m : M A) (w : World) :
  keeps m w -> max_workers (snd (m w)) = max_workers w.
Proof. by intros (Hm & _). Qed.

Lemma frame_ledger_untouched {A} (m : M A) (w : World) :
  resume w = false -> keeps m w -> ledger_untouched w (snd (m w)).
Proof. intros Hoff (_ & _ & _ & Hl). by apply Hl. Qed.

(** C5, as amended.  The configured worker count is the minimum of the
    given count and 8: counts above 8 become 8, every other count,
    including counts below 1, is kept as given, so that the value lies
    in [1, 8] exactly when the count is at least 1; and no method
    changes the value afterwards. *)
Theorem workers_capped_at_eight (dir : list string) (n : Z) (r : bool) (w : World) :
  let w' := __init__ dir n r w in
  max_workers w' = Z.min n 8 /\
  max_workers w' <= 8 /\
  (8 < n -> max_workers w' = 8) /\
  (n <= 8 -> max_workers w' = n) /\
  (1 <= max_workers w' <= 8 <-> 1 <= n) /\
  (forall posts user,
     max_workers (snd (_download_posts_parallel posts user w')) = max_workers w') /\
  (forall urls max_retries,
     max_workers (snd (download_posts_from_urls urls max_retries w')) = max_workers w') /\
  (forall user max_posts include_stories include_reels,
     max_workers (snd (download_user_media user max_posts include_stories
                         include_reels w')) = max_workers w').
Proof.
  intros w'. simpl.
  split; [reflexivity |]. split; [lia |]. split; [lia |]. split; [lia |].
  split; [lia |]. split; [| split].
  - intros. apply frame_max_workers, keeps_download_posts_parallel.
  - intros. apply frame_max_workers, keeps_download_posts_from_urls.
  - intros. apply frame_max_workers, keeps_download_user_media.
Qed.

(** C10. With resume disabled, no method changes the in-memory ledger,
    writes or reads a progress file, or calls the save or the load: this
    holds for the item download, the scheduler with one worker and with
    a pool of workers under every interleaving of their steps, the
    stories and reels phases, the single-post and batch-URL modes (one
    worker or a pool) and the whole run.  A successful item download
    returns its counts and only adds the provider call to the trace. *)
Theorem resume_off_leaves_ledger_alone (w : World) :
  resume w = false ->
  (forall post user, ledger_untouched w (snd (_download_post post user w))) /\
  (forall posts user,
     ledger_untouched w (snd (_download_posts_parallel posts user w))) /\
  (forall user, ledger_untouched w (snd (download_stories user w))) /\
  (forall user, ledger_untouched w (snd (download_reels user w))) /\
  (forall code, ledger_untouched w (snd (download_post_from_shortcode code w))) /\
  (forall url, ledger_untouched w (snd (download_post_from_url url w))) /\
  (forall urls max_retries,
     ledger_untouched w (snd (download_posts_from_urls urls max_retries w))) /\
  (forall user max_posts include_stories include_reels,
     ledger_untouched w
       (snd (download_user_media user max_posts include_stories include_reels w))) /\
  (forall post user r',
     glob provider user "posts" (shortcode post) (remote w) = [] ->
     loader_download_post provider "posts" post user (remote w) = (inr tt, r') ->
     _download_post post user w =
     (Ok (fst (media_counts post), snd (media_counts post), 0),
      advance r' [EvCall "download_post" (shortcode post)] w)).
Proof.
  intros Hoff.
  split; [intros; apply (frame_ledger_untouched _ w Hoff), keeps_download_post |].
  split; [intros; apply (frame_ledger_untouched _ w Hoff),
                        keeps_download_posts_parallel |].
  split; [intros; apply (frame_ledger_untouched _ w Hoff), keeps_download_stories |].
  split; [intros; apply (frame_ledger_untouched _ w Hoff), keeps_download_reels |].
  split; [intros; apply (frame_ledger_untouched _ w Hoff),
                        keeps_download_post_from_shortcode |].
  split; [intros; apply (frame_ledger_untouched _ w Hoff),
                        keeps_download_post_from_url |].
  split; [intros; apply (frame_ledger_untouched _ w Hoff),
                        keeps_download_posts_from_urls |].
  split; [intros; apply (frame_ledger_untouched _ w Hoff),
                        keeps_download_user_media |].
  intros post user r' Hfiles Hdl.
  rewrite (download_post_success post user w r'); [| by left | done | done].
  unfold world_after_download. by rewrite Hoff.
Qed.

(** ** The statistics of a run *)

Lemma bind_Ok {A B} (m : M A) (k : A -> M B) (w w' : World) (b : B) :
  bind m k w = (Ok b, w') ->
  exists a w1, m w = (Ok a, w1) /\ k a w1 = (Ok b, w').
Proof.
  unfold bind. destruct (m w) as [[a | e] w1]; intros H; [| discriminate].
  by exists a, w1.
Qed.

Lemma create_output_directory_world (user : string) (w : World) :
  exists r, snd (_create_output_directory user w) = advance r [] w.
Proof.
  unfold _create_output_directory, try_except, bind, outside, get_world, ret.
  destruct (mkdir provider user "posts" (remote w)) as [[e | []] r]; simpl;
    exists r; unfold advance, set_remote; rewrite app_nil_r; simpl;
    [| reflexivity].
  destruct (is_OSError e); [| reflexivity].
  destruct (errno_is e EACCES); [reflexivity |].
  destruct (errno_is e ENOSPC); reflexivity.
Qed.

Lemma load_block_run (user : string) (w : World) :
  fst (load_block user w) =
  if resume w then
    match stat_error (progress_file w user) with
    | Some e => Raise e
    | None => Ok (0 <? Z.of_nat (size (ledger_of_file (progress_file w user))))
    end
  else Ok false.
Proof.
  unfold load_block, bind at 1, get_world at 1.
  destruct (resume w); [| reflexivity].
  unfold bind at 1. rewrite load_progress_run.
  by destruct (stat_error (progress_file w user)).
Qed.

(** C9. In the statistics a run returns, [total_files] is the sum of
    the images, videos, stories and reels downloaded (skipped files and
    errors are not counted), [duration] is the end time minus the start
    time, these being the clock readings when the run starts and ends,
    and [resumed_from_previous] is true exactly when resume is enabled
    and the load of the progress file at the start of the run gives a
    ledger that is not empty.  This holds for every number of
    workers. *)
Theorem run_statistics_derived_fields (user : string) (max_posts : option Z)
    (include_stories include_reels : bool) (w w' : World) (stats : DownloadStats) :
  download_user_media user max_posts include_stories include_reels w
    = (Ok stats, w') ->
  total_files stats =
    downloaded_images stats + downloaded_videos stats
    + stories_downloaded stats + reels_downloaded stats /\
  duration stats = end_time stats - start_time stats /\
  start_time stats = now provider (remote w) /\
  end_time stats = now provider (remote w') /\
  (resumed_from_previous stats = true <->
   resume w = true /\
   exists loaded : gset pykey,
     fst (_load_progress user w) = Ok loaded /\ loaded <> ∅).
Proof.
  intros Hrun. split; [reflexivity |]. split; [reflexivity |].
  unfold download_user_media in Hrun.
  apply bind_Ok in Hrun as (w0 & wa & Hget & Hrun).
  injection Hget as <- <-.
  apply bind_Ok in Hrun as (user_dir & w1 & Hdir & Hrun).
  apply bind_Ok in Hrun as (resumed & w2 & Hload & Hrun).
  apply bind_Ok in Hrun as (profile & w3 & _ & Hrun).
  apply bind_Ok in Hrun as ([[stories_images stories_videos] errors1] & w4 & _ & Hrun).
  apply bind_Ok in Hrun as ([reels_videos errors2] & w5 & _ & Hrun).
  apply bind_Ok in Hrun as (w6 & w6' & _ & Hrun).
  apply bind_Ok in Hrun as (posts_to_download & w7 & _ & Hrun).
  apply bind_Ok in Hrun as (results & w8 & _ & Hrun).
  destruct (sum_results results (0, 0, 0)) as [[images videos] skipped].
  apply bind_Ok in Hrun as (w9 & w9' & Hget & Hrun).
  injection Hget as <- <-.
  injection Hrun as <- <-. simpl.
  split; [reflexivity |]. split; [reflexivity |].
  destruct (create_output_directory_world user w) as [r Hw1].
  rewrite Hdir in Hw1. simpl in Hw1. subst w1.
  pose proof (load_block_run user (advance r [] w)) as Hb.
  rewrite Hload in Hb. simpl in Hb.
  change (progress_file (advance r [] w) user) with (progress_file w user) in Hb.
  rewrite load_progress_run. simpl.
  assert (Hsize : forall s : gset pykey, 0 < Z.of_nat (size s) <-> s <> ∅).
  { intros s. split.
    - intros Hpos Hempty. rewrite Hempty, size_empty in Hpos. lia.
    - intros Hne. destruct (size s) eqn:Hs; [| lia].
      apply size_empty_inv, leibniz_equiv in Hs. contradiction. }
  destruct (resume w).
  - destruct (stat_error (progress_file w user)) as [e |]; [discriminate |].
    injection Hb as ->. rewrite Z.ltb_lt, Hsize. split.
    + intros Hne. split; [reflexivity |]. by eexists.
    + by intros [_ (loaded & [= <-] & Hne)].
  - injection Hb as ->. split; [discriminate | by intros [? _]].
Qed.

(** ** Which failures stop the single-worker loop *)

(** An account error raised by the provider while an item is fetched
    does not leave [_download_post]: the item counts for nothing. *)
Lemma download_post_swallows_account_errors (post : Post) (user : string)
    (w : World) (r' : R) (e : exn) :
  resume w = false \/ KStr (shortcode post) ∉ downloaded_posts w ->
  glob provider user "posts" (shortcode post) (remote w) = [] ->
  loader_download_post provider "posts" post user (remote w) = (inl e, r') ->
  is_ProfileNotExistsException e || is_PrivateProfileNotFollowedException e = true ->
  _download_post post user w =
  (Ok (0, 0, 0), advance r' [EvCall "download_post" (shortcode post)] w).
Proof.
  intros Hmiss Hfiles Hdl He.
  rewrite (download_post_failure post user w r' e Hmiss Hfiles Hdl).
  by destruct e.
Qed.

(** The loop re-raises every [OSError] that reaches it, whatever its
    [errno]. *)
Lemma sequential_loop_reraises_OSError (download : Post -> string -> M counts)
    (post : Post) (rest : list Post) (user : string) (results : list counts)
    (w w' : World) (errno : option Z) (msg : string) :
  download post user w = (Raise (OSError errno msg), w') ->
  sequential_loop download (post :: rest) user results w =
  (Raise (OSError errno msg), w').
Proof. intros Hd. by rewrite (sequential_loop_raise _ _ _ _ _ _ _ _ Hd). Qed.

(** * Further properties *)

(** ** _extract_shortcode_from_url *)

Lemma append_cons (c : Ascii.ascii) (a b : string) :
  String c a +:+ b = String c (a +:+ b).
Proof. reflexivity. Qed.

Lemma append_nil (b : string) : EmptyString +:+ b = b.
Proof. reflexivity. Qed.

Lemma strip_prefix_Some (prefix s rest : string) :
  strip_prefix prefix s = Some rest -> s = prefix +:+ rest.
Proof.
  revert s. induction prefix as [| a prefix IH]; intros s H; simpl in *.
  - by injection H as ->.
  - destruct s as [| b s]; [discriminate |].
    destruct (Ascii.eqb a b) eqn:Hab; [| discriminate].
    apply Ascii.eqb_eq in Hab as ->. by rewrite (IH s H).
Qed.

Lemma strip_prefix_app (prefix rest : string) :
  strip_prefix prefix (prefix +:+ rest) = Some rest.
Proof.
  induction prefix as [| a prefix IH]; simpl; [reflexivity |].
  by rewrite Ascii.eqb_refl.
Qed.

Lemma take_shortcode_split (s : string) :
  exists rest, s = take_shortcode s +:+ rest /\
               starts_with_shortcode_char rest = false.
Proof.
  induction s as [| c s (rest & IH & Hrest)]; simpl.
  - by exists EmptyString.
  - destruct (is_shortcode_char c) eqn:Hc.
    + exists rest. split; [rewrite append_cons; congruence | exact Hrest].
    + exists (String c s). split; [reflexivity | simpl; exact Hc].
Qed.

Lemma take_shortcode_all (s : string) :
  all_shortcode_chars (take_shortcode s) = true.
Proof.
  induction s as [| c s IH]; simpl; [reflexivity |].
  destruct (is_shortcode_char c) eqn:Hc; simpl; [by rewrite Hc | reflexivity].
Qed.

Lemma take_shortcode_app (code tail : string) :
  all_shortcode_chars code = true ->
  starts_with_shortcode_char tail = false ->
  take_shortcode (code +:+ tail) = code.
Proof.
  intros Hcode Htail. induction code as [| c code IH]; simpl in *.
  - destruct tail as [| c tail]; [reflexivity |]. simpl in *. by rewrite Htail.
  - apply andb_true_iff in Hcode as [Hc Hrest]. rewrite Hc. by rewrite IH.
Qed.

Lemma match_here_sound (s code : string) :
  match_here s = Some code ->
  exists kind rest,
    (kind = "p/" \/ kind = "reel/") /\
    s = "instagram.com/" +:+ kind +:+ code +:+ rest /\
    code <> EmptyString /\
    all_shortcode_chars code = true /\
    starts_with_shortcode_char rest = false.
Proof.
  unfold match_here. intros H.
  destruct (strip_prefix "instagram.com/" s) as [s1 |] eqn:H1; [| discriminate].
  apply strip_prefix_Some in H1 as ->.
  assert (Hkind : exists kind r, (kind = "p/" \/ kind = "reel/") /\
                   s1 = kind +:+ r /\
                   match take_shortcode r with
                   | EmptyString => None
                   | code' => Some code'
                   end = Some code).
  { destruct (strip_prefix "p/" s1) as [r |] eqn:H2.
    - exists "p/", r. split; [by left |]. split; [by apply strip_prefix_Some |]. done.
    - destruct (strip_prefix "reel/" s1) as [r |] eqn:H3; [| discriminate].
      exists "reel/", r. split; [by right |].
      split; [by apply strip_prefix_Some |]. done. }
  destruct Hkind as (kind & r & Hk & -> & Hcode).
  destruct (take_shortcode_split r) as (rest & Hr & Hrest).
  pose proof (take_shortcode_all r) as Hall.
  destruct (take_shortcode r) as [| c t] eqn:Ht; [discriminate |].
  injection Hcode as <-.
  exists kind, rest. split; [exact Hk |]. split; [by rewrite Hr at 1 |].
  split; [discriminate |]. split; [exact Hall | exact Hrest].
Qed.

Lemma re_search_sound (url code : string) :
  re_search url = Some code ->
  exists before kind rest,
    (kind = "p/" \/ kind = "reel/") /\
    url = before +:+ "instagram.com/" +:+ kind +:+ code +:+ rest /\
    code <> EmptyString /\
    all_shortcode_chars code = true /\
    starts_with_shortcode_char rest = false.
Proof.
  induction url as [| c url IH]; intros H.
  - simpl in H. discriminate.
  - cbn [re_search] in H.
    destruct (match_here (String c url)) as [code' |] eqn:Hm.
    + injection H as ->.
      destruct (match_here_sound _ _ Hm) as (kind & rest & Hk & Hs & Hrest).
      exists EmptyString, kind, rest. by split.
    + destruct (IH H) as (before & kind & rest & Hk & -> & Hrest).
      exists (String c before), kind, rest. by split.
Qed.

(** X1. Whatever shortcode [_extract_shortcode_from_url] returns is
    what follows "instagram.com/p/" or "instagram.com/reel/" somewhere in
    the URL: it is not empty, holds only characters of [A-Za-z0-9_-],
    and is not followed by another such character; the state is left
    as it was. *)
Theorem extracted_shortcode_is_in_the_url (url code : string) (w w' : World) :
  _extract_shortcode_from_url url w = (Ok code, w') ->
  w' = w /\
  exists before kind rest,
    (kind = "p/" \/ kind = "reel/") /\
    url = before +:+ "instagram.com/" +:+ kind +:+ code +:+ rest /\
    code <> EmptyString /\
    all_shortcode_chars code = true /\
    starts_with_shortcode_char rest = false.
Proof.
  unfold _extract_shortcode_from_url. intros H.
  destruct (re_search url) as [code' |] eqn:Hs; [| discriminate].
  injection H as <- <-. split; [reflexivity |]. by apply re_search_sound.
Qed.

Lemma match_here_code (kind code tail : string) :
  kind = "p/" \/ kind = "reel/" ->
  code <> EmptyString ->
  all_shortcode_chars code = true ->
  starts_with_shortcode_char tail = false ->
  match_here ("instagram.com/" +:+ kind +:+ code +:+ tail) = Some code.
Proof.
  intros Hk Hne Hall Htail. unfold match_here.
  rewrite strip_prefix_app.
  assert (Hafter : match strip_prefix "p/" (kind +:+ code +:+ tail) with
                   | Some r => Some r
                   | None => strip_prefix "reel/" (kind +:+ code +:+ tail)
                   end = Some (code +:+ tail)).
  { destruct Hk as [-> | ->]; reflexivity. }
  rewrite Hafter, take_shortcode_app by done.
  destruct code; [done | reflexivity].
Qed.

(** X2. For every shortcode (not empty, of characters [A-Za-z0-9_-])
    and every tail that does not go on with such a character, the URL
    forms of the docstring give the shortcode back: with and without
    "www.", over http and https, for posts and for reels. *)
Theorem documented_urls_give_their_shortcode (code tail : string) (w : World) :
  code <> EmptyString ->
  all_shortcode_chars code = true ->
  starts_with_shortcode_char tail = false ->
  _extract_shortcode_from_url
    ("https://www.instagram.com/p/" +:+ code +:+ tail) w = (Ok code, w) /\
  _extract_shortcode_from_url
    ("https://instagram.com/p/" +:+ code +:+ tail) w = (Ok code, w) /\
  _extract_shortcode_from_url
    ("http://www.instagram.com/p/" +:+ code +:+ tail) w = (Ok code, w) /\
  _extract_shortcode_from_url
    ("https://www.instagram.com/reel/" +:+ code +:+ tail) w = (Ok code, w).
Proof.
  intros Hne Hall Htail.
  assert (Hskip : forall c rest,
            match_here (String c rest) = None ->
            re_search (String c rest) = re_search rest).
  { intros c rest Hnone. cbn [re_search]. by rewrite Hnone. }
  assert (Hhere : forall kind,
            kind = "p/" \/ kind = "reel/" ->
            re_search ("instagram.com/" +:+ kind +:+ code +:+ tail) = Some code).
  { intros kind Hk.
    pose proof (match_here_code kind code tail Hk Hne Hall Htail) as Hm.
    rewrite !append_cons, append_nil in *. cbn [re_search]. by rewrite Hm. }
  unfold _extract_shortcode_from_url.
  split; [| split; [| split]].
  - change ("https://www.instagram.com/p/" +:+ code +:+ tail)
      with ("https://www." +:+ ("instagram.com/" +:+ "p/" +:+ code +:+ tail)).
    rewrite !append_cons, append_nil.
    do 12 (rewrite Hskip by reflexivity).
    rewrite <- !append_cons. rewrite (Hhere "p/") by (by left). reflexivity.
  - change ("https://instagram.com/p/" +:+ code +:+ tail)
      with ("https://" +:+ ("instagram.com/" +:+ "p/" +:+ code +:+ tail)).
    rewrite !append_cons, append_nil.
    do 8 (rewrite Hskip by reflexivity).
    rewrite <- !append_cons. rewrite (Hhere "p/") by (by left). reflexivity.
  - change ("http://www.instagram.com/p/" +:+ code +:+ tail)
      with ("http://www." +:+ ("instagram.com/" +:+ "p/" +:+ code +:+ tail)).
    rewrite !append_cons, append_nil.
    do 11 (rewrite Hskip by reflexivity).
    rewrite <- !append_cons. rewrite (Hhere "p/") by (by left). reflexivity.
  - change ("https://www.instagram.com/reel/" +:+ code +:+ tail)
      with ("https://www." +:+ ("instagram.com/" +:+ "reel/" +:+ code +:+ tail)).
    rewrite !append_cons, append_nil.
    do 12 (rewrite Hskip by reflexivity).
    rewrite <- !append_cons. rewrite (Hhere "reel/") by (by right). reflexivity.
Qed.

Lemma contains_unfold (needle hay : string) :
  contains needle hay =
  match strip_prefix needle hay with
  | Some _ => true
  | None =>
      match hay with
      | EmptyString => false
      | String _ rest => contains needle rest
      end
  end.
Proof. by destruct hay. Qed.

Lemma contains_here (needle rest : string) :
  contains needle (needle +:+ rest) = true.
Proof. by rewrite contains_unfold, strip_prefix_app. Qed.

Lemma contains_later (needle before rest : string) :
  contains needle (before +:+ needle +:+ rest) = true.
Proof.
  induction before as [| c before IH];
    [rewrite append_nil; apply contains_here |].
  rewrite append_cons, contains_unfold.
  destruct (strip_prefix needle _); [reflexivity | exact IH].
Qed.

Lemma append_assoc (a b c : string) : (a +:+ b) +:+ c = a +:+ b +:+ c.
Proof. induction a as [| x a IH]; [reflexivity |]. by rewrite !append_cons, IH. Qed.

Lemma re_search_contains_host (url code : string) :
  re_search url = Some code -> contains "instagram.com" url = true.
Proof.
  intros H. destruct (re_search_sound url code H)
    as (before & kind & rest & _ & -> & _).
  change "instagram.com/" with ("instagram.com" +:+ "/").
  rewrite (append_assoc "instagram.com" "/"). apply contains_later.
Qed.

(** X3. A URL in which "instagram.com" does not occur is refused by
    [download_post_from_url] with [ValueError] before anything else
    happens: no call to instaloader is made and nothing but the trace
    of the attempt changes. *)
Theorem url_without_host_is_refused_before_any_call (url : string) (w : World) :
  contains "instagram.com" url = false ->
  download_post_from_url url w = (Raise (ValueError url), add_event (EvAttempt url) w) /\
  count_calls (events (snd (download_post_from_url url w))) = count_calls (events w).
Proof.
  intros Hhost.
  assert (Hnone : re_search url = None).
  { destruct (re_search url) as [code |] eqn:Hs; [| reflexivity].
    apply re_search_contains_host in Hs. congruence. }
  assert (Hrun : download_post_from_url url w
                 = (Raise (ValueError url), add_event (EvAttempt url) w)).
  { unfold download_post_from_url, _extract_shortcode_from_url.
    unfold bind at 1, log, modify. unfold bind at 1. by rewrite Hnone. }
  split; [exact Hrun |]. rewrite Hrun. simpl.
  rewrite count_calls_app. simpl. lia.
Qed.

(** ** _read_urls_from_file *)

Lemma urls_of_items_kept (items : list json) :
  forall (urls result : list json),
    urls_of_items items urls = inr result ->
    Forall (fun u => py_in "instagram.com" u = inr true) urls ->
    Forall (fun u => py_in "instagram.com" u = inr true) result.
Proof.
  induction items as [| item rest IH]; intros urls result H Hurls; simpl in H.
  - by injection H as <-.
  - destruct (url_of_item item) as [url |]; [| by eapply IH].
    destruct (py_in "instagram.com" url) as [e | [|]] eqn:Hin;
      [discriminate | | by eapply IH].
    eapply IH; [exact H |]. apply Forall_app. split; [exact Hurls |].
    by constructor.
Qed.

(** X4. Whatever the file holds, every URL that [_read_urls_from_file]
    returns passed the test ["instagram.com" in url]; in particular a
    returned string has "instagram.com" as a substring. *)
Theorem read_urls_returns_only_instagram_urls (f : option file) (urls : list json) :
  _read_urls_from_file f = inr urls ->
  Forall (fun u => py_in "instagram.com" u = inr true) urls /\
  (forall s, JStr s ∈ urls -> contains "instagram.com" s = true).
Proof.
  intros H.
  assert (Hall : Forall (fun u => py_in "instagram.com" u = inr true) urls).
  { unfold _read_urls_from_file in H.
    destruct f as [[n | | | data | n] |]; try discriminate.
    2:{ by destruct (n =? ENOENT). }
    destruct (negb (truthy data)); [discriminate |].
    destruct (py_in "urls" data) as [e | [|]]; try discriminate.
    destruct (py_getitem data "urls") as [e | url_list]; [discriminate |].
    destruct (py_iter url_list) as [e | items]; [discriminate |].
    by apply (urls_of_items_kept items [] urls). }
  split; [exact Hall |].
  intros s Hs. rewrite Forall_forall in Hall. specialize (Hall _ Hs).
  simpl in Hall. congruence.
Qed.

Lemma urls_of_items_plain (items : list json) :
  forall urls : list json,
    forallb plain_entry items = true ->
    urls_of_items items urls =
    inr (urls ++ List.filter is_instagram_url (omap url_of_item items)).
Proof.
  induction items as [| item rest IH]; intros urls Hplain; simpl.
  - by rewrite app_nil_r.
  - simpl in Hplain. apply andb_true_iff in Hplain as [Hitem Hrest].
    unfold plain_entry in Hitem.
    destruct (url_of_item item) as [url |]; [| by apply IH].
    destruct url as [| b | n | u | l | o]; try discriminate.
    simpl. destruct (contains "instagram.com" u).
    + rewrite IH by done. by rewrite <- app_assoc.
    + by apply IH.
Qed.

(** X5. For a YAML document that is a mapping with a list under "urls"
    whose entries are strings or mappings with a string under "url"
    (entries of other shapes being allowed and skipped),
    [_read_urls_from_file] returns, in the order of the file, exactly
    the URLs that contain "instagram.com". *)
Theorem read_urls_keeps_file_order (fields : list (string * json))
    (items : list json) :
  fields_get fields "urls" = Some (JArr items) ->
  forallb plain_entry items = true ->
  _read_urls_from_file (Some (FJson (JObj fields))) =
  inr (List.filter is_instagram_url (omap url_of_item items)).
Proof.
  intros Hurls Hplain. unfold _read_urls_from_file.
  assert (Htruthy : truthy (JObj fields) = true) by (by destruct fields).
  rewrite Htruthy. cbn [negb py_in py_getitem]. rewrite Hurls.
  rewrite bool_decide_eq_true_2 by (by eexists).
  cbn [py_iter]. by rewrite urls_of_items_plain.
Qed.

(** X6. The reader's filter never drops a URL the extractor accepts:
    a string from which [_extract_shortcode_from_url] gets a shortcode
    contains "instagram.com", so as an entry of the list it is returned
    by [_read_urls_from_file]. *)
Theorem extractable_urls_pass_the_reader (url code : string) (w w' : World)
    (fields : list (string * json)) :
  _extract_shortcode_from_url url w = (Ok code, w') ->
  fields_get fields "urls" = Some (JArr [JStr url]) ->
  _read_urls_from_file (Some (FJson (JObj fields))) = inr [JStr url].
Proof.
  intros Hcode Hurls. unfold _extract_shortcode_from_url in Hcode.
  destruct (re_search url) as [code' |] eqn:Hs; [| discriminate].
  apply re_search_contains_host in Hs.
  rewrite (read_urls_keeps_file_order fields [JStr url] Hurls eq_refl).
  simpl. by rewrite Hs.
Qed.

(** ** The collection loop of download_user_media *)

Lemma collect_posts_invariant (max_posts : option Z) (include_reels : bool)
    (it : list (exn + Post)) :
  forall (acc posts : list Post) (w w' : World),
    collect_posts it max_posts include_reels acc w = (Ok posts, w') ->
    w' = w /\
    exists extra,
      posts = acc ++ extra /\
      extra `sublist_of` yielded it /\
      (include_reels = true -> Forall (fun p => _is_reel p = false) extra) /\
      (forall m, max_posts = Some m -> len posts <= Z.max m (len acc)).
Proof.
  induction it as [| [e | post] rest IH]; intros acc posts w w' H; simpl in H.
  - injection H as <- <-. split; [reflexivity |]. exists [].
    rewrite app_nil_r. repeat split; [constructor | constructor |].
    intros m _. lia.
  - discriminate.
  - destruct (match max_posts with Some m => m <=? len acc | None => false end)
      eqn:Hlimit.
    + injection H as <- <-. split; [reflexivity |]. exists [].
      rewrite app_nil_r. repeat split; [apply sublist_nil_l | constructor |].
      intros m _. lia.
    + destruct (include_reels && _is_reel post) eqn:Hreel.
      * destruct (IH _ _ _ _ H) as (-> & extra & -> & Hsub & Hno & Hlen).
        split; [reflexivity |]. exists extra. repeat split; auto.
        unfold yielded. simpl. by apply sublist_cons.
      * destruct (IH _ _ _ _ H) as (-> & extra & -> & Hsub & Hno & Hlen).
        split; [reflexivity |]. exists (post :: extra).
        split; [by rewrite <- app_assoc |].
        split; [unfold yielded; simpl; by apply sublist_skip |].
        split.
        -- intros Hon. constructor; [| by apply Hno].
           rewrite Hon in Hreel. exact Hreel.
        -- intros m Hm. specialize (Hlen m Hm). subst max_posts.
           apply Z.leb_gt in Hlimit. unfold len in *.
           rewrite !length_app in *. simpl in *. lia.
Qed.

(** X7. When the collection loop of [download_user_media] ends without
    the iterator raising, the posts collected are posts the iterator
    yielded, in its order; with a limit [m] there are at most
    [max m 0] of them, and when reels are handled by their own phase
    none of them is a reel; the loop touches no state. *)
Theorem collected_posts_are_bounded_and_filtered (max_posts : option Z)
    (include_reels : bool) (it : list (exn + Post)) (posts : list Post)
    (w w' : World) :
  collect_posts it max_posts include_reels [] w = (Ok posts, w') ->
  w' = w /\
  posts `sublist_of` yielded it /\
  (include_reels = true -> Forall (fun p => _is_reel p = false) posts) /\
  (forall m, max_posts = Some m -> len posts <= Z.max m 0).
Proof.
  intros H.
  destruct (collect_posts_invariant _ _ _ _ _ _ _ H)
    as (-> & extra & -> & Hsub & Hno & Hlen).
  simpl. repeat split; auto.
Qed.

Lemma collect_posts_limit (ps : list Post) :
  forall (m : Z) (acc : list Post) (w : World),
    collect_posts (inr <$> ps) (Some m) false acc w =
    (Ok (acc ++ take (Z.to_nat (m - len acc)) ps), w).
Proof.
  induction ps as [| p ps IH]; intros m acc w.
  - simpl. by rewrite take_nil, app_nil_r.
  - rewrite fmap_cons. cbn [collect_posts andb].
    destruct (m <=? len acc) eqn:Hlimit.
    + apply Z.leb_le in Hlimit.
      replace (Z.to_nat (m - len acc)) with O by lia.
      by rewrite take_0, app_nil_r.
    + apply Z.leb_gt in Hlimit. rewrite IH.
      replace (Z.to_nat (m - len acc)) with (S (Z.to_nat (m - len (acc ++ [p])))).
      2:{ unfold len in *. rewrite length_app. simpl. lia. }
      by rewrite firstn_cons, <- app_assoc.
Qed.

Lemma collect_posts_no_limit (include_reels : bool) (ps : list Post) :
  forall (acc : list Post) (w : World),
    collect_posts (inr <$> ps) None include_reels acc w =
    (Ok (acc ++ List.filter (fun p => negb (include_reels && _is_reel p)) ps), w).
Proof.
  induction ps as [| p ps IH]; intros acc w.
  - simpl. by rewrite app_nil_r.
  - rewrite fmap_cons. cbn [collect_posts List.filter].
    destruct (include_reels && _is_reel p); simpl.
    + apply IH.
    + rewrite IH. by rewrite <- app_assoc.
Qed.

(** X8. Over an iterator that does not raise, the collection loop gives
    exactly the first [m] posts when the limit is [m] and reels are not
    filtered (none when [m <= 0]), and without a limit all posts, or
    all posts that are not reels when the reels phase is on. *)
Theorem collected_posts_exactly (ps : list Post) (w : World) :
  (forall m : Z,
     collect_posts (inr <$> ps) (Some m) false [] w
     = (Ok (take (Z.to_nat m) ps), w)) /\
  collect_posts (inr <$> ps) None false [] w = (Ok ps, w) /\
  collect_posts (inr <$> ps) None true [] w
  = (Ok (List.filter (fun p => negb (_is_reel p)) ps), w).
Proof.
  split; [| split].
  - intros m. rewrite collect_posts_limit. simpl.
    by replace (m - len []) with m by (unfold len; simpl; lia).
  - rewrite collect_posts_no_limit. simpl. f_equal. f_equal.
    induction ps as [| p ps IH]; [reflexivity |]. simpl. by rewrite IH.
  - by rewrite collect_posts_no_limit.
Qed.

Lemma collect_posts_then_error (ps : list Post) (e : exn)
    (rest : list (exn + Post)) :
  forall (m : Z) (acc : list Post) (w : World),
    len acc + len ps <= m ->
    collect_posts ((inr <$> ps) ++ inl e :: rest) (Some m) false acc w
    = (Raise e, w).
Proof.
  induction ps as [| p ps IH]; intros m acc w Hm.
  - reflexivity.
  - rewrite fmap_cons. simpl app. cbn [collect_posts andb].
    assert (Hlimit : (m <=? len acc) = false).
    { apply Z.leb_gt. unfold len in *. simpl in Hm. lia. }
    rewrite Hlimit. apply IH. unfold len in *. rewrite length_app.
    simpl in *. lia.
Qed.

(** X9. The limit is tested only after the next post has been fetched:
    when the iterator yields no more than [m] posts and then raises,
    the collection loop raises that error, even when exactly [m] posts
    were already collected; when it yields more than [m] posts first,
    the loop stops at [m] and the later failure is never met. *)
Theorem limit_is_checked_after_fetching (ps : list Post) (e : exn)
    (rest : list (exn + Post)) (m : Z) (w : World) :
  (len ps <= m ->
   collect_posts ((inr <$> ps) ++ inl e :: rest) (Some m) false [] w
   = (Raise e, w)) /\
  (0 <= m < len ps ->
   collect_posts ((inr <$> ps) ++ inl e :: rest) (Some m) false [] w
   = (Ok (take (Z.to_nat m) ps), w)).
Proof.
  split.
  - intros Hm. apply collect_posts_then_error. unfold len in *. simpl. lia.
  - intros Hm.
    rewrite <- (take_drop (Z.to_nat m) ps) at 1.
    destruct (drop (Z.to_nat m) ps) as [| q qs] eqn:Hdrop.
    { apply (f_equal length) in Hdrop. rewrite length_drop in Hdrop.
      unfold len in Hm. simpl in Hdrop. lia. }
    rewrite fmap_app, <- app_assoc, fmap_cons. simpl app.
    generalize (((inr <$> qs) ++ inl e :: rest) : list (exn + Post)).
    intros tail.
    assert (Hgen : forall (xs acc : list Post),
              len acc + len xs = m ->
              collect_posts ((inr <$> xs) ++ inr q :: tail) (Some m) false acc w
              = (Ok (acc ++ xs), w)).
    { induction xs as [| x xs IH]; intros acc Hlen.
      - simpl app. cbn [fmap list_fmap collect_posts].
        assert (Hlimit : (m <=? len acc) = true)
          by (apply Z.leb_le; unfold len in *; simpl in Hlen; lia).
        rewrite Hlimit. by rewrite app_nil_r.
      - rewrite fmap_cons. simpl app. cbn [collect_posts andb].
        assert (Hlimit : (m <=? len acc) = false)
          by (apply Z.leb_gt; unfold len in *; simpl in Hlen; lia).
        rewrite Hlimit. rewrite IH; [by rewrite <- app_assoc |].
        unfold len in *. rewrite length_app. simpl in *. lia. }
    rewrite (Hgen (take (Z.to_nat m) ps) []); [reflexivity |].
    unfold len in *. simpl. rewrite length_take. lia.
Qed.

(** ** The totals of a run *)

Lemma sum_results_totals (results : list counts) :
  forall acc : counts,
    sum_results results acc =
    (fst (fst acc) + fst (fst (totals results)),
     snd (fst acc) + snd (fst (totals results)),
     snd acc + snd (totals results)).
Proof.
  induction results as [| [[i v] k] results IH]; intros [[a b] c].
  - simpl. f_equal; [f_equal |]; lia.
  - cbn [sum_results]. rewrite IH. unfold totals.
    rewrite !fmap_cons. cbn [foldr fst snd].
    f_equal; [f_equal |]; lia.
Qed.

Lemma totals_Permutation (r1 r2 : list counts) :
  r1 ≡ₚ r2 -> totals r1 = totals r2.
Proof.
  intros Hp. unfold totals.
  assert (Hsum : forall (f : counts -> Z),
            foldr Z.add 0 (f <$> r1) = foldr Z.add 0 (f <$> r2)).
  { intros f. induction Hp; rewrite ?fmap_cons; cbn [foldr]; lia. }
  by rewrite !Hsum.
Qed.

(** X10. The totals of a run do not depend on the order in which the
    per-post results arrive: [sum_results] adds each component up, so
    two result lists that are permutations of each other give the same
    images, videos and skipped totals, and the totals of a
    concatenation are those of its parts added. *)
Theorem totals_do_not_depend_on_order (r1 r2 : list counts) (acc : counts) :
  (r1 ≡ₚ r2 -> sum_results r1 acc = sum_results r2 acc) /\
  sum_results (r1 ++ r2) acc = sum_results r2 (sum_results r1 acc) /\
  sum_results r1 (0, 0, 0) = totals r1.
Proof.
  split; [| split].
  - intros Hp. by rewrite !sum_results_totals, (totals_Permutation _ _ Hp).
  - revert acc. induction r1 as [| [[i v] k] r1 IH]; intros [[a b] c];
      [reflexivity |].
    simpl. apply IH.
  - rewrite sum_results_totals. cbn [fst snd].
    by destruct (totals r1) as [[a b] c].
Qed.

(** ** Which errors leave a method *)

Lemma try_except_Raise {A} (m : M A) (h : exn -> M A) (w : World) (e : exn) :
  fst (try_except m h w) = Raise e ->
  exists e' w', m w = (Raise e', w') /\ fst (h e' w') = Raise e.
Proof.
  unfold try_except. destruct (m w) as [[a | e'] w'] eqn:Hm; simpl;
    [discriminate |].
  intros Hh. by exists e', w'.
Qed.

Lemma download_post_raises (post : Post) (user : string) (w : World) (e : exn) :
  fst (_download_post post user w) = Raise e -> fatal_for_item e = true.
Proof.
  unfold _download_post. intros H.
  apply try_except_Raise in H as (e' & w' & _ & H).
  unfold fatal_for_item.
  destruct e' as [m | m | m | [n |] m | m | m | m | m | c m]; simpl in H;
    try discriminate; try (by injection H as <-).
  unfold errno_is in H.
  destruct (n =? ENOSPC) eqn:H1; [injection H as <-; simpl; by rewrite H1 |].
  destruct (n =? EACCES) eqn:H2; [| discriminate].
  injection H as <-. simpl. rewrite H2. apply orb_true_r.
Qed.

Lemma sequential_loop_raises (download : Post -> string -> M counts)
    (user : string) (P : exn -> Prop) :
  (forall post w e, fst (download post user w) = Raise e -> P e) ->
  forall (posts : list Post) (results : list counts) (w : World) (e : exn),
    fst (sequential_loop download posts user results w) = Raise e -> P e.
Proof.
  intros Hd. induction posts as [| post rest IH]; intros results w e H;
    [discriminate |].
  destruct (download post user w) as [[c | e'] w'] eqn:Hdl.
  - rewrite (sequential_loop_ok _ _ _ _ _ _ _ _ Hdl) in H. eauto.
  - rewrite (sequential_loop_raise _ _ _ _ _ _ _ _ Hdl) in H.
    destruct (is_ConnectionException e' || is_OSError e'
              || is_ProfileNotExistsException e'
              || is_PrivateProfileNotFollowedException e'); [| eauto].
    injection H as <-. apply (Hd post w). by rewrite Hdl.
Qed.

(** X11. The only errors that leave [_download_post], and so the only
    errors that leave the single-worker scheduler, are connection
    failures and the disk errors ENOSPC and EACCES; in particular
    neither of the two account errors ever leaves them. *)
Theorem only_connection_and_disk_errors_stop_the_scheduler (posts : list Post)
    (user : string) (w : World) (e : exn) :
  max_workers w = 1 ->
  fst (_download_posts_parallel posts user w) = Raise e ->
  fatal_for_item e = true /\
  is_ProfileNotExistsException e = false /\
  is_PrivateProfileNotFollowedException e = false.
Proof.
  intros Hone H. unfold _download_posts_parallel, bind, get_world in H.
  rewrite Hone in H. simpl in H.
  assert (Hfatal : fatal_for_item e = true).
  { eapply (sequential_loop_raises _download_post user
              (fun e => fatal_for_item e = true)); [| exact H].
    intros post w0 e0. apply download_post_raises. }
  split; [exact Hfatal |].
  split; by destruct e.
Qed.

Lemma phase_handler_Raise (e e2 : exn) (w : World) :
  fst (phase_handler e w) = Raise e2 ->
  e2 = e /\ forall w0 : World, _handle_download_error e w0 = (Raise e, w0).
Proof.
  unfold phase_handler, _handle_download_error.
  destruct e as [m | m | m | [n |] m | m | m | m | m | c m]; simpl;
    try discriminate; try (by intros [= <-]).
  destruct (n =? ENOSPC); [by intros [= <-] |].
  destruct (n =? EACCES); [by intros [= <-] | discriminate].
Qed.

(** X12. The stories phase and the reels phase raise only errors that
    [_handle_download_error] re-raises (account errors, connection
    failures, ENOSPC and EACCES): an error that method swallows never
    leaves either phase. *)
Theorem phases_raise_what_the_error_handler_raises (user : string) (w : World)
    (e : exn) :
  fst (download_stories user w) = Raise e \/
  fst (download_reels user w) = Raise e ->
  forall w0 : World, _handle_download_error e w0 = (Raise e, w0).
Proof.
  intros [H | H].
  - unfold download_stories in H.
    apply try_except_Raise in H as (e' & w' & _ & H).
    by apply phase_handler_Raise in H as [-> H].
  - unfold download_reels in H.
    apply try_except_Raise in H as (e' & w' & _ & H).
    by apply phase_handler_Raise in H as [-> H].
Qed.

(** ** Batch mode *)

Lemma urls_loop_returns (download : string -> M DownloadStats)
    (max_retries : Z) :
  forall (urls : list string) (b : Batch) (w : World),
    exists (b' : Batch) (w' : World) (new : list FailureRecord),
      urls_loop download urls max_retries b w = (Ok b', w') /\
      batch_failed_urls b' = batch_failed_urls b ++ new /\
      batch_errors b' = batch_errors b + len new /\
      failed_url <$> new `sublist_of` urls.
Proof.
  induction urls as [| url rest IH]; intros b w.
  - exists b, w, []. rewrite app_nil_r. unfold len. simpl.
    repeat split; [lia | constructor].
  - cbn [urls_loop]. unfold bind at 1.
    destruct (url_attempts download url max_retries (range max_retries) None w)
      as [[[[stats |] last] | e] w1] eqn:Hat; cbn [fst snd].
    + match goal with
      | |- context [urls_loop download rest max_retries ?b1 w1] =>
          destruct (IH b1 w1) as (b' & w' & new & Hrun & Hf & He & Hs)
      end.
      exists b', w', new. rewrite Hrun. simpl in *.
      repeat split; auto. by apply sublist_cons.
    + unfold bind at 1, get_world at 1.
      match goal with
      | |- context [urls_loop download rest max_retries ?b1 w1] =>
          destruct (IH b1 w1) as (b' & w' & new & Hrun & Hf & He & Hs)
      end.
      simpl in Hf, He.
      eexists b', w', (_ :: new). rewrite Hrun.
      split; [reflexivity |].
      split; [by rewrite Hf, <- app_assoc |].
      split; [unfold len in *; simpl; lia |].
      rewrite fmap_cons. simpl. by apply sublist_skip.
    + exfalso.
      apply (url_attempts_never_raises download url max_retries
               (range max_retries) None w e).
      by rewrite Hat.
Qed.

(** X13. With one worker, batch mode always returns statistics,
    whatever the URLs and whatever fails: no error leaves
    [download_posts_from_urls].  The statistics count every URL given,
    the errors are the URLs recorded as failed, these are URLs of the
    input in input order, and when there are any and the failure file
    can be written it holds exactly these records. *)
Theorem single_worker_batch_always_returns (urls : list string)
    (max_retries : Z) (w : World) :
  max_workers w = 1 ->
  exists (stats : DownloadStats) (w' : World) (records : list FailureRecord),
    download_posts_from_urls urls max_retries w = (Ok stats, w') /\
    username stats = "batch_download" /\
    total_posts stats = len urls /\
    errors stats = len records /\
    0 <= errors stats <= len urls /\
    failed_url <$> records `sublist_of` urls /\
    (records <> [] -> failed_file_writable w' = true ->
     failed_file w' = Some records).
Proof.
  intros Hone.
  destruct (urls_loop_returns download_post_from_url max_retries
              urls (mkBatch 0 0 0 0 []) w)
    as (b & w1 & new & Hrun & Hf & He & Hs).
  simpl in Hf, He. subst new.
  unfold download_posts_from_urls, bind at 1, get_world at 1.
  rewrite Hone. simpl (1 =? 1). cbv iota. unfold bind at 1. rewrite Hrun.
  assert (Hlen : len (batch_failed_urls b) <= len urls).
  { apply sublist_length in Hs. rewrite length_fmap in Hs. unfold len. lia. }
  destruct (batch_failed_urls b) as [| record records] eqn:Hrecords.
  - exists (mkDownloadStats "batch_download" (len urls) (batch_images b)
              (batch_videos b) (batch_skipped b) (batch_errors b)
              (output_dir w1) (now provider (remote w))
              (now provider (remote w1)) 0 0 false), w1, [].
    split; [reflexivity |]. simpl. unfold len in *. simpl in *.
    repeat split; auto; try lia. done.
  - unfold bind at 1. cbn [is_empty negb].
    unfold _save_failed_urls, bind at 1, get_world at 1.
    destruct (failed_file_writable w1) eqn:Hwritable.
    + eexists _, _, (record :: records). split; [reflexivity |].
      simpl. unfold len in *. simpl in *. repeat split; auto; lia.
    + eexists _, _, (record :: records). split; [reflexivity |].
      simpl. unfold len in *. simpl in *. repeat split; auto; try lia.
      intros _ Hw. congruence.
Qed.

Lemma urls_loop_without_budget (download : string -> M DownloadStats)
    (max_retries : Z) :
  max_retries <= 0 ->
  forall (urls : list string) (b : Batch) (w : World),
    urls_loop download urls max_retries b w =
    (Ok (mkBatch (batch_images b) (batch_videos b) (batch_skipped b)
           (batch_errors b + len urls)
           (batch_failed_urls b ++
            (never_attempted (isoformat provider (now provider (remote w)))
               <$> urls))),
     w).
Proof.
  intros Hle. induction urls as [| url rest IH]; intros b w.
  - simpl. rewrite app_nil_r, Z.add_0_r. by destruct b.
  - cbn [urls_loop]. unfold range.
    replace (Z.to_nat max_retries) with O by lia.
    cbn [seq map url_attempts]. unfold bind at 1, ret at 1. cbn [fst snd].
    unfold bind at 1, get_world at 1. rewrite IH. cbn.
    rewrite <- app_assoc. do 3 f_equal. unfold len. simpl length. lia.
Qed.

(** X14. With one worker and [max_retries <= 0], batch mode attempts
    nothing: no call is made and nothing is slept, every URL is counted
    as an error and recorded as failed with the error text "None", in
    input order, and the only change is the failure file (written when
    there is a URL and the file can be written). *)
Theorem batch_without_budget_fails_every_url (urls : list string)
    (max_retries : Z) (w : World) :
  max_workers w = 1 ->
  max_retries <= 0 ->
  let records :=
    never_attempted (isoformat provider (now provider (remote w))) <$> urls in
  download_posts_from_urls urls max_retries w =
  (Ok (mkDownloadStats "batch_download" (len urls) 0 0 0 (len urls)
         (output_dir w) (now provider (remote w)) (now provider (remote w))
         0 0 false),
   if negb (is_empty urls) && failed_file_writable w
   then set_failed_file (Some records) w else w).
Proof.
  intros Hone Hle records.
  unfold download_posts_from_urls, bind at 1, get_world at 1.
  rewrite Hone. simpl (1 =? 1). cbv iota. unfold bind at 1.
  rewrite (urls_loop_without_budget _ _ Hle). cbn [batch_failed_urls app].
  fold records.
  destruct urls as [| url rest]; [reflexivity |].
  cbn [is_empty negb andb]. subst records. rewrite fmap_cons.
  cbn [is_empty negb]. unfold bind at 1, _save_failed_urls, bind at 1,
    get_world at 1.
  destruct (failed_file_writable w); reflexivity.
Qed.

(** ** Resuming *)

Lemma world_after_save_fields (user : string) (posts : gset pykey) (w : World) :
  resume (world_after_save user posts w) = resume w /\
  downloaded_posts (world_after_save user posts w) = downloaded_posts w.
Proof.
  unfold world_after_save. by destruct (file_after_save user posts w).
Qed.

Lemma world_after_download_ledger (post : Post) (user : string) (r' : R)
    (w : World) :
  resume (world_after_download post user r' w) = resume w /\
  downloaded_posts (world_after_download post user r' w) =
  if resume w then {[KStr (shortcode post)]} ∪ downloaded_posts w
  else downloaded_posts w.
Proof.
  unfold world_after_download. destruct (resume w) eqn:Hon; [| by split].
  match goal with
  | |- context [world_after_save user ?s ?w1] =>
      destruct (world_after_save_fields user s w1) as [-> ->]
  end.
  by split.
Qed.

(** X15. With resume on, a post that was just downloaded is skipped
    when it is met again in the same run, under whichever user name:
    the second attempt gives (0, 0, 1), calls nothing and changes
    nothing, whether or not the progress file could be written. *)
Theorem downloaded_post_is_skipped_when_met_again (post again : Post)
    (user user' : string) (w : World) (r' : R) :
  resume w = true ->
  KStr (shortcode post) ∉ downloaded_posts w ->
  glob provider user "posts" (shortcode post) (remote w) = [] ->
  loader_download_post provider "posts" post user (remote w) = (inr tt, r') ->
  shortcode again = shortcode post ->
  let w1 := snd (_download_post post user w) in
  _download_post again user' w1 = (Ok (0, 0, 1), w1).
Proof.
  intros Hon Hnew Hfiles Hdl Hsame w1. subst w1.
  rewrite (download_post_success post user w r' (or_intror Hnew) Hfiles Hdl).
  cbn [snd].
  destruct (world_after_download_ledger post user r' w) as [Hres Hledger].
  rewrite Hon in Hres, Hledger.
  apply download_post_ledger_hit; [exact Hres |].
  rewrite Hledger, Hsame. apply elem_of_union_l. by apply elem_of_singleton.
Qed.

(** X16. A post downloaded with resume on is skipped by the next run
    over the same output directory: when the progress file can be
    written and the ledger holds shortcodes, a new downloader made for
    that directory loads the user's progress file, starts from exactly
    the ledger the previous run ended with, reports a resumed run, and
    gives (0, 0, 1) for that post without calling anything.  A new
    downloader made for another directory, under which the user has no
    progress file, starts from the empty ledger. *)
Theorem downloaded_post_is_skipped_by_the_next_run (post : Post)
    (user : string) (w : World) (r' : R) (n : Z) :
  resume w = true ->
  KStr (shortcode post) ∉ downloaded_posts w ->
  glob provider user "posts" (shortcode post) (remote w) = [] ->
  loader_download_post provider "posts" post user (remote w) = (inr tt, r') ->
  write_modes w (progress_path w user) = WriteOk ->
  (forall k, k ∈ downloaded_posts w -> exists s, k = KStr s) ->
  let w1 := snd (_download_post post user w) in
  (exists w3 : World,
     load_block user (__init__ (output_dir w) n true w1) = (Ok true, w3) /\
     downloaded_posts w3 = {[KStr (shortcode post)]} ∪ downloaded_posts w /\
     _download_post post user w3 = (Ok (0, 0, 1), w3)) /\
  (forall dir : list string,
     dir <> output_dir w ->
     progress_file (__init__ dir n true w) user = None ->
     exists w3 : World,
       load_block user (__init__ dir n true w1) = (Ok false, w3) /\
       downloaded_posts w3 = ∅).
Proof.
  intros Hon Hnew Hfiles Hdl Hmode Hstr w1. subst w1.
  rewrite (download_post_success post user w r' (or_intror Hnew) Hfiles Hdl).
  cbn [snd]. unfold world_after_download. rewrite Hon.
  set (ledger := {[KStr (shortcode post)]} ∪ downloaded_posts w).
  set (w1 := set_downloaded_posts ledger
               (advance r' [EvCall "download_post" (shortcode post)] w)).
  split.
  - destruct (save_writes_full_set user ledger w1) as (ts & l & Hfile & Hl).
    { exact Hmode. }
    { intros k [Hk | Hk]%elem_of_union; [| by apply Hstr].
      apply elem_of_singleton in Hk. by eexists. }
    assert (Hsame : progress_file
              (__init__ (output_dir w) n true (world_after_save user ledger w1))
              user
            = Some (FJson (progress_data user ts l))).
    { rewrite <- Hfile. unfold progress_file, progress_path. f_equal.
      unfold world_after_save. by destruct (file_after_save user ledger w1). }
    assert (Hin : KStr (shortcode post) ∈ ledger).
    { apply elem_of_union_l. by apply elem_of_singleton. }
    assert (Hsize : (0 <? Z.of_nat (size ledger)) = true).
    { apply Z.ltb_lt. destruct (size ledger) eqn:Hs; [| lia].
      apply size_empty_inv in Hs. exfalso.
      apply (not_elem_of_empty (C := gset pykey) (KStr (shortcode post))).
      by rewrite <- Hs. }
    eexists. split; [| split].
    + unfold load_block, bind at 1, get_world at 1. cbn [__init__ resume].
      unfold bind at 1. rewrite load_progress_run, Hsame.
      rewrite ledger_of_progress_data, Hl.
      unfold bind, modify, ret. cbn. rewrite Hsize. reflexivity.
    + reflexivity.
    + apply download_post_ledger_hit; [reflexivity | exact Hin].
  - intros dir Hdir Hnone.
    assert (Hother : progress_file
              (__init__ dir n true (world_after_save user ledger w1)) user
            = None).
    { rewrite <- Hnone. unfold progress_file, progress_path.
      cbn [__init__ output_dir progress_files].
      unfold world_after_save.
      destruct (file_after_save user ledger w1) as [f |]; [| reflexivity].
      cbn [progress_files set_progress_files]. apply lookup_insert_ne.
      unfold progress_path. cbn [output_dir set_downloaded_posts advance].
      intros Heq. apply app_inv_tail in Heq. by apply Hdir. }
    eexists. split.
    + unfold load_block, bind at 1, get_world at 1. cbn [__init__ resume].
      unfold bind at 1. rewrite load_progress_run, Hother.
      unfold bind, modify, ret. cbn. reflexivity.
    + reflexivity.
Qed.

Lemma download_post_ledger (post : Post) (user : string) (w : World) :
  downloaded_posts (snd (_download_post post user w)) = downloaded_posts w \/
  downloaded_posts (snd (_download_post post user w)) =
  {[KStr (shortcode post)]} ∪ downloaded_posts w.
Proof.
  assert (Hcases : (resume w = true /\ KStr (shortcode post) ∈ downloaded_posts w)
                   \/ (resume w = false \/ KStr (shortcode post) ∉ downloaded_posts w)).
  { destruct (resume w); [| by right; left].
    destruct (decide (KStr (shortcode post) ∈ downloaded_posts w));
      [by left | by right; right]. }
  destruct Hcases as [[Hon Hin] | Hmiss].
  - left. by rewrite download_post_ledger_hit.
  - destruct (glob provider user "posts" (shortcode post) (remote w))
      as [| file files] eqn:Hfiles.
    + destruct (loader_download_post provider "posts" post user (remote w))
        as [[e | []] r'] eqn:Hdl.
      * left. by rewrite (download_post_failure post user w r' e Hmiss Hfiles Hdl).
      * rewrite (download_post_success post user w r' Hmiss Hfiles Hdl).
        cbn [snd].
        destruct (world_after_download_ledger post user r' w) as [_ ->].
        destruct (resume w); [by right | by left].
    + left. rewrite download_post_existing_files; [done | done |].
      by rewrite Hfiles.
Qed.

Lemma sequential_loop_ledger (user : string) (posts : list Post) :
  forall (results : list counts) (w : World),
    downloaded_posts w ⊆
      downloaded_posts (snd (sequential_loop _download_post posts user results w)) /\
    downloaded_posts (snd (sequential_loop _download_post posts user results w))
      ⊆ downloaded_posts w ∪ keys_of posts.
Proof.
  induction posts as [| post rest IH]; intros results w.
  - simpl. split; [done |]. apply union_subseteq_l.
  - assert (Hstep : forall w',
              snd (_download_post post user w) = w' ->
              downloaded_posts w ⊆ downloaded_posts w' /\
              downloaded_posts w' ⊆ downloaded_posts w ∪ keys_of (post :: rest)).
    { intros w' <-. unfold keys_of. rewrite fmap_cons. cbn [list_to_set].
      destruct (download_post_ledger post user w) as [-> | ->].
      - split; [done |]. apply union_subseteq_l.
      - split; [apply union_subseteq_r |].
        intros k [Hk | Hk]%elem_of_union.
        + apply elem_of_union_r, elem_of_union_l, Hk.
        + by apply elem_of_union_l. }
    assert (Hrest : forall results' w',
              snd (_download_post post user w) = w' ->
              downloaded_posts w ⊆
                downloaded_posts
                  (snd (sequential_loop _download_post rest user results' w')) /\
              downloaded_posts
                (snd (sequential_loop _download_post rest user results' w'))
                ⊆ downloaded_posts w ∪ keys_of (post :: rest)).
    { intros results' w' Hw'. destruct (Hstep w' Hw') as [Hlow Hup].
      destruct (IH results' w') as [Hlow' Hup']. split.
      - by transitivity (downloaded_posts w').
      - transitivity (downloaded_posts w' ∪ keys_of rest); [exact Hup' |].
        apply union_least; [exact Hup |].
        unfold keys_of. rewrite fmap_cons. cbn [list_to_set].
        intros k Hk. by apply elem_of_union_r, elem_of_union_r. }
    destruct (_download_post post user w) as [[c | e] w'] eqn:Hdl.
    + rewrite (sequential_loop_ok _ _ _ _ _ _ _ _ Hdl). by apply Hrest.
    + rewrite (sequential_loop_raise _ _ _ _ _ _ _ _ Hdl).
      destruct (is_ConnectionException e || is_OSError e
                || is_ProfileNotExistsException e
                || is_PrivateProfileNotFollowedException e);
        [by apply Hstep | by apply Hrest].
Qed.

(** X17. The single-worker scheduler only adds to the in-memory
    ledger, and only shortcodes of the posts it was given: every key
    of the ledger before is in the ledger after, and every key after is
    a key from before or the shortcode of one of the posts, whether the
    run ends normally or is stopped by an error. *)
Theorem scheduler_only_adds_given_shortcodes (posts : list Post) (user : string)
    (w : World) :
  max_workers w = 1 ->
  let w' := snd (_download_posts_parallel posts user w) in
  downloaded_posts w ⊆ downloaded_posts w' /\
  downloaded_posts w' ⊆ downloaded_posts w ∪ keys_of posts /\
  (forall k, k ∈ downloaded_posts w' -> k ∉ downloaded_posts w ->
             exists post, post ∈ posts /\ k = KStr (shortcode post)).
Proof.
  intros Hone w'. subst w'.
  assert (Hrun : _download_posts_parallel posts user w
                 = sequential_loop _download_post posts user [] w).
  { unfold _download_posts_parallel, bind, get_world. by rewrite Hone. }
  rewrite Hrun.
  destruct (sequential_loop_ledger user posts [] w) as [Hlow Hup].
  split; [exact Hlow |]. split; [exact Hup |].
  intros k Hk Hnot. apply Hup in Hk.
  apply elem_of_union in Hk as [Hk | Hk]; [contradiction |].
  unfold keys_of in Hk. apply elem_of_list_to_set, list_elem_of_fmap in Hk.
  destruct Hk as (post & -> & Hpost). by exists post.
Qed.

(** ** The order of the saved ledger *)

Lemma py_sorted_strings_sorted (l : list pykey) :
  Forall (fun k => exists s, k = KStr s) l ->
  exists ss, py_sorted l = inr (KStr <$> ss) /\ Sorted String.le ss.
Proof.
  intros Hall. unfold py_sorted.
  destruct l as [| k1 [| k2 l]].
  - exists []. split; [reflexivity | constructor].
  - apply Forall_cons in Hall as [[s ->] _]. exists [s].
    split; [reflexivity | repeat constructor].
  - assert (Hs : exists ss, mapM key_str (k1 :: k2 :: l) = Some ss).
    { induction Hall as [| k l' [x ->] _ [ss IH]]; [by exists [] |].
      exists (x :: ss). rewrite mapM_Some in *. by constructor. }
    destruct Hs as [ss ->]. exists (merge_sort String.le ss).
    split; [reflexivity |]. apply (Sorted_merge_sort String.le).
Qed.

(** X18. A save that goes through writes the shortcodes in ascending
    order and without repetition: the array "downloaded_posts" of the
    progress file is a sorted, duplicate-free list of exactly the keys
    of the set, so the file does not depend on the order in which the
    posts were downloaded. *)
Theorem saved_ledger_is_sorted (user : string) (posts : gset pykey) (w : World) :
  write_modes w (progress_path w user) = WriteOk ->
  (forall k, k ∈ posts -> exists s, k = KStr s) ->
  exists (ss : list string) (ts : string),
    progress_file (snd (_save_progress user posts w)) user
      = Some (FJson (progress_data user ts (KStr <$> ss))) /\
    Sorted String.le ss /\
    NoDup ss /\
    (forall s, s ∈ ss <-> KStr s ∈ posts).
Proof.
  intros Hmode Hstr.
  destruct (py_sorted_strings_sorted (elements posts)) as (ss & Hsort & Hsorted).
  { apply Forall_forall. intros k Hk. apply Hstr. by apply elem_of_elements. }
  exists ss, (isoformat provider (now provider (remote w))).
  pose proof (py_sorted_Permutation _ _ Hsort) as Hperm.
  split; [| split; [exact Hsorted | split]].
  - rewrite save_progress_run. cbn [snd].
    unfold progress_file, world_after_save, file_after_save.
    rewrite Hmode, Hsort.
    cbn [progress_files set_progress_files]. apply lookup_insert_eq.
  - apply (NoDup_fmap_1 KStr). rewrite Hperm. apply NoDup_elements.
  - intros s. rewrite <- elem_of_elements, <- Hperm. split.
    + intros Hs. apply list_elem_of_fmap. by exists s.
    + intros (s' & [= ->] & Hs)%list_elem_of_fmap. exact Hs.
Qed.

Lemma mapM_key_str_all (l : list pykey) (ss : list string) (k : pykey) :
  mapM key_str l = Some ss -> k ∈ l -> exists s, k = KStr s.
Proof.
  intros Hs Hk. apply mapM_key_str in Hs. subst l.
  apply list_elem_of_fmap in Hk as (s & -> & _). by exists s.
Qed.

Lemma mapM_key_int_all (l : list pykey) (ns : list Z) (k : pykey) :
  mapM key_int l = Some ns -> k ∈ l -> exists n, k = KInt n.
Proof.
  intros Hs Hk. apply mapM_key_int in Hs. subst l.
  apply list_elem_of_fmap in Hk as (m & -> & _). by exists m.
Qed.

(** X19. A ledger that mixes kinds of keys (a string with a number or
    with null, as a progress file edited by hand can give) is never
    written back: sorting it fails, [_save_progress] swallows the
    failure, returns normally and leaves every progress file as it
    was, whatever the write mode. *)
Theorem mixed_ledger_is_never_written (user : string) (posts : gset pykey)
    (w : World) (k1 k2 : pykey) :
  k1 ∈ posts -> k2 ∈ posts -> same_kind k1 k2 = false ->
  _save_progress user posts w = (Ok tt, add_event (EvPersist user) w) /\
  progress_files (snd (_save_progress user posts w)) = progress_files w.
Proof.
  intros H1 H2 Hkind.
  assert (Hsort : exists e, py_sorted (elements posts) = inl e).
  { apply elem_of_elements in H1, H2. unfold py_sorted.
    destruct (elements posts) as [| a [| b l]] eqn:Hel.
    - by apply elem_of_nil in H1.
    - apply list_elem_of_singleton in H1, H2. subst. by destruct a.
    - destruct (mapM key_str (a :: b :: l)) as [ss |] eqn:Hs.
      { destruct (mapM_key_str_all _ _ _ Hs H1) as [s1 ->].
        destruct (mapM_key_str_all _ _ _ Hs H2) as [s2 ->]. discriminate. }
      destruct (mapM key_int (a :: b :: l)) as [ns |] eqn:Hn.
      { destruct (mapM_key_int_all _ _ _ Hn H1) as [n1 ->].
        destruct (mapM_key_int_all _ _ _ Hn H2) as [n2 ->]. discriminate. }
      by eexists. }
  destruct Hsort as [e Hsort].
  assert (Hrun : _save_progress user posts w
                 = (Ok tt, add_event (EvPersist user) w)).
  { rewrite save_progress_run. unfold world_after_save, file_after_save.
    rewrite Hsort. by destruct (write_modes w (progress_path w user)). }
  split; [exact Hrun |]. by rewrite Hrun.
Qed.

(** ** The stories and reels loops *)

Lemma story_item_step (item : StoryItem) (user : string) (acc : Z * Z)
    (w : World) :
  exists acc' : Z * Z,
    try_except
      (call "download_storyitem" (item_id item)
            (loader_download_storyitem provider item user) ;;;
       if item_is_video item then ret (fst acc, snd acc + 1)
       else ret (fst acc + 1, snd acc))
      (fun _ => ret acc) w
    = (Ok acc',
       advance (snd (loader_download_storyitem provider item user (remote w)))
               [EvCall "download_storyitem" (item_id item)] w) /\
    fst acc <= fst acc' /\ snd acc <= snd acc' /\
    fst acc' + snd acc' <= fst acc + snd acc + 1.
Proof.
  unfold try_except, bind. rewrite call_advance.
  destruct (fst (loader_download_storyitem provider item user (remote w)))
    as [e | []]; [| destruct (item_is_video item)];
    eexists; (split; [reflexivity | simpl; lia]).
Qed.

Lemma story_items_loop_all (user : string) (items : list StoryItem) :
  forall (acc : Z * Z) (w : World),
    exists (acc' : Z * Z) (w' : World),
      story_items_loop (inr <$> items) user acc w = (Ok acc', w') /\
      count_calls (events w') = (count_calls (events w) + length items)%nat /\
      fst acc <= fst acc' /\ snd acc <= snd acc' /\
      fst acc' + snd acc' <= fst acc + snd acc + len items.
Proof.
  induction items as [| item rest IH]; intros acc w.
  - exists acc, w. unfold len. simpl. repeat split; lia.
  - rewrite fmap_cons. cbn [story_items_loop]. unfold bind at 1.
    destruct (story_item_step item user acc w) as (acc1 & -> & H1 & H2 & H3).
    match goal with
    | |- context [story_items_loop _ user acc1 ?w1] =>
        destruct (IH acc1 w1) as (acc' & w' & -> & Hc & H4 & H5 & H6)
    end.
    exists acc', w'. split; [reflexivity |].
    unfold advance in Hc. cbn [events] in Hc.
    rewrite count_calls_app in Hc. simpl in Hc.
    unfold len in *. simpl length. repeat split; lia.
Qed.

Lemma story_items_loop_Raise (user : string) (items : Story) :
  forall (acc : Z * Z) (w : World) (e : exn),
    fst (story_items_loop items user acc w) = Raise e -> inl e ∈ items.
Proof.
  induction items as [| [e' | item] rest IH]; intros acc w e H.
  - discriminate.
  - injection H as <-. apply list_elem_of_here.
  - cbn [story_items_loop] in H. unfold bind at 1 in H.
    destruct (story_item_step item user acc w) as (acc1 & Hstep & _).
    rewrite Hstep in H. apply list_elem_of_further. by eapply IH.
Qed.

Lemma story_items_loop_mono (user : string) (items : Story) :
  forall (acc acc' : Z * Z) (w w' : World),
    story_items_loop items user acc w = (Ok acc', w') ->
    fst acc <= fst acc' /\ snd acc <= snd acc'.
Proof.
  induction items as [| [e' | item] rest IH]; intros acc acc' w w' H.
  - injection H as <- <-. lia.
  - discriminate.
  - cbn [story_items_loop] in H. unfold bind at 1 in H.
    destruct (story_item_step item user acc w) as (acc1 & Hstep & H1 & H2 & _).
    rewrite Hstep in H. apply IH in H. lia.
Qed.

Lemma stories_loop_mono (user : string) (stories : list (exn + Story)) :
  forall (acc acc' : Z * Z) (w w' : World),
    stories_loop stories user acc w = (Ok acc', w') ->
    fst acc <= fst acc' /\ snd acc <= snd acc'.
Proof.
  induction stories as [| [e' | story] rest IH]; intros acc acc' w w' H.
  - injection H as <- <-. lia.
  - discriminate.
  - cbn [stories_loop] in H. apply bind_Ok in H as (acc1 & w1 & Hitems & H).
    apply story_items_loop_mono in Hitems. apply IH in H. lia.
Qed.

(** X20. Inside a story every item is attempted: a download that
    fails, with whatever error, never stops the loop.  Over items that
    the iterator yields without raising, the loop returns, makes
    exactly one download call per item, and raises each counter by at
    most the number of items; and the only errors that leave the loop
    are errors raised by the iterator itself. *)
Theorem every_story_item_is_attempted (items : list StoryItem) (its : Story)
    (user : string) (acc : Z * Z) (w : World) :
  (exists (acc' : Z * Z) (w' : World),
     story_items_loop (inr <$> items) user acc w = (Ok acc', w') /\
     count_calls (events w') = (count_calls (events w) + length items)%nat /\
     fst acc <= fst acc' /\ snd acc <= snd acc' /\
     fst acc' + snd acc' <= fst acc + snd acc + len items) /\
  (forall e, fst (story_items_loop its user acc w) = Raise e -> inl e ∈ its).
Proof.
  split; [apply story_items_loop_all | intros e; apply story_items_loop_Raise].
Qed.

(** X21. The reels phase leaves posts that are not reels alone: over
    posts none of which is a reel its loop returns the count it started
    with, calls nothing and changes nothing. *)
Theorem reels_loop_skips_other_posts (ps : list Post) (user : string)
    (videos_count : Z) (w : World) :
  Forall (fun p => _is_reel p = false) ps ->
  reels_loop (inr <$> ps) user videos_count w = (Ok videos_count, w).
Proof.
  induction 1 as [| p ps Hp _ IH]; [reflexivity |].
  rewrite fmap_cons. cbn [reels_loop]. rewrite Hp. exact IH.
Qed.

Lemma try_except_Ok {A} (m : M A) (h : exn -> M A) (w w' : World) (a : A) :
  try_except m h w = (Ok a, w') ->
  m w = (Ok a, w') \/ exists e w1, m w = (Raise e, w1) /\ h e w1 = (Ok a, w').
Proof.
  unfold try_except. destruct (m w) as [[a' | e] w1] eqn:Hm; intros H.
  - by left.
  - right. by exists e, w1.
Qed.

Lemma reels_loop_mono (user : string) (posts : list (exn + Post)) :
  forall (v v' : Z) (w w' : World),
    reels_loop posts user v w = (Ok v', w') -> v <= v'.
Proof.
  induction posts as [| [e' | post] rest IH]; intros v v' w w' H.
  - injection H as <- <-. lia.
  - discriminate.
  - cbn [reels_loop] in H. apply bind_Ok in H as (v1 & w1 & Hstep & H).
    apply IH in H. enough (v <= v1) by lia. clear H IH.
    apply try_except_Ok in Hstep as [Hbody | (e & w2 & _ & Hh)].
    + destruct (negb (_is_reel post)); [injection Hbody as <- <-; lia |].
      apply bind_Ok in Hbody as (w0 & w0' & Hget & Hbody).
      injection Hget as <- <-.
      destruct (resume w && _is_already_downloaded w (shortcode post));
        [injection Hbody as <- <-; lia |].
      destruct (negb (is_empty (glob provider user "reels" (shortcode post)
                                  (remote w))));
        [injection Hbody as <- <-; lia |].
      apply bind_Ok in Hbody as ([] & w3 & _ & Hbody).
      apply bind_Ok in Hbody as (w4 & w4' & _ & Hbody).
      apply bind_Ok in Hbody as ([] & w5 & _ & Hbody).
      injection Hbody as <- <-. lia.
    + destruct (is_ConnectionException e); [discriminate |].
      destruct (is_OSError e).
      * destruct (errno_is e ENOSPC); [discriminate |].
        destruct (errno_is e EACCES); [discriminate |].
        injection Hh as <- <-. lia.
      * injection Hh as <- <-. lia.
Qed.

Lemma phase_handler_Ok (e : exn) (w w' : World) (r : Z * Z) :
  phase_handler e w = (Ok r, w') -> r = (0, 0).
Proof.
  unfold phase_handler.
  repeat match goal with
         | |- context [if ?b then _ else _] => destruct b
         end; intros H; try discriminate; by injection H as <- <-.
Qed.

Lemma download_stories_counts (user : string) (w w' : World) (r : Z * Z) :
  download_stories user w = (Ok r, w') -> 0 <= fst r /\ 0 <= snd r.
Proof.
  unfold download_stories. intros H.
  apply try_except_Ok in H as [H | (e & w1 & _ & H)].
  - apply bind_Ok in H as ([] & w1 & _ & H).
    apply bind_Ok in H as (profile & w2 & _ & H).
    apply bind_Ok in H as (it & w3 & _ & H).
    apply stories_loop_mono in H. simpl in H. lia.
  - apply phase_handler_Ok in H as ->. simpl. lia.
Qed.

Lemma download_reels_counts (user : string) (w w' : World) (r : Z * Z) :
  download_reels user w = (Ok r, w') -> fst r = 0 /\ 0 <= snd r.
Proof.
  unfold download_reels. intros H.
  apply try_except_Ok in H as [H | (e & w1 & _ & H)].
  - apply bind_Ok in H as ([] & w1 & _ & H).
    apply bind_Ok in H as (profile & w2 & _ & H).
    apply bind_Ok in H as (w3 & w3' & _ & H).
    apply bind_Ok in H as (v & w4 & Hloop & H).
    injection H as <- <-. apply reels_loop_mono in Hloop. simpl. lia.
  - apply phase_handler_Ok in H as ->. simpl. lia.
Qed.

(** ** The bounds of the statistics *)

Lemma download_post_counts (post : Post) (user : string) (w w' : World)
    (c : counts) :
  _download_post post user w = (Ok c, w') -> counted c.
Proof.
  assert (Hcases : (resume w = true /\ KStr (shortcode post) ∈ downloaded_posts w)
                   \/ (resume w = false \/ KStr (shortcode post) ∉ downloaded_posts w)).
  { destruct (resume w); [| by right; left].
    destruct (decide (KStr (shortcode post) ∈ downloaded_posts w));
      [by left | by right; right]. }
  unfold counted. destruct Hcases as [[Hon Hin] | Hmiss].
  - rewrite download_post_ledger_hit by done. intros [= <- <-]. simpl. lia.
  - destruct (glob provider user "posts" (shortcode post) (remote w))
      as [| file files] eqn:Hfiles.
    + destruct (loader_download_post provider "posts" post user (remote w))
        as [[e | []] r'] eqn:Hdl.
      * rewrite (download_post_failure post user w r' e Hmiss Hfiles Hdl).
        destruct (is_ConnectionException e || errno_is e ENOSPC
                  || errno_is e EACCES); [discriminate |].
        intros [= <- <-]. simpl. lia.
      * rewrite (download_post_success post user w r' Hmiss Hfiles Hdl).
        intros [= <- <-]. unfold media_counts, len.
        destruct (is_video post); [simpl; lia |].
        destruct (String.eqb (typename post) "GraphSidecar"); simpl; lia.
    + rewrite download_post_existing_files; [| done | by rewrite Hfiles].
      intros [= <- <-]. rewrite Hfiles. unfold len. simpl. lia.
Qed.

Lemma sequential_loop_counts (user : string) (posts : list Post) :
  forall (results results' : list counts) (w w' : World),
    Forall counted results ->
    sequential_loop _download_post posts user results w = (Ok results', w') ->
    Forall counted results'.
Proof.
  induction posts as [| post rest IH]; intros results results' w w' Hall H.
  - by injection H as <- <-.
  - destruct (_download_post post user w) as [[c | e] w1] eqn:Hdl.
    + rewrite (sequential_loop_ok _ _ _ _ _ _ _ _ Hdl) in H.
      apply IH in H; [exact H |]. apply Forall_app. split; [exact Hall |].
      constructor; [| constructor]. by eapply download_post_counts.
    + rewrite (sequential_loop_raise _ _ _ _ _ _ _ _ Hdl) in H.
      destruct (is_ConnectionException e || is_OSError e
                || is_ProfileNotExistsException e
                || is_PrivateProfileNotFollowedException e); [discriminate |].
      apply IH in H; [exact H |]. apply Forall_app. split; [exact Hall |].
      constructor; [| constructor]. unfold counted. simpl. lia.
Qed.

(** *** What a pool returns *)

Lemma thread_returns_atomic {A} (P : A -> Prop) (m : M A) :
  (forall w, returns_ok P (fst (m w))) -> thread_returns P (atomic m).
Proof. intros Hm w. apply Hm. Qed.

Lemma thread_returns_tbind {A B} (P : B -> Prop) (t : thread A)
    (k : A -> thread B) :
  (forall a, thread_returns P (k a)) -> thread_returns P (tbind t k).
Proof.
  intros Hk. induction t as [[a | e] | next IH effect]; simpl; auto.
Qed.

Lemma thread_returns_ttry {A} (P : A -> Prop) (t : thread A)
    (handler : exn -> thread A) :
  thread_returns P t -> (forall e, thread_returns P (handler e)) ->
  thread_returns P (ttry t handler).
Proof.
  intros Ht Hh. induction t as [[a | e] | next IH effect]; simpl; auto.
Qed.

Lemma run_thread_returns {A} (P : A -> Prop) (t : thread A) :
  thread_returns P t -> forall w, returns_ok P (fst (run_thread t w)).
Proof.
  induction t as [r | next IH effect]; simpl; intros Ht w; [exact Ht |].
  by apply IH.
Qed.

Section PoolResults.

Context {T A S : Type}.
Variable handle : S -> T -> res A -> World -> exn + S.
Variable P : A -> Prop.
Variable Q : S -> Prop.
Hypothesis handle_returns :
  forall s task r w s',
    Q s -> returns_ok P r -> handle s task r w = inr s' -> Q s'.

Lemma perform_returns (a : action) (p : pool T A S) (w : World) :
  pool_returns P Q p -> pool_returns P Q (fst (perform handle a p w)).
Proof.
  intros (Hpending & Hrunning & Hcompleted & Hlocals).
  destruct a as [i | |]; simpl.
  - destruct (running p !! i) as [[task [r | next effect]] |] eqn:Hi; simpl.
    + pose proof (Forall_lookup_1 _ _ _ _ Hrunning Hi) as Hr.
      repeat split; auto; [by apply Forall_delete |].
      apply Forall_app. split; [exact Hcompleted | by constructor].
    + pose proof (Forall_lookup_1 _ _ _ _ Hrunning Hi) as Hnext.
      repeat split; auto. apply Forall_insert; [exact Hrunning | apply Hnext].
    + by repeat split.
  - destruct (pending p) as [| first rest] eqn:Hp; simpl.
    + repeat split; auto. by rewrite Hp.
    + apply Forall_cons in Hpending as [Hfirst Hrest].
      repeat split; auto.
      apply Forall_app. split; [exact Hrunning | by constructor].
  - destruct (completed p) as [| [task r] rest] eqn:Hc; simpl.
    + repeat split; auto. by rewrite Hc.
    + apply Forall_cons in Hcompleted as [Hr Hrest].
      destruct (handle (locals p) task r w) as [e | s] eqn:Hh; simpl.
      * by repeat split.
      * repeat split; auto. by eapply handle_returns.
Qed.

Lemma run_pool_returns (n : Z) (schedule : list nat) :
  forall (p : pool T A S) (w : World),
    pool_returns P Q p ->
    pool_returns P Q (fst (run_pool handle n schedule p w)).
Proof.
  induction schedule as [| choice rest IH]; intros p w Hp; simpl;
    [exact Hp |].
  destruct (enabled n p) as [| a others]; simpl; [exact Hp |].
  match goal with
  | |- context [perform handle ?chosen p w] =>
      pose proof (perform_returns chosen p w Hp) as Hp';
      destruct (perform handle chosen p w) as [p' w']
  end.
  by apply IH.
Qed.

Lemma finish_running_returns (tasks : list (T * thread A)) :
  Forall (fun task => thread_returns P (snd task)) tasks ->
  forall w,
    Forall (fun future => returns_ok P (snd future))
           (fst (finish_running tasks w)).
Proof.
  induction 1 as [| [task t] rest Ht _ IH]; intros w; simpl; [constructor |].
  pose proof (run_thread_returns P t Ht w) as Hr.
  destruct (run_thread t w) as [r w1]. specialize (IH w1).
  destruct (finish_running rest w1) as [done w2]. by constructor.
Qed.

Lemma take_all_returns (futures : list (T * res A)) :
  Forall (fun future => returns_ok P (snd future)) futures ->
  forall s w s', Q s -> take_all handle futures s w = inr s' -> Q s'.
Proof.
  induction 1 as [| [task r] rest Hr _ IH]; intros s w s' Hs; simpl.
  - by intros [= <-].
  - destruct (handle s task r w) as [e | s1] eqn:Hh; [discriminate |].
    apply IH. by eapply handle_returns.
Qed.

Lemma run_pending_returns (tasks : list (T * thread A)) :
  Forall (fun task => thread_returns P (snd task)) tasks ->
  forall s w s' w',
    Q s -> run_pending handle tasks s w = (Ok s', w') -> Q s'.
Proof.
  induction 1 as [| [task t] rest Ht _ IH]; intros s w s' w' Hs; simpl.
  - by intros [= <- <-].
  - pose proof (run_thread_returns P t Ht w) as Hr.
    destruct (run_thread t w) as [r w1].
    destruct (handle s task r w1) as [e | s1] eqn:Hh; [discriminate |].
    apply IH. by eapply handle_returns.
Qed.

Lemma thread_pool_returns (n : Z) (tasks : list (T * thread A)) (s s' : S)
    (w w' : World) :
  Forall (fun task => thread_returns P (snd task)) tasks ->
  Q s ->
  thread_pool n tasks handle s w = (Ok s', w') ->
  Q s'.
Proof.
  intros Htasks Hs. unfold thread_pool.
  destruct (n <=? 0); [discriminate |].
  pose proof (run_pool_returns n (thread_schedule provider (remote w))
                (mkPool tasks [] [] s None) w) as Hp.
  destruct (run_pool handle n (thread_schedule provider (remote w))
              (mkPool tasks [] [] s None) w) as [p w1].
  destruct Hp as (Hpending & Hrunning & Hcompleted & Hlocals);
    [by repeat split |].
  simpl in *. unfold drain.
  pose proof (finish_running_returns _ Hrunning w1) as Hdone.
  destruct (finish_running (running p) w1) as [done w2]. simpl in Hdone.
  destruct (stopped p); [discriminate |].
  destruct (take_all handle (completed p ++ done) (locals p) w2) as [e | s1]
    eqn:Htake; [discriminate |].
  apply run_pending_returns; [exact Hpending |].
  eapply take_all_returns; [| exact Hlocals | exact Htake].
  apply Forall_app. by split.
Qed.

End PoolResults.

Lemma media_counts_counted (post : Post) :
  counted (fst (media_counts post), snd (media_counts post), 0).
Proof.
  unfold counted, media_counts, len.
  destruct (is_video post); [simpl; lia |].
  destruct (String.eqb (typename post) "GraphSidecar"); simpl; lia.
Qed.

Lemma download_post_task_counts (post : Post) (user : string) :
  thread_returns counted (_download_post_task post user).
Proof.
  unfold _download_post_task. apply thread_returns_ttry.
  - apply thread_returns_tbind. intros [|]; [unfold counted; simpl; lia |].
    apply thread_returns_tbind. intros existing_files.
    destruct (negb (is_empty existing_files));
      [unfold counted, len; simpl; lia |].
    apply thread_returns_tbind. intros [].
    pose proof (media_counts_counted post) as Hc.
    destruct (media_counts post) as [images_count videos_count].
    apply thread_returns_tbind. intros []. exact Hc.
  - intros e.
    repeat match goal with
           | |- context [if ?b then _ else _] => destruct b
           end; simpl; try exact I; unfold counted; simpl; lia.
Qed.

Lemma collect_result_counts (results : list counts) (post : Post)
    (r : res counts) (w : World) (results' : list counts) :
  Forall counted results -> returns_ok counted r ->
  collect_result results post r w = inr results' ->
  Forall counted results'.
Proof.
  intros Hall Hr. unfold collect_result.
  assert (Hzero : Forall counted (results ++ [(0, 0, 0)])).
  { apply Forall_app. split; [exact Hall |].
    constructor; [unfold counted; simpl; lia | constructor]. }
  destruct r as [result | e].
  - intros [= <-]. apply Forall_app. split; [exact Hall | by constructor].
  - repeat match goal with
           | |- context [if ?b then _ else _] => destruct b
           end; try discriminate; by intros [= <-].
Qed.

Lemma download_posts_parallel_counts (posts : list Post) (user : string)
    (w w' : World) (results : list counts) :
  _download_posts_parallel posts user w = (Ok results, w') ->
  Forall counted results.
Proof.
  unfold _download_posts_parallel, bind at 1, get_world at 1.
  destruct (max_workers w =? 1).
  - apply sequential_loop_counts. constructor.
  - apply (thread_pool_returns collect_result counted (Forall counted)).
    + intros s task r w0 s'. apply collect_result_counts.
    + apply Forall_fmap, Forall_forall. intros post _.
      apply download_post_task_counts.
    + constructor.
Qed.

Lemma sum_results_counted (results : list counts) :
  Forall counted results ->
  forall acc, counted acc -> counted (sum_results results acc).
Proof.
  induction 1 as [| [[i v] k] results Hc _ IH]; intros [[a b] c] Hacc;
    [exact Hacc |].
  cbn [sum_results]. apply IH. unfold counted in *. simpl in *. lia.
Qed.

Lemma create_output_directory_Ok (user : string) (w w' : World)
    (user_dir : list string) :
  _create_output_directory user w = (Ok user_dir, w') ->
  user_dir = output_dir w ++ [user].
Proof.
  unfold _create_output_directory. intros H.
  apply try_except_Ok in H as [H | (e & w1 & _ & H)].
  - apply bind_Ok in H as ([] & w1 & Hmk & H).
    apply bind_Ok in H as (w2 & w2' & Hget & H).
    injection Hget as <- <-. injection H as <- <-.
    unfold outside in Hmk.
    destruct (mkdir provider user "posts" (remote w)) as [[e | []] r];
      [discriminate |].
    by injection Hmk as <-.
  - repeat match type of H with
           | context [if ?b then _ else _] => destruct b
           end; discriminate.
Qed.

(** X22. The statistics a run returns are bounded: no count is
    negative, the number of posts is at most the limit given, a phase
    that is switched off contributes nothing, and the error count is
    the number of phases (stories, reels) that raised, so it is never
    above the number of phases switched on, however many posts failed;
    the user name and the user directory are those of the request.
    This holds for one worker and for a pool of workers, whichever way
    the steps of its tasks interleave. *)
Theorem run_statistics_are_bounded (user : string) (max_posts : option Z)
    (include_stories include_reels : bool) (w w' : World) (stats : DownloadStats) :
  download_user_media user max_posts include_stories include_reels w
    = (Ok stats, w') ->
  username stats = user /\
  output_directory stats = output_dir w ++ [user] /\
  0 <= total_posts stats /\
  (forall m, max_posts = Some m -> total_posts stats <= Z.max m 0) /\
  0 <= downloaded_images stats /\ 0 <= downloaded_videos stats /\
  0 <= skipped_files stats /\
  0 <= stories_downloaded stats /\ 0 <= reels_downloaded stats /\
  0 <= errors stats <= Z.b2z include_stories + Z.b2z include_reels /\
  (include_stories = false -> stories_downloaded stats = 0) /\
  (include_reels = false -> reels_downloaded stats = 0).
Proof.
  intros Hrun. unfold download_user_media in Hrun.
  apply bind_Ok in Hrun as (w0 & wa & Hget & Hrun).
  injection Hget as <- <-.
  apply bind_Ok in Hrun as (user_dir & w1 & Hdir & Hrun).
  apply bind_Ok in Hrun as (resumed & w2 & _ & Hrun).
  apply bind_Ok in Hrun as (profile & w3 & _ & Hrun).
  apply bind_Ok in Hrun
    as ([[stories_images stories_videos] errors1] & w4 & Hstories & Hrun).
  apply bind_Ok in Hrun as ([reels_videos errors2] & w5 & Hreels & Hrun).
  apply bind_Ok in Hrun as (w6 & w6' & Hget & Hrun).
  injection Hget as <- <-.
  apply bind_Ok in Hrun as (posts_to_download & w7 & Hcollect & Hrun).
  apply bind_Ok in Hrun as (results & w8 & Hresults & Hrun).
  destruct (sum_results results (0, 0, 0)) as [[images videos] skipped] eqn:Hsum.
  apply bind_Ok in Hrun as (w9 & w9' & Hget & Hrun).
  injection Hget as <- <-.
  injection Hrun as <- <-. cbn.
  apply create_output_directory_Ok in Hdir.
  assert (Hs : 0 <= stories_images /\ 0 <= stories_videos /\
               0 <= errors1 <= Z.b2z include_stories /\
               (include_stories = false ->
                stories_images = 0 /\ stories_videos = 0)).
  { destruct include_stories.
    - apply try_except_Ok in Hstories as [H | (e & wx & _ & H)].
      + apply bind_Ok in H as ([i v] & wx & Hst & H).
        injection H as <- <- <- <-.
        apply download_stories_counts in Hst. simpl in *. lia.
      + injection H as <- <- <- <-. simpl. lia.
    - injection Hstories as <- <- <- <-. simpl. lia. }
  assert (Hr : 0 <= reels_videos /\
               errors1 <= errors2 <= errors1 + Z.b2z include_reels /\
               (include_reels = false -> reels_videos = 0)).
  { destruct include_reels.
    - apply try_except_Ok in Hreels as [H | (e & wx & _ & H)].
      + apply bind_Ok in H as ([i v] & wx & Hre & H).
        injection H as <- <- <-.
        apply download_reels_counts in Hre. simpl in *. lia.
      + injection H as <- <- <-. simpl. lia.
    - injection Hreels as <- <- <-. simpl. lia. }
  assert (Hc : counted (images, videos, skipped)).
  { rewrite <- Hsum. apply sum_results_counted; [| unfold counted; simpl; lia].
    destruct (0 <? len posts_to_download).
    - by eapply download_posts_parallel_counts.
    - injection Hresults as <- <-. constructor. }
  destruct (collect_posts_invariant _ _ _ _ _ _ _ Hcollect)
    as (_ & extra & -> & _ & _ & Hlen).
  unfold counted in Hc. simpl in Hc.
  split; [reflexivity |]. split; [exact Hdir |].
  split; [unfold len; lia |].
  split; [intros m Hm; specialize (Hlen m Hm); unfold len in *; simpl in *; lia |].
  repeat split; try lia.
  - intros Hoff. destruct Hs as (_ & _ & _ & Hs). destruct (Hs Hoff). lia.
  - intros Hoff. destruct Hr as (_ & _ & Hr). by apply Hr.
Qed.

(** ** A directory that cannot be made *)

Lemma create_output_directory_fails (user : string) (w : World) (e : exn)
    (r' : R) :
  mkdir provider user "posts" (remote w) = (inl e, r') ->
  _create_output_directory user w = (Raise (directory_error e), set_remote r' w).
Proof.
  intros Hmk. unfold _create_output_directory, try_except, bind at 1, outside.
  rewrite Hmk. unfold directory_error.
  destruct e as [m | m | m | [n |] m | m | m | m | m | c m]; try reflexivity.
  simpl. destruct (n =? EACCES); [reflexivity |].
  destruct (n =? ENOSPC); reflexivity.
Qed.

(** X23. When the user's posts directory cannot be made, a run stops
    there: [download_user_media] raises before it loads the ledger or
    calls instaloader, so nothing but the outside has changed.  For
    EACCES and ENOSPC the error raised is a new one built from a
    message alone, so the error that leaves never carries the errno
    EACCES or ENOSPC. *)
Theorem run_stops_when_directory_cannot_be_made (user : string)
    (max_posts : option Z) (include_stories include_reels : bool) (w : World)
    (e : exn) (r' : R) :
  mkdir provider user "posts" (remote w) = (inl e, r') ->
  download_user_media user max_posts include_stories include_reels w
    = (Raise (directory_error e), set_remote r' w) /\
  errno_is (directory_error e) EACCES = false /\
  errno_is (directory_error e) ENOSPC = false.
Proof.
  intros Hmk. split.
  - unfold download_user_media, bind at 1, get_world at 1. unfold bind at 1.
    by rewrite (create_output_directory_fails user w e r' Hmk).
  - unfold directory_error.
    destruct (errno_is e EACCES) eqn:H1; [by split |].
    destruct (errno_is e ENOSPC) eqn:H2; [by split |]. by split.
Qed.

(** ** A worker count that is not positive *)

(** X24. A downloader built with a worker count of 0 or less can
    schedule nothing: the count is kept as given, and both the post
    scheduler and batch mode then raise [ValueError] when they make
    their thread pool, before any download is attempted and whatever
    the posts or URLs are. *)
Theorem nonpositive_worker_count_stops_every_scheduler (dir : list string)
    (n : Z) (r : bool) (w0 : World) (posts : list Post) (user : string)
    (urls : list string) (max_retries : Z) :
  n <= 0 ->
  let w := __init__ dir n r w0 in
  max_workers w = n /\
  _download_posts_parallel posts user w
    = (Raise (ValueError "max_workers must be greater than 0"), w) /\
  download_posts_from_urls urls max_retries w
    = (Raise (ValueError "max_workers must be greater than 0"), w).
Proof.
  intros Hn w.
  assert (Hmax : max_workers w = n) by (subst w; simpl; lia).
  assert (Hone : (max_workers w =? 1) = false) by (apply Z.eqb_neq; lia).
  assert (Hle : (max_workers w <=? 0) = true) by (apply Z.leb_le; lia).
  split; [exact Hmax |]. split.
  - unfold _download_posts_parallel, bind, get_world, thread_pool.
    by rewrite Hone, Hle.
  - unfold download_posts_from_urls, bind at 1, get_world at 1.
    unfold bind at 1, thread_pool. by rewrite Hone, Hle.
Qed.

End Downloader.

(** * Concrete runs *)

Lemma retry_attempts_exactly_max_retries_witness :
  1 <= 3 /\
  _retry_on_connection_error
    (call "Profile.from_username" "nobody" (@offline Profile)) 3 (fresh 1 true ∅)
  = (Raise (ConnectionException "offline"),
     advance 3%nat
       [EvCall "Profile.from_username" "nobody"; EvSleep 1;
        EvCall "Profile.from_username" "nobody"; EvSleep 2;
        EvCall "Profile.from_username" "nobody"] (fresh 1 true ∅)) /\
  _retry_on_connection_error
    (call "Profile.from_username" "alice" (flaky (mkProfile "alice" 7))) 3
    (fresh 1 true ∅)
  = (Ok (Some (mkProfile "alice" 7)),
     advance 2%nat
       [EvCall "Profile.from_username" "alice"; EvSleep 1;
        EvCall "Profile.from_username" "alice"] (fresh 1 true ∅)).
Proof.
  split; [lia |]. split.
  - destruct (retry_attempts_exactly_max_retries "Profile.from_username" "nobody"
                (@offline Profile) 3 (fresh 1 true ∅)) as [Hall _]; [lia |].
    destruct Hall as (e & Hlast & Hrun & _); [repeat constructor |].
    injection Hlast as <-. exact Hrun.
  - destruct (retry_attempts_exactly_max_retries "Profile.from_username" "alice"
                (flaky (mkProfile "alice" 7)) 3 (fresh 1 true ∅)) as [_ Hok];
      [lia |].
    destruct (Hok 1%nat (mkProfile "alice" 7)) as [Hrun _];
      [simpl; lia | repeat constructor | reflexivity |].
    exact Hrun.
Defined.

Lemma retry_classes_per_profile_witness :
  _retry_on_connection_error
    (call "Post.from_shortcode" "GONE01"
          (Post_from_shortcode gone "GONE01")) 3 (fresh 1 true ∅)
  = (Raise (ProfileNotExistsException "GONE01"),
     advance 1%nat [EvCall "Post.from_shortcode" "GONE01"] (fresh 1 true ∅)) /\
  url_attempts (download_post_from_url gone) gone_url 3 [0; 1; 2] None
               (fresh 1 true ∅)
  = url_attempts (download_post_from_url gone) gone_url 3 [1; 2]
      (Some (ProfileNotExistsException "GONE01"))
      (add_event (EvSleep 2)
         (snd (download_post_from_url gone gone_url (fresh 1 true ∅)))) /\
  fst (urls_loop gone (download_post_from_url gone) [gone_url] 3
                 (mkBatch 0 0 0 0 []) (fresh 1 true ∅))
  = Ok (mkBatch 0 0 0 1
          [mkFailureRecord gone_url "GONE01" "2024-01-16T10:30:00"]).
Proof.
  destruct (retry_classes_per_profile gone) as (Hintra & Hwhole & _ & Hrecord).
  split; [| split].
  - apply (Hintra Post "Post.from_shortcode" "GONE01"
                  (Post_from_shortcode gone "GONE01") 3 0%nat (fresh 1 true ∅));
      [simpl; lia | constructor | reflexivity | discriminate].
  - apply (Hwhole (download_post_from_url gone) gone_url 3 0 [1; 2] None
                  (fresh 1 true ∅)).
    reflexivity.
  - rewrite (Hrecord (download_post_from_url gone) gone_url [] 3
                     (mkBatch 0 0 0 0 [])
                     (Some (ProfileNotExistsException "GONE01")) (fresh 1 true ∅)
                     (snd (url_attempts (download_post_from_url gone) gone_url 3
                             (range 3) None (fresh 1 true ∅))));
      [reflexivity | vm_compute; reflexivity].
Defined.

Lemma whole_item_loop_retries_fatal_error :
  classify (ProfileNotExistsException "GONE01") = Fatal /\
  fst (download_post_from_url gone gone_url (fresh 1 true ∅))
    = Raise (ProfileNotExistsException "GONE01") /\
  fst (download_posts_from_urls gone [gone_url] 3 (fresh 1 true ∅))
    <> Raise (ProfileNotExistsException "GONE01") /\
  fst (download_posts_from_urls gone [gone_url] 3 (fresh 1 true ∅))
    = Ok (mkDownloadStats "batch_download" 1 0 0 0 1 ["downloads"] 0 3 0 0 false) /\
  events (snd (download_posts_from_urls gone [gone_url] 3 (fresh 1 true ∅)))
    = [EvAttempt gone_url; EvCall "Post.from_shortcode" "GONE01"; EvSleep 2;
       EvAttempt gone_url; EvCall "Post.from_shortcode" "GONE01"; EvSleep 4;
       EvAttempt gone_url; EvCall "Post.from_shortcode" "GONE01"].
Proof.
  assert (Hrun : fst (download_posts_from_urls gone [gone_url] 3 (fresh 1 true ∅))
            = Ok (mkDownloadStats "batch_download" 1 0 0 0 1 ["downloads"]
                    0 3 0 0 false)) by (vm_compute; reflexivity).
  split; [reflexivity |]. split; [vm_compute; reflexivity |].
  split; [rewrite Hrun; discriminate |].
  split; [exact Hrun |]. vm_compute; reflexivity.
Qed.

Lemma backoff_schedules_witness :
  sleeps (events (snd (_retry_on_connection_error
                         (call "Profile.from_username" "nobody" (@offline Profile))
                         3 (fresh 1 true ∅)))) = [1; 2] /\
  url_attempts always_offline gone_url 3 (range 3) None (fresh 1 true ∅)
  = (Ok (None, Some (ConnectionException "offline")),
     add_event (EvSleep 4) (add_event (EvSleep 2) (fresh 1 true ∅))).
Proof.
  destruct (@backoff_schedules nat) as [Hintra Hwhole]. split.
  - destruct (Hintra Profile "Profile.from_username" "nobody" offline
                     (fresh 1 true ∅)) as [_ Hs]; [repeat constructor |].
    exact Hs.
  - apply (Hwhole always_offline gone_url (fresh 1 true ∅) (fresh 1 true ∅)
                  (add_event (EvSleep 2) (fresh 1 true ∅))
                  (add_event (EvSleep 4) (add_event (EvSleep 2) (fresh 1 true ∅)))
                  (ConnectionException "offline") (ConnectionException "offline")
                  (ConnectionException "offline")); reflexivity.
Defined.

Lemma third_sleep_is_never_slept :
  Forall (fun o => classify_outcome_retryable o = true)
         (outcomes (@offline Profile) 3 O) /\
  sleeps (events (snd (_retry_on_connection_error
                         (call "Profile.from_username" "nobody" (@offline Profile))
                         3 (fresh 1 true ∅)))) = [1; 2] /\
  sleeps (events (snd (_retry_on_connection_error
                         (call "Profile.from_username" "nobody" (@offline Profile))
                         3 (fresh 1 true ∅)))) <> [1; 2; 3] /\
  sleeps (events (snd (url_attempts always_offline gone_url 3 (range 3) None
                         (fresh 1 true ∅)))) = [2; 4] /\
  sleeps (events (snd (url_attempts always_offline gone_url 3 (range 3) None
                         (fresh 1 true ∅)))) <> [2; 4; 6].
Proof.
  split; [repeat constructor |].
  split; [vm_compute; reflexivity |].
  split; [vm_compute; discriminate |].
  split; [vm_compute; reflexivity |].
  vm_compute; discriminate.
Qed.

(** C4.  The load of the progress ledger is not total: the existence
    test [progress_file.exists()] is made before the [try], and
    [os.stat] failing with EACCES (a user directory that may not be
    searched) is raised again by it, so [_load_progress] raises and a
    run with resume on stops there, where the docstring promises a
    start from scratch for a file that cannot be read.  The same errno
    met by [open], inside the [try], gives the empty set, as do an
    absent file, a text that is not JSON, bytes that are not UTF-8 and
    a JSON value that is not an object; a well-formed ledger gives its
    keys. *)
Theorem load_progress_raises_when_the_path_cannot_be_examined :
  _load_progress "test_user" (with_file (FNoStat EACCES) (fresh 1 true ∅))
  = (Raise (OSError (Some EACCES) "stat"),
     add_event (EvLoad "test_user")
               (with_file (FNoStat EACCES) (fresh 1 true ∅))) /\
  fst (download_user_media (steady []) "test_user" None false false
         (with_file (FNoStat EACCES) (fresh 1 true ∅)))
  = Raise (OSError (Some EACCES) "stat") /\
  fst (_load_progress "test_user"
         (with_file (FUnreadable EACCES) (fresh 1 true ∅))) = Ok ∅ /\
  fst (_load_progress "test_user" (with_file (FNoStat ENOENT) (fresh 1 true ∅)))
  = Ok ∅ /\
  fst (_load_progress "test_user" (fresh 1 true ∅)) = Ok ∅ /\
  fst (_load_progress "test_user" (with_file FNotJson (fresh 1 true ∅))) = Ok ∅ /\
  fst (_load_progress "test_user" (with_file FBadEncoding (fresh 1 true ∅)))
    = Ok ∅ /\
  fst (_load_progress "test_user"
         (with_file (FJson (JArr [JStr "ABC123"])) (fresh 1 true ∅))) = Ok ∅ /\
  fst (_load_progress "test_user"
         (with_file (FJson sample_progress_data) (fresh 1 true ∅)))
    = Ok (list_to_set [KStr "ABC123"; KStr "XYZ789"] ∪ list_to_set [KStr "REEL001"]).
Proof.
  split; [by apply load_progress_stat_error |].
  split.
  { unfold download_user_media, bind at 1, get_world at 1.
    unfold bind at 1. simpl (_create_output_directory _ _ _).
    cbv iota. unfold bind at 1.
    pose proof (load_block_run "test_user"
                  (with_file (FNoStat EACCES) (fresh 1 true ∅))) as Hb.
    simpl in Hb.
    destruct (load_block "test_user"
                (with_file (FNoStat EACCES) (fresh 1 true ∅))) as [r w'].
    simpl in Hb. by subst r. }
  split; [| split; [| split; [| split; [| split; [| split]]]]].
  - destruct (load_progress_falls_back "test_user"
                (with_file (FUnreadable EACCES) (fresh 1 true ∅)) eq_refl)
      as (s & -> & _ & Hio & _).
    simpl. f_equal. by apply (Hio EACCES).
  - destruct (load_progress_falls_back "test_user"
                (with_file (FNoStat ENOENT) (fresh 1 true ∅)) eq_refl)
      as (s & -> & _ & _ & Hstat & _).
    simpl. f_equal. by apply (Hstat ENOENT).
  - destruct (load_progress_falls_back "test_user" (fresh 1 true ∅) eq_refl)
      as (s & -> & Habsent & _).
    simpl. f_equal. by apply Habsent.
  - destruct (load_progress_falls_back "test_user"
                (with_file FNotJson (fresh 1 true ∅)) eq_refl)
      as (s & -> & _ & _ & _ & Hbad & _).
    simpl. f_equal. by apply Hbad.
  - destruct (load_progress_falls_back "test_user"
                (with_file FBadEncoding (fresh 1 true ∅)) eq_refl)
      as (s & -> & _ & _ & _ & _ & Henc & _).
    simpl. f_equal. by apply Henc.
  - destruct (load_progress_falls_back "test_user"
                (with_file (FJson (JArr [JStr "ABC123"])) (fresh 1 true ∅))
                eq_refl)
      as (s & -> & _ & _ & _ & _ & _ & Hshape & _).
    simpl. f_equal. by apply (Hshape (JArr [JStr "ABC123"])).
  - destruct (load_progress_falls_back "test_user"
                (with_file (FJson sample_progress_data) (fresh 1 true ∅))
                eq_refl)
      as (s & -> & _ & _ & _ & _ & _ & _ & Hwell).
    simpl. f_equal.
    by apply (Hwell [("username", JStr "test_user");
                     ("last_updated", JStr "2024-01-16T10:30:00");
                     ("downloaded_posts", JArr [JStr "ABC123"; JStr "XYZ789"]);
                     ("downloaded_reels", JArr [JStr "REEL001"])]
                    ["ABC123"; "XYZ789"] ["REEL001"]).
Qed.

Lemma workers_capped_at_eight_witness :
  8 < 20 /\ 4 <= 8 /\ 1 <= 4 /\
  max_workers (__init__ ["downloads"] 20 true (fresh 1 true ∅)) = 8 /\
  max_workers (__init__ ["downloads"] 4 true (fresh 1 true ∅)) = 4 /\
  1 <= max_workers (__init__ ["downloads"] 4 true (fresh 1 true ∅)) <= 8.
Proof.
  split; [lia |]. split; [lia |]. split; [lia |].
  destruct (workers_capped_at_eight (steady []) ["downloads"] 20 true (fresh 1 true ∅))
    as (_ & _ & Habove & _).
  destruct (workers_capped_at_eight (steady []) ["downloads"] 4 true (fresh 1 true ∅))
    as (_ & _ & _ & Hbelow & Hrange & _).
  split; [apply Habove; lia |]. split; [apply Hbelow; lia |]. apply Hrange; lia.
Defined.

Lemma zero_workers_are_kept :
  max_workers (__init__ ["downloads"] 0 true (fresh 1 true ∅)) = 0 /\
  ~ (1 <= max_workers (__init__ ["downloads"] 0 true (fresh 1 true ∅)) <= 8) /\
  fst (_download_posts_parallel (steady []) [a_post "NEW001" true] "test_user"
         (__init__ ["downloads"] 0 true (fresh 1 true ∅)))
    = Raise (ValueError "max_workers must be greater than 0").
Proof.
  split; [reflexivity |]. split; [simpl; lia |]. vm_compute; reflexivity.
Qed.

Lemma in_two_keys (s : string) :
  KStr s ∈ two_keys <-> s = "ABC123" \/ s = "XYZ789".
Proof.
  unfold two_keys. rewrite elem_of_union, !elem_of_singleton.
  split; intros [H | H]; [left | right | left | right]; congruence.
Qed.

Lemma resume_skips_recorded_and_records_new_witness :
  _download_post (steady []) (a_post "ABC123" false) "test_user"
                 (fresh 1 true two_keys)
    = (Ok (0, 0, 1), fresh 1 true two_keys) /\
  fst (_download_post (steady []) (a_post "NEW001" true) "test_user"
                      (fresh 1 true two_keys)) = Ok (0, 1, 0) /\
  events (snd (_download_post (steady []) (a_post "NEW001" true) "test_user"
                              (fresh 1 true two_keys)))
    = [EvCall "download_post" "NEW001"; EvPersist "test_user"] /\
  _download_post already_on_disk (a_post "NEW001" true) "test_user"
                 (fresh 1 true two_keys)
    = (Ok (0, 0, 1), fresh 1 true two_keys) /\
  fst (_download_posts_parallel (steady [])
         [a_post "ABC123" false; a_post "NEW001" true] "test_user"
         (fresh 1 true two_keys)) = Ok [(0, 0, 1); (0, 1, 0)] /\
  downloaded_posts
    (snd (_download_posts_parallel (steady [])
            [a_post "ABC123" false; a_post "NEW001" true] "test_user"
            (fresh 1 true two_keys)))
    = {[KStr "ABC123"; KStr "XYZ789"; KStr "NEW001"]}.
Proof.
  destruct (resume_skips_recorded_and_records_new (steady []))
    as (Hhit & Hmiss & _ & Hscenario).
  destruct (resume_skips_recorded_and_records_new already_on_disk)
    as (_ & _ & Hfiles & _).
  assert (Hnew : KStr "NEW001" ∉ downloaded_posts (fresh 1 true two_keys)).
  { simpl. rewrite in_two_keys. intros [H | H]; discriminate. }
  split.
  - apply Hhit; [reflexivity |]. simpl. apply in_two_keys. by left.
  - destruct (Hmiss (a_post "NEW001" true) "test_user" (fresh 1 true two_keys) 1%nat)
      as (Hcounts & _ & Hevents & _);
      [reflexivity | exact Hnew | reflexivity | reflexivity |].
    split; [exact Hcounts |]. split; [exact Hevents |].
    split.
    + apply (Hfiles (a_post "NEW001" true) "test_user" (fresh 1 true two_keys));
        [reflexivity | exact Hnew | discriminate].
    + destruct (Hscenario (a_post "ABC123" false) (a_post "NEW001" true)
                          "test_user" (fresh 1 true two_keys) 1%nat)
        as (Hresults & _ & Hledger); try reflexivity.
      split; [exact Hresults | exact Hledger].
Defined.

Lemma unrecorded_item_with_files_is_not_downloaded :
  resume (fresh 1 true two_keys) = true /\
  (KStr "NEW001" ∉ downloaded_posts (fresh 1 true two_keys)) /\
  _download_post already_on_disk (a_post "NEW001" true) "test_user"
                 (fresh 1 true two_keys)
    = (Ok (0, 0, 1), fresh 1 true two_keys) /\
  count_calls (events (snd (_download_post already_on_disk (a_post "NEW001" true)
                              "test_user" (fresh 1 true two_keys)))) = O /\
  (KStr "NEW001" ∉
    downloaded_posts (snd (_download_post already_on_disk (a_post "NEW001" true)
                             "test_user" (fresh 1 true two_keys)))).
Proof.
  assert (Hnew : KStr "NEW001" ∉ downloaded_posts (fresh 1 true two_keys)).
  { simpl. rewrite in_two_keys. intros [H | H]; discriminate. }
  assert (Hrun : _download_post already_on_disk (a_post "NEW001" true) "test_user"
                   (fresh 1 true two_keys) = (Ok (0, 0, 1), fresh 1 true two_keys)).
  { rewrite download_post_existing_files; [reflexivity | by right | discriminate]. }
  split; [reflexivity |]. split; [exact Hnew |]. split; [exact Hrun |].
  rewrite Hrun. split; [reflexivity | exact Hnew].
Qed.

Lemma ledger_file_union_and_writer_witness :
  fst (_load_progress "test_user"
         (with_file (FJson sample_progress_data) (fresh 1 true ∅)))
    = Ok (list_to_set [KStr "ABC123"; KStr "XYZ789"] ∪ list_to_set [KStr "REEL001"]) /\
  fst (_load_progress "test_user"
         (with_file (FJson (JObj [("downloaded_posts", JArr [JStr "ABC123"])]))
                    (fresh 1 true ∅)))
    = Ok (list_to_set [KStr "ABC123"] ∪ list_to_set []) /\
  write_modes (fresh 1 true ∅) (progress_path (fresh 1 true ∅) "test_user")
    = WriteOk /\
  fst (_load_progress "test_user"
         (snd (_save_progress (steady []) "test_user" two_keys (fresh 1 true ∅))))
    = Ok two_keys.
Proof.
  destruct (ledger_file_union_and_writer (steady [])) as (Hload & _ & Hsave).
  split.
  - apply (Hload "test_user" _
                 [("username", JStr "test_user");
                  ("last_updated", JStr "2024-01-16T10:30:00");
                  ("downloaded_posts", JArr [JStr "ABC123"; JStr "XYZ789"]);
                  ("downloaded_reels", JArr [JStr "REEL001"])]
                 ["ABC123"; "XYZ789"] ["REEL001"]);
      [vm_compute; reflexivity | reflexivity | reflexivity].
  - split.
    + apply (Hload "test_user" _ [("downloaded_posts", JArr [JStr "ABC123"])]
                   ["ABC123"] []);
        [vm_compute; reflexivity | reflexivity | reflexivity].
    + split; [reflexivity |].
      apply (Hsave "test_user" two_keys (fresh 1 true ∅)); [reflexivity |].
      intros k Hk. destruct k as [s | n |];
        [by exists s | exfalso | exfalso];
        unfold two_keys in Hk;
        apply elem_of_union in Hk as [Hk | Hk];
        apply elem_of_singleton in Hk; discriminate.
Defined.

Lemma run_statistics_derived_fields_witness :
  (download_user_media
     (steady [a_post "ABC123" false; a_post "NEW001" true]) "test_user" None
     false false (with_file (FJson sample_progress_data) (fresh 1 true ∅)))
  = (Ok resumed_stats, snd (download_user_media
     (steady [a_post "ABC123" false; a_post "NEW001" true]) "test_user" None
     false false (with_file (FJson sample_progress_data) (fresh 1 true ∅)))) /\
  total_files resumed_stats = 1 /\
  duration resumed_stats = 2 /\
  (resumed_from_previous resumed_stats = true <->
   resume (with_file (FJson sample_progress_data) (fresh 1 true ∅)) = true /\
   exists loaded : gset pykey,
     fst (_load_progress "test_user"
            (with_file (FJson sample_progress_data) (fresh 1 true ∅)))
       = Ok loaded /\ loaded <> ∅) /\
  (download_user_media busy "test_user" None false false
     (with_file (FJson sample_progress_data) (fresh 4 true ∅)))
  = (Ok busy_stats, snd (download_user_media busy "test_user" None false false
       (with_file (FJson sample_progress_data) (fresh 4 true ∅)))) /\
  events (snd (download_user_media busy "test_user" None false false
                 (with_file (FJson sample_progress_data) (fresh 4 true ∅))))
  = [EvLoad "test_user"; EvCall "Profile.from_username" "test_user";
     EvCall "download_post" "NEW001"; EvCall "download_post" "NEXT02";
     EvPersist "test_user"; EvPersist "test_user"] /\
  total_files busy_stats = 2 /\
  duration busy_stats = 3 /\
  (resumed_from_previous busy_stats = true <->
   resume (with_file (FJson sample_progress_data) (fresh 4 true ∅)) = true /\
   exists loaded : gset pykey,
     fst (_load_progress "test_user"
            (with_file (FJson sample_progress_data) (fresh 4 true ∅)))
       = Ok loaded /\ loaded <> ∅).
Proof.
  assert (Hrun :
  (download_user_media
     (steady [a_post "ABC123" false; a_post "NEW001" true]) "test_user" None
     false false (with_file (FJson sample_progress_data) (fresh 1 true ∅)))
  = (Ok resumed_stats, snd (download_user_media
     (steady [a_post "ABC123" false; a_post "NEW001" true]) "test_user" None
     false false (with_file (FJson sample_progress_data) (fresh 1 true ∅)))))
    by (vm_compute; reflexivity).
  assert (Hbusy :
  (download_user_media busy "test_user" None false false
     (with_file (FJson sample_progress_data) (fresh 4 true ∅)))
  = (Ok busy_stats, snd (download_user_media busy "test_user" None false false
       (with_file (FJson sample_progress_data) (fresh 4 true ∅)))))
    by (vm_compute; reflexivity).
  split; [exact Hrun |].
  destruct (run_statistics_derived_fields _ _ _ _ _ _ _ _ Hrun)
    as (Htotal & Hduration & _ & _ & Hresumed).
  split; [exact Htotal |]. split; [exact Hduration |].
  split; [exact Hresumed |].
  split; [exact Hbusy |]. split; [vm_compute; reflexivity |].
  destruct (run_statistics_derived_fields _ _ _ _ _ _ _ _ Hbusy)
    as (Htotal' & Hduration' & _ & _ & Hresumed').
  split; [exact Htotal' |]. split; [exact Hduration' | exact Hresumed'].
Defined.

Lemma resume_off_leaves_ledger_alone_witness :
  resume (fresh 1 false two_keys) = false /\
  ledger_untouched (fresh 1 false two_keys)
    (snd (download_user_media (steady [a_post "NEW001" true]) "test_user" None
            true true (fresh 1 false two_keys))) /\
  _download_post (steady []) (a_post "NEW001" true) "test_user"
                 (fresh 1 false two_keys)
    = (Ok (0, 1, 0),
       advance 1%nat [EvCall "download_post" "NEW001"] (fresh 1 false two_keys)) /\
  resume (fresh 4 false two_keys) = false /\
  ledger_untouched (fresh 4 false two_keys)
    (snd (_download_posts_parallel busy three_posts "test_user"
            (fresh 4 false two_keys))) /\
  events (snd (_download_posts_parallel busy three_posts "test_user"
                 (fresh 4 false two_keys)))
  = [EvCall "download_post" "NEW001"; EvCall "download_post" "NEXT02";
     EvCall "download_post" "ABC123"] /\
  ledger_untouched (fresh 4 false two_keys)
    (snd (download_user_media busy "test_user" None true true
            (fresh 4 false two_keys))) /\
  ledger_untouched (fresh 4 false two_keys)
    (snd (download_posts_from_urls busy
            [gone_url; "https://www.instagram.com/p/ABC123/"] 3
            (fresh 4 false two_keys))).
Proof.
  split; [reflexivity |].
  split.
  { destruct (resume_off_leaves_ledger_alone
                (steady [a_post "NEW001" true]) (fresh 1 false two_keys) eq_refl)
      as (_ & _ & _ & _ & _ & _ & _ & Hrun & _).
    apply Hrun. }
  split.
  { destruct (resume_off_leaves_ledger_alone
                (steady []) (fresh 1 false two_keys) eq_refl)
      as (_ & _ & _ & _ & _ & _ & _ & _ & Hitem).
    apply (Hitem (a_post "NEW001" true) "test_user" 1%nat); reflexivity. }
  split; [reflexivity |].
  destruct (resume_off_leaves_ledger_alone busy (fresh 4 false two_keys) eq_refl)
    as (_ & Hpool & _ & _ & _ & _ & Hbatch & Hrun & _).
  split; [apply Hpool |]. split; [vm_compute; reflexivity |].
  split; [apply Hrun | apply Hbatch].
Defined.

(** C6.  At the failing input: the provider reports the account as gone
    (a Fatal error) while the first of two items is fetched.  The
    single-worker run does not raise: the first item counts for
    (0, 0, 0) and the second item is attempted and downloaded.  And
    when the item method itself raises a filesystem error of the
    RecoverableSkip class, the single-worker loop raises it and leaves
    the second item unattempted. *)
Theorem fatal_account_error_does_not_stop_the_run :
  classify (ProfileNotExistsException "GONE01") = Fatal /\
  loader_download_post account_gone "posts" (a_post "GONE01" false) "test_user"
                       (remote (fresh 1 true ∅))
    = (inl (ProfileNotExistsException "GONE01"), 1%nat) /\
  fst (_download_posts_parallel account_gone
         [a_post "GONE01" false; a_post "NEXT02" false] "test_user"
         (fresh 1 true ∅)) = Ok [(0, 0, 0); (1, 0, 0)] /\
  events (snd (_download_posts_parallel account_gone
                 [a_post "GONE01" false; a_post "NEXT02" false] "test_user"
                 (fresh 1 true ∅)))
    = [EvCall "download_post" "GONE01"; EvCall "download_post" "NEXT02";
       EvPersist "test_user"] /\
  classify (OSError (Some 5) "EIO") = RecoverableSkip /\
  sequential_loop
    (fun post _ w =>
       (if String.eqb (shortcode post) "GONE01"
        then Raise (OSError (Some 5) "EIO") else Ok (1, 0, 0), w))
    [a_post "GONE01" false; a_post "NEXT02" false] "test_user" []
    (fresh 1 true ∅)
    = (Raise (OSError (Some 5) "EIO"), fresh 1 true ∅).
Proof.
  split; [reflexivity |]. split; [reflexivity |].
  split; [vm_compute; reflexivity |]. split; [vm_compute; reflexivity |].
  split; reflexivity.
Qed.

(** An object whose "downloaded_posts" is a string is not rejected by
    the loader: [set] takes its characters as keys. *)
Lemma load_progress_of_string_field :
  fst (_load_progress "test_user"
         (with_file (FJson (JObj [("downloaded_posts", JStr "ab")]))
                    (fresh 1 true ∅)))
    = Ok {[KStr "a"; KStr "b"]}.
Proof. rewrite load_progress_run. vm_compute. reflexivity. Qed.

(** ** Concrete runs of the further properties *)

Lemma extracted_shortcode_is_in_the_url_witness :
  _extract_shortcode_from_url
    "https://www.instagram.com/reel/XYZ789abc/?igshid=1" (fresh 1 true ∅)
  = (Ok "XYZ789abc", fresh 1 true ∅) /\
  exists before kind rest,
    (kind = "p/" \/ kind = "reel/") /\
    "https://www.instagram.com/reel/XYZ789abc/?igshid=1"
    = before +:+ "instagram.com/" +:+ kind +:+ "XYZ789abc" +:+ rest /\
    "XYZ789abc" <> EmptyString /\ all_shortcode_chars "XYZ789abc" = true /\
    starts_with_shortcode_char rest = false.
Proof.
  assert (Hrun : _extract_shortcode_from_url
                   "https://www.instagram.com/reel/XYZ789abc/?igshid=1"
                   (fresh 1 true ∅)
                 = (Ok "XYZ789abc", fresh 1 true ∅)) by reflexivity.
  split; [exact Hrun |].
  exact (proj2 (extracted_shortcode_is_in_the_url _ _ _ _ Hrun)).
Defined.

Lemma documented_urls_give_their_shortcode_witness :
  all_shortcode_chars "ABC123" = true /\
  starts_with_shortcode_char "/" = false /\
  _extract_shortcode_from_url "https://www.instagram.com/p/ABC123/"
    (fresh 1 true ∅) = (Ok "ABC123", fresh 1 true ∅) /\
  _extract_shortcode_from_url "https://www.instagram.com/reel/ABC123/"
    (fresh 1 true ∅) = (Ok "ABC123", fresh 1 true ∅).
Proof.
  split; [reflexivity |]. split; [reflexivity |].
  destruct (documented_urls_give_their_shortcode "ABC123" "/" (fresh 1 true ∅))
    as (Hp & _ & _ & Hreel); [discriminate | reflexivity | reflexivity |].
  split; [exact Hp | exact Hreel].
Defined.

Lemma url_without_host_is_refused_before_any_call_witness :
  contains "instagram.com" "https://example.com/invalid" = false /\
  download_post_from_url (steady []) "https://example.com/invalid"
    (fresh 1 true ∅)
  = (Raise (ValueError "https://example.com/invalid"),
     add_event (EvAttempt "https://example.com/invalid") (fresh 1 true ∅)).
Proof.
  split; [reflexivity |].
  apply (url_without_host_is_refused_before_any_call (steady [])
           "https://example.com/invalid" (fresh 1 true ∅)).
  reflexivity.
Defined.

Lemma read_urls_returns_only_instagram_urls_witness :
  _read_urls_from_file (Some (FJson (JObj sample_url_file)))
  = inr [JStr "https://www.instagram.com/p/ABC123/";
         JStr "https://www.instagram.com/reel/XYZ789/"] /\
  (forall s,
     JStr s ∈ [JStr "https://www.instagram.com/p/ABC123/";
               JStr "https://www.instagram.com/reel/XYZ789/"] ->
     contains "instagram.com" s = true).
Proof.
  assert (Hrun : _read_urls_from_file (Some (FJson (JObj sample_url_file)))
                 = inr [JStr "https://www.instagram.com/p/ABC123/";
                        JStr "https://www.instagram.com/reel/XYZ789/"])
    by (vm_compute; reflexivity).
  split; [exact Hrun |].
  exact (proj2 (read_urls_returns_only_instagram_urls _ _ Hrun)).
Defined.

Lemma read_urls_keeps_file_order_witness :
  forallb plain_entry sample_url_entries = true /\
  _read_urls_from_file (Some (FJson (JObj sample_url_file)))
  = inr (List.filter is_instagram_url (omap url_of_item sample_url_entries)).
Proof.
  split; [reflexivity |].
  apply (read_urls_keeps_file_order sample_url_file sample_url_entries);
    reflexivity.
Defined.

Lemma extractable_urls_pass_the_reader_witness :
  _extract_shortcode_from_url "https://www.instagram.com/p/ABC123/"
    (fresh 1 true ∅) = (Ok "ABC123", fresh 1 true ∅) /\
  _read_urls_from_file
    (Some (FJson (JObj [("urls",
                         JArr [JStr "https://www.instagram.com/p/ABC123/"])])))
  = inr [JStr "https://www.instagram.com/p/ABC123/"].
Proof.
  assert (Hrun : _extract_shortcode_from_url
                   "https://www.instagram.com/p/ABC123/" (fresh 1 true ∅)
                 = (Ok "ABC123", fresh 1 true ∅)) by reflexivity.
  split; [exact Hrun |].
  apply (extractable_urls_pass_the_reader _ _ _ _
           [("urls", JArr [JStr "https://www.instagram.com/p/ABC123/"])] Hrun).
  reflexivity.
Defined.

Lemma collected_posts_are_bounded_and_filtered_witness :
  collect_posts
    (inr <$> [a_post "ABC123" false; a_reel "REEL001"; a_post "NEW001" true;
              a_post "XYZ789" false])
    (Some 2) true [] (fresh 1 true ∅)
  = (Ok [a_post "ABC123" false; a_post "NEW001" true], fresh 1 true ∅) /\
  Forall (fun p => _is_reel p = false)
         [a_post "ABC123" false; a_post "NEW001" true] /\
  len [a_post "ABC123" false; a_post "NEW001" true] <= Z.max 2 0.
Proof.
  assert (Hrun : collect_posts
            (inr <$> [a_post "ABC123" false; a_reel "REEL001";
                      a_post "NEW001" true; a_post "XYZ789" false])
            (Some 2) true [] (fresh 1 true ∅)
          = (Ok [a_post "ABC123" false; a_post "NEW001" true], fresh 1 true ∅))
    by reflexivity.
  split; [exact Hrun |].
  destruct (collected_posts_are_bounded_and_filtered _ _ _ _ _ _ Hrun)
    as (_ & _ & Hreels & Hlen).
  split; [by apply Hreels | by apply Hlen].
Defined.

Lemma limit_is_checked_after_fetching_witness :
  collect_posts
    ((inr <$> [a_post "ABC123" false; a_post "NEW001" true])
     ++ [inl (ConnectionException "offline")])
    (Some 2) false [] (fresh 1 true ∅)
  = (Raise (ConnectionException "offline"), fresh 1 true ∅) /\
  collect_posts
    ((inr <$> [a_post "ABC123" false; a_post "NEW001" true])
     ++ [inl (ConnectionException "offline")])
    (Some 1) false [] (fresh 1 true ∅)
  = (Ok [a_post "ABC123" false], fresh 1 true ∅).
Proof.
  split.
  - apply (limit_is_checked_after_fetching
             [a_post "ABC123" false; a_post "NEW001" true]
             (ConnectionException "offline") [] 2 (fresh 1 true ∅)).
    unfold len. simpl. lia.
  - apply (limit_is_checked_after_fetching
             [a_post "ABC123" false; a_post "NEW001" true]
             (ConnectionException "offline") [] 1 (fresh 1 true ∅)).
    unfold len. simpl. lia.
Defined.

Lemma totals_do_not_depend_on_order_witness :
  [(1, 0, 0); (0, 1, 0); (0, 0, 1)] ≡ₚ [(0, 0, 1); (1, 0, 0); (0, 1, 0)] /\
  sum_results [(1, 0, 0); (0, 1, 0); (0, 0, 1)] (0, 0, 0)
  = sum_results [(0, 0, 1); (1, 0, 0); (0, 1, 0)] (0, 0, 0).
Proof.
  assert (Hp : [(1, 0, 0); (0, 1, 0); (0, 0, 1)]
               ≡ₚ [(0, 0, 1); (1, 0, 0); (0, 1, 0)]).
  { symmetry. apply (Permutation_cons_append [(1, 0, 0); (0, 1, 0)] (0, 0, 1)). }
  split; [exact Hp |].
  by apply (totals_do_not_depend_on_order
              [(1, 0, 0); (0, 1, 0); (0, 0, 1)]
              [(0, 0, 1); (1, 0, 0); (0, 1, 0)] (0, 0, 0)).
Defined.

Lemma only_connection_and_disk_errors_stop_the_scheduler_witness :
  fst (_download_posts_parallel no_network [a_post "ABC123" false] "test_user"
         (fresh 1 false ∅)) = Raise (ConnectionException "offline") /\
  fatal_for_item (ConnectionException "offline") = true /\
  is_ProfileNotExistsException (ConnectionException "offline") = false /\
  is_PrivateProfileNotFollowedException (ConnectionException "offline") = false.
Proof.
  assert (Hrun : fst (_download_posts_parallel no_network
                        [a_post "ABC123" false] "test_user" (fresh 1 false ∅))
                 = Raise (ConnectionException "offline")) by reflexivity.
  split; [exact Hrun |].
  apply (only_connection_and_disk_errors_stop_the_scheduler no_network
           [a_post "ABC123" false] "test_user" (fresh 1 false ∅)
           (ConnectionException "offline")); [reflexivity | exact Hrun].
Defined.

Lemma phases_raise_what_the_error_handler_raises_witness :
  fst (download_stories no_such_account "test_user" (fresh 1 false ∅))
  = Raise (ProfileNotExistsException "test_user") /\
  _handle_download_error (ProfileNotExistsException "test_user")
    (fresh 1 false ∅)
  = (Raise (ProfileNotExistsException "test_user"), fresh 1 false ∅).
Proof.
  assert (Hrun : fst (download_stories no_such_account "test_user"
                        (fresh 1 false ∅))
                 = Raise (ProfileNotExistsException "test_user"))
    by reflexivity.
  split; [exact Hrun |].
  apply (phases_raise_what_the_error_handler_raises no_such_account
           "test_user" (fresh 1 false ∅)
           (ProfileNotExistsException "test_user") (or_introl Hrun)).
Defined.

Lemma single_worker_batch_always_returns_witness :
  max_workers (fresh 1 true ∅) = 1 /\
  exists (stats : DownloadStats) (w' : World) (records : list FailureRecord),
    download_posts_from_urls gone [gone_url] 3 (fresh 1 true ∅)
      = (Ok stats, w') /\
    username stats = "batch_download" /\
    total_posts stats = len [gone_url] /\
    errors stats = len records /\
    0 <= errors stats <= len [gone_url] /\
    failed_url <$> records `sublist_of` [gone_url] /\
    (records <> [] -> failed_file_writable w' = true ->
     failed_file w' = Some records).
Proof.
  split; [reflexivity |].
  apply (single_worker_batch_always_returns gone [gone_url] 3 (fresh 1 true ∅)).
  reflexivity.
Defined.

Lemma batch_without_budget_fails_every_url_witness :
  0 <= 0 /\
  download_posts_from_urls (steady []) [gone_url] 0 (fresh 1 true ∅)
  = (Ok (mkDownloadStats "batch_download" 1 0 0 0 1 ["downloads"] 0 0 0 0 false),
     set_failed_file
       (Some [never_attempted "2024-01-16T10:30:00" gone_url])
       (fresh 1 true ∅)).
Proof.
  split; [lia |].
  apply (batch_without_budget_fails_every_url (steady []) [gone_url] 0
           (fresh 1 true ∅)); [reflexivity | lia].
Defined.

Lemma downloaded_post_is_skipped_when_met_again_witness :
  (KStr "NEW001" ∉ downloaded_posts (fresh 1 true two_keys)) /\
  let w1 := snd (_download_post (steady []) (a_post "NEW001" true) "test_user"
                   (fresh 1 true two_keys)) in
  _download_post (steady []) (a_post "NEW001" true) "other_user" w1
  = (Ok (0, 0, 1), w1).
Proof.
  assert (Hnew : KStr "NEW001" ∉ downloaded_posts (fresh 1 true two_keys)).
  { simpl. rewrite in_two_keys. intros [H | H]; discriminate. }
  split; [exact Hnew |].
  apply (downloaded_post_is_skipped_when_met_again (steady [])
           (a_post "NEW001" true) (a_post "NEW001" true) "test_user"
           "other_user" (fresh 1 true two_keys) 1%nat);
    [reflexivity | exact Hnew | reflexivity | reflexivity | reflexivity].
Defined.

Lemma downloaded_post_is_skipped_by_the_next_run_witness :
  (KStr "NEW001" ∉ downloaded_posts (fresh 1 true two_keys)) /\
  let w1 := snd (_download_post (steady []) (a_post "NEW001" true) "test_user"
                   (fresh 1 true two_keys)) in
  (exists w3 : World,
     load_block "test_user" (__init__ ["downloads"] 4 true w1) = (Ok true, w3) /\
     downloaded_posts w3
       = {[KStr (shortcode (a_post "NEW001" true))]}
         ∪ downloaded_posts (fresh 1 true two_keys) /\
     _download_post (steady []) (a_post "NEW001" true) "test_user" w3
       = (Ok (0, 0, 1), w3)) /\
  (exists w3 : World,
     load_block "test_user" (__init__ ["elsewhere"] 4 true w1) = (Ok false, w3) /\
     downloaded_posts w3 = ∅).
Proof.
  assert (Hnew : KStr "NEW001" ∉ downloaded_posts (fresh 1 true two_keys)).
  { simpl. rewrite in_two_keys. intros [H | H]; discriminate. }
  split; [exact Hnew |].
  destruct (downloaded_post_is_skipped_by_the_next_run (steady [])
              (a_post "NEW001" true) "test_user" (fresh 1 true two_keys) 1%nat 4)
    as [Hsame Hother];
    [reflexivity | exact Hnew | reflexivity | reflexivity | reflexivity | |].
  { intros k Hk. simpl in Hk. unfold two_keys in Hk.
    apply elem_of_union in Hk as [Hk | Hk]; apply elem_of_singleton in Hk;
      by eexists. }
  split; [exact Hsame |].
  apply (Hother ["elsewhere"]); [discriminate | reflexivity].
Defined.

Lemma scheduler_only_adds_given_shortcodes_witness :
  max_workers (fresh 1 true two_keys) = 1 /\
  let w' := snd (_download_posts_parallel (steady [])
                   [a_post "ABC123" false; a_post "NEW001" true] "test_user"
                   (fresh 1 true two_keys)) in
  downloaded_posts (fresh 1 true two_keys) ⊆ downloaded_posts w' /\
  downloaded_posts w'
    ⊆ downloaded_posts (fresh 1 true two_keys)
      ∪ keys_of [a_post "ABC123" false; a_post "NEW001" true] /\
  (forall k, k ∈ downloaded_posts w' ->
             k ∉ downloaded_posts (fresh 1 true two_keys) ->
             exists post,
               post ∈ [a_post "ABC123" false; a_post "NEW001" true] /\
               k = KStr (shortcode post)).
Proof.
  split; [reflexivity |].
  apply (scheduler_only_adds_given_shortcodes (steady [])
           [a_post "ABC123" false; a_post "NEW001" true] "test_user"
           (fresh 1 true two_keys)).
  reflexivity.
Defined.

Lemma saved_ledger_is_sorted_witness :
  write_modes (fresh 1 true two_keys)
              (progress_path (fresh 1 true two_keys) "test_user") = WriteOk /\
  exists (ss : list string) (ts : string),
    progress_file
      (snd (_save_progress (steady []) "test_user" two_keys
              (fresh 1 true two_keys))) "test_user"
      = Some (FJson (progress_data "test_user" ts (KStr <$> ss))) /\
    Sorted String.le ss /\
    NoDup ss /\
    (forall s, s ∈ ss <-> KStr s ∈ two_keys).
Proof.
  split; [reflexivity |].
  apply (saved_ledger_is_sorted (steady []) "test_user" two_keys
           (fresh 1 true two_keys)); [reflexivity |].
  intros k Hk. unfold two_keys in Hk.
  apply elem_of_union in Hk as [Hk | Hk]; apply elem_of_singleton in Hk;
    by eexists.
Defined.

Lemma mixed_ledger_is_never_written_witness :
  same_kind (KStr "ABC123") (KInt 7) = false /\
  _save_progress (steady []) "test_user" {[KStr "ABC123"; KInt 7]}
    (fresh 1 true ∅)
  = (Ok tt, add_event (EvPersist "test_user") (fresh 1 true ∅)).
Proof.
  split; [reflexivity |].
  apply (mixed_ledger_is_never_written (steady []) "test_user"
           {[KStr "ABC123"; KInt 7]} (fresh 1 true ∅) (KStr "ABC123") (KInt 7)).
  - apply elem_of_union_l. by apply elem_of_singleton.
  - apply elem_of_union_r. by apply elem_of_singleton.
  - reflexivity.
Defined.

Lemma run_statistics_are_bounded_witness :
  download_user_media
    (steady [a_post "ABC123" false; a_post "NEW001" true]) "test_user" (Some 5)
    true true (with_file (FJson sample_progress_data) (fresh 1 true ∅))
  = (Ok (mkDownloadStats "test_user" 2 0 1 1 0 ["downloads"; "test_user"]
           0 5 0 0 true),
     snd (download_user_media
            (steady [a_post "ABC123" false; a_post "NEW001" true]) "test_user"
            (Some 5) true true
            (with_file (FJson sample_progress_data) (fresh 1 true ∅)))) /\
  2 <= Z.max 5 0 /\
  0 <= 0 <= Z.b2z true + Z.b2z true /\
  download_user_media busy "test_user" (Some 2) false false
    (with_file (FJson sample_progress_data) (fresh 4 true ∅))
  = (Ok (mkDownloadStats "test_user" 2 0 1 1 0 ["downloads"; "test_user"]
           0 2 0 0 true),
     snd (download_user_media busy "test_user" (Some 2) false false
            (with_file (FJson sample_progress_data) (fresh 4 true ∅)))) /\
  2 <= Z.max 2 0 /\
  0 <= 0 <= Z.b2z false + Z.b2z false.
Proof.
  assert (Hrun :
    download_user_media
      (steady [a_post "ABC123" false; a_post "NEW001" true]) "test_user" (Some 5)
      true true (with_file (FJson sample_progress_data) (fresh 1 true ∅))
    = (Ok (mkDownloadStats "test_user" 2 0 1 1 0 ["downloads"; "test_user"]
             0 5 0 0 true),
       snd (download_user_media
              (steady [a_post "ABC123" false; a_post "NEW001" true]) "test_user"
              (Some 5) true true
              (with_file (FJson sample_progress_data) (fresh 1 true ∅)))))
    by (vm_compute; reflexivity).
  assert (Hbusy :
    download_user_media busy "test_user" (Some 2) false false
      (with_file (FJson sample_progress_data) (fresh 4 true ∅))
    = (Ok (mkDownloadStats "test_user" 2 0 1 1 0 ["downloads"; "test_user"]
             0 2 0 0 true),
       snd (download_user_media busy "test_user" (Some 2) false false
              (with_file (FJson sample_progress_data) (fresh 4 true ∅)))))
    by (vm_compute; reflexivity).
  split; [exact Hrun |].
  destruct (run_statistics_are_bounded _ _ _ _ _ _ _ _ Hrun)
    as (_ & _ & _ & Hlimit & _ & _ & _ & _ & _ & Herrors & _).
  split; [exact (Hlimit 5 eq_refl) |]. split; [exact Herrors |].
  split; [exact Hbusy |].
  destruct (run_statistics_are_bounded _ _ _ _ _ _ _ _ Hbusy)
    as (_ & _ & _ & Hlimit' & _ & _ & _ & _ & _ & Herrors' & _).
  split; [exact (Hlimit' 2 eq_refl) | exact Herrors'].
Defined.

Lemma every_story_item_is_attempted_witness :
  fst (story_items_loop broken_stories [inl (ConnectionException "offline")]
         "test_user" (0, 0) (fresh 1 false ∅))
  = Raise (ConnectionException "offline") /\
  inl (ConnectionException "offline")
    ∈ ([inl (ConnectionException "offline")] : Story) /\
  exists (acc' : Z * Z) (w' : World),
    story_items_loop broken_stories
      (inr <$> [mkStoryItem "STORY1" true; mkStoryItem "STORY2" false])
      "test_user" (0, 0) (fresh 1 false ∅) = (Ok acc', w') /\
    count_calls (events w')
      = (count_calls (events (fresh 1 false ∅)) + 2)%nat.
Proof.
  assert (Hrun : fst (story_items_loop broken_stories
                        [inl (ConnectionException "offline")] "test_user"
                        (0, 0) (fresh 1 false ∅))
                 = Raise (ConnectionException "offline")) by reflexivity.
  split; [exact Hrun |].
  destruct (every_story_item_is_attempted broken_stories
              [mkStoryItem "STORY1" true; mkStoryItem "STORY2" false]
              [inl (ConnectionException "offline")] "test_user" (0, 0)
              (fresh 1 false ∅)) as [Hall Hraise].
  split; [exact (Hraise _ Hrun) |].
  destruct Hall as (acc' & w' & Hloop & Hcalls & _).
  by exists acc', w'.
Defined.

Lemma reels_loop_skips_other_posts_witness :
  Forall (fun p => _is_reel p = false)
         [a_post "ABC123" false; a_post "NEW001" true] /\
  reels_loop (steady []) (inr <$> [a_post "ABC123" false; a_post "NEW001" true])
    "test_user" 0 (fresh 1 true ∅)
  = (Ok 0, fresh 1 true ∅).
Proof.
  assert (Hall : Forall (fun p => _is_reel p = false)
                        [a_post "ABC123" false; a_post "NEW001" true])
    by (repeat constructor).
  split; [exact Hall |].
  exact (reels_loop_skips_other_posts (steady []) _ "test_user" 0
           (fresh 1 true ∅) Hall).
Defined.

Lemma run_stops_when_directory_cannot_be_made_witness :
  mkdir read_only_disk "test_user" "posts" (remote (fresh 1 true ∅))
  = (inl (OSError (Some EACCES) "Permission denied"), O) /\
  download_user_media read_only_disk "test_user" None true true (fresh 1 true ∅)
  = (Raise (OSError None "PermissionError"), fresh 1 true ∅) /\
  errno_is (OSError None "PermissionError") EACCES = false.
Proof.
  assert (Hmk : mkdir read_only_disk "test_user" "posts"
                  (remote (fresh 1 true ∅))
                = (inl (OSError (Some EACCES) "Permission denied"), O))
    by reflexivity.
  split; [exact Hmk |].
  destruct (run_stops_when_directory_cannot_be_made read_only_disk "test_user"
              None true true (fresh 1 true ∅) _ _ Hmk) as (Hrun & Hno & _).
  split; [exact Hrun | exact Hno].
Defined.

Lemma nonpositive_worker_count_stops_every_scheduler_witness :
  0 <= 0 /\
  let w := __init__ ["downloads"] 0 true (fresh 1 true ∅) in
  max_workers w = 0 /\
  _download_posts_parallel (steady []) [a_post "ABC123" false] "test_user" w
    = (Raise (ValueError "max_workers must be greater than 0"), w) /\
  download_posts_from_urls (steady []) [gone_url] 3 w
    = (Raise (ValueError "max_workers must be greater than 0"), w).
Proof.
  split; [lia |].
  apply (nonpositive_worker_count_stops_every_scheduler (steady [])
           ["downloads"] 0 true (fresh 1 true ∅) [a_post "ABC123" false]
           "test_user" [gone_url] 3).
  lia.
Defined.
